(** * errcat-go: call-resilience primitives, embedded and verified

    A shallow embedding of the Go packages [retrier], [fallback], [timer],
    [breaker], [api] and [errcat] (caller and daemon), followed by the
    properties of the specification that concern them.

    Conventions of the embedding.
    - A Go [error] value is [option error]: [None] is [nil].
    - A [func() error] is a computation in the monad [M]: it transforms the
      program store and either returns or panics.
    - [uint] is [Z] with its 64-bit wrap-around written out ([uint_wrap]).
    - [time.Time] and [time.Duration] are [Z] (nanoseconds); their
      zero values are [0]. *)

From Stdlib Require Import ZArith Lia.
From stdpp Require Import base option list strings gmap.

Local Open Scope Z_scope.

(** ** Errors *)

(** The error values that flow through the library: the two sentinels
    ([breaker.ErrBreakerOpen], [timer.ErrTimeout], compared by identity) and
    errors made from a message ([errors.New], [fmt.Errorf]). *)
Inductive error : Type :=
  | ErrBreakerOpen
  | ErrTimeout
  | errorString (msg : string).

(** [err.Error()] *)
Definition Error (e : error) : string :=
  match e with
  | ErrBreakerOpen => "circuit breaker is open"
  | ErrTimeout => "timeout exceeded"
  | errorString msg => msg
  end.

(** [err != nil] *)
Definition not_nil (err : option error) : bool :=
  match err with Some _ => true | None => false end.

(** ** Unsigned counters *)

Definition uint_wrap (x : Z) : Z := x mod 2 ^ 64.

(** [x++] on a [uint] *)
Definition uint_incr (x : Z) : Z := uint_wrap (x + 1).

(** ** package breaker: the data held under the lock *)

Inductive Status : Type := Closed | HalfOpen | Open.

#[global] Instance Status_eq_dec : EqDecision Status.
Proof. solve_decision. Defined.

Definition Status_String (s : Status) : string :=
  match s with
  | Closed => "closed"
  | HalfOpen => "half-open"
  | Open => "open"
  end.

(** [State]. The Go struct also carries the clock [now]; it is always the
    breaker's own clock ([New] and [setState] are the only writers), so the
    embedding keeps the clock in the breaker and passes the time that
    [s.now()] returns to [State_Status]. *)
Record State : Type := mkState {
  status : Status;
  expiresAt : Z;
  Failures : Z;
  Successes : Z
}.

(** The fields of [Breaker] that [b.lock] guards. *)
Record Guarded : Type := mkGuarded {
  requests : Z;
  state : State
}.

(** The zero value: what a breaker holds when [New] returns. *)
Definition State_zero : State := mkState Closed 0 0 0.
Definition Guarded_zero : Guarded := mkGuarded 0 State_zero.

(** ** package api: telemetry records *)

Record Call : Type := mkCall {
  Dependency : string;
  Duration : Z;
  Error_ : option error;
  Name : string;
  StartedAt : Z
}.

Record RecordCallsRequest : Type := mkRecordCallsRequest {
  Calls : list Call;
  Environment : string;
  Service : string
}.

(** The wire messages of [protos/api]. *)
Record pb_Call : Type := mk_pb_Call {
  pb_Dependency : string;
  pb_Duration : Z;
  pb_Error : string;
  pb_Name : string;
  pb_StartedAt : Z
}.

Record pb_RecordCallsRequest : Type := mk_pb_RecordCallsRequest {
  pb_Calls : list pb_Call;
  pb_Env : string;
  pb_Service : string
}.

Section Errcat.

(** [W] is the state of the user's program (whatever the callbacks and the
    clocks read and write); [PanicValue] is the type of the non-nil values
    that [recover()] hands back, [Sprint v] is [fmt.Sprintf("%v", v)]. *)
Context {W : Type} {PanicValue : Type}.
Variable Sprint : PanicValue -> string.

(** [time.Now], read from the world. *)
Variable time_Now : W -> Z.

(** ** The store and the monad of Go functions *)

(** The program store: the user's world, the guarded fields of every
    breaker (by address; an address not in the map holds the zero value),
    the records handed over on the daemon's channel (oldest first) and the
    requests that reached the gRPC stub (oldest first). *)
Record Store : Type := mkStore {
  world : W;
  breakers : gmap positive Guarded;
  delivered : list Call;
  wire : list pb_RecordCallsRequest
}.

Inductive Result (A : Type) : Type :=
  | Val (a : A)
  | Panic (v : PanicValue).
Arguments Val {A} a.
Arguments Panic {A} v.

Definition M (A : Type) : Type := Store -> Result A * Store.

Definition ret {A} (a : A) : M A := fun s => (Val a, s).

(** Sequencing: a panic unwinds past the continuation. *)
Definition bind {A B} (m : M A) (k : A -> M B) : M B :=
  fun s =>
    match m s with
    | (Val a, s1) => k a s1
    | (Panic v, s1) => (Panic v, s1)
    end.

Definition gets {A} (f : Store -> A) : M A := fun s => (Val (f s), s).
Definition modify (f : Store -> Store) : M unit := fun s => (Val tt, f s).

(** [defer func() { if r := recover(); r != nil { err = h r } }()] around
    a body with a named result. *)
Definition recover {A} (body : M A) (h : PanicValue -> A) : M A :=
  fun s =>
    match body s with
    | (Val a, s1) => (Val a, s1)
    | (Panic v, s1) => (Val (h v), s1)
    end.

(** [fmt.Errorf("%v", r)] *)
Definition Errorf_v (r : PanicValue) : option error :=
  Some (errorString (Sprint r)).

Notation "x <- m ;; k" := (bind m (fun x => k))
  (at level 100, m at next level, right associativity).
Notation "m ;;; k" := (bind m (fun _ => k))
  (at level 100, right associativity).

(** A callback, [func() error]. *)
Definition CallFn : Type := M (option error).

(** ** package retrier *)

Record Retrier : Type := mkRetrier {
  isRetriable : option error -> bool;
  maxAttempts : Z
}.

Definition defaultMaxAttempts : Z := 1.
Definition defaultIsRetriable : option error -> bool := not_nil.

Inductive retrier_option : Type :=
  | WithIsRetriable (isRetriable : option (option error -> bool))
  | WithMaxAttempts (maxAttempts : Z).

Definition retrier_apply (opt : retrier_option) (r : Retrier) : Retrier :=
  match opt with
  | WithIsRetriable f =>
      let f := match f with None => defaultIsRetriable | Some f => f end in
      mkRetrier f (maxAttempts r)
  | WithMaxAttempts n =>
      let n := if n =? 0 then defaultMaxAttempts else n in
      mkRetrier (isRetriable r) n
  end.

Definition retrier_New (opts : list retrier_option) : Retrier :=
  fold_left (fun r opt => retrier_apply opt r) opts
    (mkRetrier defaultIsRetriable defaultMaxAttempts).

(** The body of the [for] loop of [Run] with [n] iterations left; [err] is
    the variable declared before the loop. *)
Fixpoint Retrier_loop (r : Retrier) (n : nat) (cb : CallFn)
    (err : option error) : M (option error) :=
  match n with
  | O => ret err
  | S n' =>
      err <- cb ;;
      if negb (not_nil err) || negb (isRetriable r err)
      then ret err
      else Retrier_loop r n' cb err
  end.

Definition Retrier_Run (r : option Retrier) (cb : CallFn) : M (option error) :=
  match r with
  | None => cb
  | Some r => Retrier_loop r (Z.to_nat (maxAttempts r)) cb None
  end.

(** ** package fallback *)

Record Fallback : Type := mkFallback {
  useFallback : option error -> bool;
  call : CallFn
}.

Definition defaultUseFallback : option error -> bool := not_nil.

Inductive fallback_option : Type :=
  | WithUseFallback (useFallback : option (option error -> bool)).

Definition fallback_apply (opt : fallback_option) (f : Fallback) : Fallback :=
  match opt with
  | WithUseFallback p =>
      let p := match p with None => defaultUseFallback | Some p => p end in
      mkFallback p (call f)
  end.

Definition fallback_New (call : option CallFn) (opts : list fallback_option)
    : Fallback :=
  let call := match call with None => ret None | Some c => c end in
  fold_left (fun f opt => fallback_apply opt f) opts
    (mkFallback defaultUseFallback call).

Definition Fallback_UseFallback (f : option Fallback) (err : option error)
    : bool :=
  match f with
  | None => false
  | Some f => useFallback f err
  end.

Definition Fallback_Call (f : option Fallback) : M (option error) :=
  match f with
  | None => ret None
  | Some f => call f
  end.

(** ** package timer *)

Record Timer : Type := mkTimer { duration : Z }.

Definition timer_New (d : Z) : Timer := mkTimer d.

(** The outcome of the [select] in [Run]: either the worker delivers on
    [done] first, or the timer fires first. In the second case the worker
    is still somewhere inside [cb] (it is never cancelled), so the store
    the caller goes on with is whatever the worker has made of it so far:
    the race carries it. *)
Inductive Race : Type :=
  | DoneFirst
  | TimerFirst (seen : Store).

Definition Timer_Run (race : Race) (t : option Timer) (cb : CallFn)
    : M (option error) :=
  match t with
  | None => cb
  | Some t =>
      if duration t <=? 0 then cb
      else
        match race with
        | TimerFirst seen => fun _ => (Val (Some ErrTimeout), seen)
        | DoneFirst => recover cb Errorf_v
        end
  end.

(** ** package breaker *)

(** A [*Breaker]: the configuration fixed by [New], and the address [ptr]
    at which its guarded fields live in the store. *)
Record Breaker : Type := mkBreaker {
  isFailure : option error -> bool;
  maxFailures : Z;
  maxRequests : Z;
  now : W -> Z;
  timeout : Z;
  ptr : positive
}.

Definition defaultMaxFailures : Z := 5.
Definition defaultMaxRequests : Z := 1.
Definition Second : Z := 1000000000.
Definition defaultTimeout : Z := 60 * Second.
Definition defaultIsFailure : option error -> bool := not_nil.

Inductive breaker_option : Type :=
  | WithIsFailure (isFailure : option (option error -> bool))
  | WithMaxHalfOpenRequests (maxRequests : Z)
  | WithMaxFailures (maxFailures : Z)
  | WithNow (now : option (W -> Z))
  | WithTimeout (timeout : Z).

Definition breaker_apply (opt : breaker_option) (b : Breaker) : Breaker :=
  match opt with
  | WithIsFailure f =>
      let f := match f with None => defaultIsFailure | Some f => f end in
      mkBreaker f (maxFailures b) (maxRequests b) (now b) (timeout b) (ptr b)
  | WithMaxHalfOpenRequests n =>
      let n := if n =? 0 then defaultMaxRequests else n in
      mkBreaker (isFailure b) (maxFailures b) n (now b) (timeout b) (ptr b)
  | WithMaxFailures n =>
      let n := if n =? 0 then defaultMaxFailures else n in
      mkBreaker (isFailure b) n (maxRequests b) (now b) (timeout b) (ptr b)
  | WithNow f =>
      let f := match f with None => time_Now | Some f => f end in
      mkBreaker (isFailure b) (maxFailures b) (maxRequests b) f (timeout b)
        (ptr b)
  | WithTimeout d =>
      let d := if d =? 0 then defaultTimeout else d in
      mkBreaker (isFailure b) (maxFailures b) (maxRequests b) (now b) d (ptr b)
  end.

(** [New]. The new struct is allocated at [p]; its guarded fields start as
    the zero value, which is what the store holds at an unused address. *)
Definition breaker_New (p : positive) (opts : list breaker_option) : Breaker :=
  fold_left (fun b opt => breaker_apply opt b) opts
    (mkBreaker defaultIsFailure defaultMaxFailures defaultMaxRequests
       time_Now defaultTimeout p).

(** Reading and writing the guarded fields of [b]. *)
Definition guarded (b : Breaker) (s : Store) : Guarded :=
  default Guarded_zero (breakers s !! ptr b).

Definition set_guarded (b : Breaker) (g : Guarded) (s : Store) : Store :=
  mkStore (world s) (<[ptr b := g]> (breakers s)) (delivered s) (wire s).

(** [b.now()] *)
Definition clock (b : Breaker) : M Z := gets (fun s => now b (world s)).

(** [State.Status], with [t] the value of [s.now()]. *)
Definition State_Status (s : State) (t : Z) : Status :=
  if bool_decide (status s = Open) && (expiresAt s <=? t)
  then HalfOpen
  else status s.

Definition State_failure (s : State) : State :=
  mkState (status s) (expiresAt s) (uint_incr (Failures s)) 0.

Definition State_success (s : State) : State :=
  mkState (status s) (expiresAt s) 0 (uint_incr (Successes s)).

Definition Breaker_State (b : option Breaker) : M State :=
  match b with
  | None => ret State_zero
  | Some b => gets (fun s => state (guarded b s))
  end.

Definition canMakeHalfOpenRequest (b : Breaker) : M bool :=
  g <- gets (guarded b) ;;
  if maxRequests b <=? requests g then ret false
  else
    modify (set_guarded b (mkGuarded (uint_incr (requests g)) (state g))) ;;;
    ret true.

Definition setState (b : Breaker) (st : Status) : M unit :=
  t <- clock b ;;
  let expires := if bool_decide (st = Open) then t + timeout b else 0 in
  modify (set_guarded b (mkGuarded 0 (mkState st expires 0 0))).

Definition shouldOpen (b : Breaker) : M bool :=
  g <- gets (guarded b) ;;
  ret (maxFailures b <=? Failures (state g)).

(** The assignments to [b.state] inside [handleError]. *)
Definition update_state (b : Breaker) (f : State -> State) : M unit :=
  g <- gets (guarded b) ;;
  modify (set_guarded b (mkGuarded (requests g) (f (state g)))).

Definition reset_Failures (s : State) : State :=
  mkState (status s) (expiresAt s) 0 (Successes s).

(** [handleError]; [snapshot] is the state that [Run] read before the
    callback ran. *)
Definition handleError (b : Breaker) (snapshot : State) (err : option error)
    : M unit :=
  let isFailure := not_nil err && isFailure b err in
  if bool_decide (status snapshot = Closed) && negb isFailure
     && (Failures snapshot =? 0)
  then ret tt
  else
    g <- gets (guarded b) ;;
    t <- clock b ;;
    match State_Status (state g) t with
    | Closed =>
        if isFailure then
          update_state b State_failure ;;;
          open <- shouldOpen b ;;
          if open then setState b Open else ret tt
        else update_state b reset_Failures
    | HalfOpen =>
        if isFailure then setState b Open
        else
          update_state b State_success ;;;
          g <- gets (guarded b) ;;
          if Successes (state g) =? maxRequests b
          then setState b Closed
          else ret tt
    | Open => ret tt
    end.

Definition safeRun (cb : CallFn) : M (option error) := recover cb Errorf_v.

Definition Breaker_Run (b : option Breaker) (cb : CallFn) : M (option error) :=
  match b with
  | None => cb
  | Some b =>
      snapshot <- Breaker_State (Some b) ;;
      t <- clock b ;;
      let status := State_Status snapshot t in
      if bool_decide (status = Open) then ret (Some ErrBreakerOpen)
      else
        rejected <- (if bool_decide (status = HalfOpen)
                     then ok <- canMakeHalfOpenRequest b ;; ret (negb ok)
                     else ret false) ;;
        if rejected then ret (Some ErrBreakerOpen)
        else
          err <- safeRun cb ;;
          handleError b snapshot err ;;;
          ret err
  end.

(** ** package errcat: the caller *)

Record Caller : Type := mkCaller {
  dependency : string;
  key : string;
  name : string;
  breaker : option Breaker;
  fallback : option Fallback;
  retrier : option Retrier;
  timer : option Timer
}.

(** The zero value [Caller{}]. *)
Definition Caller_zero : Caller := mkCaller "" "" "" None None None None.

Definition errcat_New (dependency name : string) : Caller :=
  mkCaller dependency (dependency +:+ ":" +:+ name) name None None None None.

Definition Caller_WithBreaker (c : Caller) (b : option Breaker) : Caller :=
  mkCaller (dependency c) (key c) (name c) b (fallback c) (retrier c) (timer c).

Definition Caller_WithFallback (c : Caller) (f : option Fallback) : Caller :=
  mkCaller (dependency c) (key c) (name c) (breaker c) f (retrier c) (timer c).

Definition Caller_WithRetrier (c : Caller) (r : option Retrier) : Caller :=
  mkCaller (dependency c) (key c) (name c) (breaker c) (fallback c) r (timer c).

Definition Caller_WithTimeout (c : Caller) (d : Z) : Caller :=
  mkCaller (dependency c) (key c) (name c) (breaker c) (fallback c) (retrier c)
    (Some (timer_New d)).

(** [Caller.Call]; [race] settles the [select] of the timer. *)
Definition Caller_Call (race : Race) (c : Caller) (cb : CallFn)
    : M (option error) :=
  err <- Timer_Run race (timer c)
           (Breaker_Run (breaker c) (Retrier_Run (retrier c) cb)) ;;
  if Fallback_UseFallback (fallback c) err
  then Fallback_Call (fallback c)
  else ret err.

(** ** package api: the client *)

(** [grpc.ClientConn]: what the collector answers to a request. *)
Record ClientConn : Type := mkClientConn {
  Invoke : pb_RecordCallsRequest -> W -> option error
}.

(** [grpc.Dial]: a connection, or [None] for an error. *)
Variable grpc_Dial : string -> W -> option ClientConn.

(** [pb.APIClient], an interface with the one method [RecordCalls]. *)
Definition APIClient : Type := pb_RecordCallsRequest -> M (option error).

Definition transmit (req : pb_RecordCallsRequest) (s : Store) : Store :=
  mkStore (world s) (breakers s) (delivered s) (wire s ++ [req]).

(** The generated stub [aPIClient.RecordCalls]: the request goes out on
    the wire and the connection's answer comes back. *)
Definition aPIClient_RecordCalls (cc : ClientConn) : APIClient :=
  fun req =>
    err <- gets (fun s => Invoke cc req (world s)) ;;
    modify (transmit req) ;;;
    ret err.

Record client : Type := mkClient {
  api : APIClient;
  conn : option ClientConn
}.

Definition Call_toProto (c : Call) : pb_Call :=
  let err := match Error_ c with Some e => Error e | None => "" end in
  mk_pb_Call (Dependency c) (Duration c) err (Name c) (StartedAt c).

Definition RecordCallsRequest_toProto (r : RecordCallsRequest)
    : pb_RecordCallsRequest :=
  mk_pb_RecordCallsRequest (map Call_toProto (Calls r)) (Environment r)
    (Service r).

Definition client_RecordCalls (c : option client) (req : RecordCallsRequest)
    : M (option error) :=
  match c with
  | None => ret None
  | Some c =>
      if (length (Calls req) =? 0)%nat then ret None
      else api c (RecordCallsRequest_toProto req)
  end.

(** The interface [Client], as the daemon uses it. *)
Record Client : Type := mkClientI {
  RecordCalls : RecordCallsRequest -> M (option error)
}.

(** [*client] implements [Client]. *)
Definition client_Client (c : option client) : Client :=
  mkClientI (client_RecordCalls c).

Definition NewClient (host : string) : M (option Client) :=
  dialled <- gets (fun s => grpc_Dial host (world s)) ;;
  match dialled with
  | None => ret None
  | Some cc =>
      ret (Some (client_Client
                   (Some (mkClient (aPIClient_RecordCalls cc) (Some cc)))))
  end.

(** ** package errcat: the daemon *)

(** [make(chan T, n)]: a channel with room for [chan_cap] values. *)
Record Chan : Type := mkChan { chan_cap : nat }.

(** Whether [ch <- v] goes through without blocking, when [buffered] values
    wait in the channel: a receiver takes the value, or the buffer has
    room for it. *)
Definition Chan_send_ready (ch : Chan) (buffered : nat)
    (receiver_waiting : bool) : bool :=
  receiver_waiting || (buffered <? chan_cap ch)%nat.

Definition bufferSize : nat := 100.
Definition tickerDuration : Z := 15 * Second.

(** A [*Daemon]. Of [addr] only [Host] is used; the context and its cancel
    function appear as the [Cancelled] event of the worker. *)
Record Daemon : Type := mkDaemon {
  addr_Host : string;
  env : string;
  service : string;
  callCh : Chan;
  client_ : option Client;
  registry : gmap string Caller
}.

Inductive optionD : Type :=
  | WithClient (client : option Client)
  | WithEnvironment (env : string)
  | WithServerAddr (host : string)
  | WithService (service : string).

Definition applyD (opt : optionD) (d : Daemon) : Daemon :=
  match opt with
  | WithClient c =>
      mkDaemon (addr_Host d) (env d) (service d) (callCh d) c (registry d)
  | WithEnvironment e =>
      mkDaemon (addr_Host d) e (service d) (callCh d) (client_ d) (registry d)
  | WithServerAddr h =>
      mkDaemon h (env d) (service d) (callCh d) (client_ d) (registry d)
  | WithService sv =>
      mkDaemon (addr_Host d) (env d) sv (callCh d) (client_ d) (registry d)
  end.

Definition NewD (opts : list optionD) : Daemon :=
  fold_left (fun d opt => applyD opt d) opts
    (mkDaemon "" "" "" (mkChan 0) None ∅).

(** [fmt.Sprintf("%q", s)] *)
Variable Sprintf_q : string -> string.

(** [RegisterCaller] returns the key and the error, and the daemon with
    its registry updated. *)
Definition Daemon_RegisterCaller (d : option Daemon) (c : Caller)
    : (string * option error) * option Daemon :=
  match d with
  | None => (("", None), None)
  | Some d =>
      match registry d !! key c with
      | Some _ =>
          ((key c,
            Some (errorString
              ("caller has already been registered with the dependency and name of "
               +:+ Sprintf_q (dependency c) +:+ " and "
               +:+ Sprintf_q (name c)))),
           Some d)
      | None =>
          ((key c, None),
           Some (mkDaemon (addr_Host d) (env d) (service d) (callCh d)
                   (client_ d) (<[key c := c]> (registry d))))
      end
  end.

Definition Daemon_enabled (d : Daemon) : bool :=
  bool_decide (client_ d ≠ None) || bool_decide (addr_Host d ≠ "").

(** The channel as a send meets it: how many records wait in its buffer,
    and whether the worker comes to receive. *)
Record Traffic : Type := mkTraffic {
  pending : nat;
  worker_receives : bool
}.

(** How [Daemon.Call] ends: it returns, with a result or in a panic, or it
    waits at its send on the channel for ever. *)
Inductive Completion (A : Type) : Type :=
  | Returns (r : Result A)
  | Blocks.
Arguments Returns {A} r.
Arguments Blocks {A}.

(** [d.callCh <- call], once the channel takes the record: [delivered]
    lists the records that the channel has taken. *)
Definition deliver (c : Call) (s : Store) : Store :=
  mkStore (world s) (breakers s) (delivered s ++ [c]) (wire s).

(** [Daemon.Call]. The deferred function recovers, completes the record
    and, on an enabled daemon, sends it on [d.callCh]: [Call] returns
    once the channel takes the record, and never when it does not. *)
Definition Daemon_Call (race : Race) (t : Traffic) (d : option Daemon)
    (key : string) (cb : CallFn)
    : Store -> Completion (option error) * Store :=
  match d with
  | None => fun s => (Returns (fst (cb s)), snd (cb s))
  | Some d =>
      let caller := default Caller_zero (registry d !! key) in
      let body : M (option error * Call) :=
        started <- gets (fun s => time_Now (world s)) ;;
        let call := mkCall (dependency caller) 0 None (name caller) started in
        err <- recover (Caller_Call race caller cb) Errorf_v ;;
        finished <- gets (fun s => time_Now (world s)) ;;
        ret (err,
             mkCall (Dependency call) (finished - StartedAt call) err
               (Name call) (StartedAt call)) in
      fun s =>
        match body s with
        | (Val (err, call), s1) =>
            if Daemon_enabled d then
              if Chan_send_ready (callCh d) (pending t) (worker_receives t)
              then (Returns (Val err), deliver call s1)
              else (Blocks, s1)
            else (Returns (Val err), s1)
        | (Panic v, s1) => (Returns (Panic v), s1)
        end
  end.

(** Whether the send of [Call] on [d] goes through: the daemon is not
    enabled and sends nothing, or the channel takes the record. *)
Definition send_completes (d : Daemon) (t : Traffic) : bool :=
  negb (Daemon_enabled d)
  || Chan_send_ready (callCh d) (pending t) (worker_receives t).

Definition Daemon_safeClient (d : Daemon) : M (option Client * Daemon) :=
  match client_ d with
  | Some c => ret (Some c, d)
  | None =>
      c <- NewClient (addr_Host d) ;;
      ret (c, mkDaemon (addr_Host d) (env d) (service d) (callCh d) c
                (registry d))
  end.

(** [send] returns the daemon, whose [client] it may have filled in. *)
Definition Daemon_send (d : Daemon) (calls : list Call) : M Daemon :=
  if (length calls =? 0)%nat then ret d
  else
    cd <- Daemon_safeClient d ;;
    match fst cd with
    | None => ret (snd cd)
    | Some c =>
        _ <- RecordCalls c (mkRecordCallsRequest calls (env d) (service d)) ;;
        ret (snd cd)
    end.

(** The three cases of the worker's [select]. *)
Inductive Event : Type :=
  | Received (c : Call)
  | Tick
  | Cancelled.

(** Where the worker stands once the events are used up: back at the
    [select] with its batch, or returned. *)
Inductive Worker : Type :=
  | Waiting (d : Daemon) (calls : list Call)
  | Returned (d : Daemon).

Fixpoint consume_loop (evs : list Event) (d : Daemon) (calls : list Call)
    : M Worker :=
  match evs with
  | [] => ret (Waiting d calls)
  | Received c :: evs =>
      let calls := calls ++ [c] in
      if (length calls =? bufferSize)%nat then
        d <- Daemon_send d calls ;;
        consume_loop evs d []
      else consume_loop evs d calls
  | Tick :: evs =>
      d <- Daemon_send d calls ;;
      consume_loop evs d []
  | Cancelled :: _ =>
      d <- Daemon_send d calls ;;
      ret (Returned d)
  end.

Definition Daemon_consumeCalls (d : Daemon) (evs : list Event) : M Worker :=
  if negb (Daemon_enabled d) then ret (Returned d)
  else consume_loop evs d [].

(** ** Observing runs *)

(** [n] invocations of [cb] in a row: their outcomes, oldest first, and the
    store they leave. *)
Fixpoint invoke (n : nat) (cb : CallFn) (s : Store)
    : list (Result (option error)) * Store :=
  match n with
  | O => ([], s)
  | S n' =>
      let (o, s1) := cb s in
      let (os, s2) := invoke n' cb s1 in
      (o :: os, s2)
  end.

(** The status that an observer of [b] sees at store [s]:
    [b.State().Status()]. *)
Definition observed (b : Breaker) (s : Store) : Status :=
  State_Status (state (guarded b s)) (now b (world s)).

(** The error that a recovery barrier makes of an outcome. *)
Definition outcome_err (o : Result (option error)) : option error :=
  match o with
  | Val err => err
  | Panic v => Errorf_v v
  end.

(** What [Run] does once the call is let in: run the callback behind the
    barrier, account for its outcome, return its error. *)
Definition accounted (b : Breaker) (snapshot : State) (cb : CallFn)
    : M (option error) :=
  err <- safeRun cb ;;
  handleError b snapshot err ;;;
  ret err.

(** The store after a half-open slot has been taken. *)
Definition slot_taken (b : Breaker) (s : Store) : Store :=
  set_guarded b
    (mkGuarded (uint_incr (requests (guarded b s))) (state (guarded b s))) s.

(** What [handleError] counts as a failure. *)
Definition counts_as_failure (b : Breaker) (err : option error) : bool :=
  not_nil err && isFailure b err.

(** Whether [handleError] makes a transition, that is calls [setState]. *)
Definition transitions (b : Breaker) (snapshot : State) (err : option error)
    (s : Store) : bool :=
  if bool_decide (status snapshot = Closed) && negb (counts_as_failure b err)
     && (Failures snapshot =? 0)
  then false
  else
    match observed b s with
    | Closed =>
        counts_as_failure b err
        && (maxFailures b <=? uint_incr (Failures (state (guarded b s))))
    | HalfOpen =>
        counts_as_failure b err
        || (uint_incr (Successes (state (guarded b s))) =? maxRequests b)
    | Open => false
    end.

(** The steps that calls running side by side take on a breaker, one lock
    section at a time: a call that observed [HalfOpen] asks for a slot
    ([Attempt]), a call accounts for its outcome ([Complete], with the
    snapshot it had read), or something goes on elsewhere ([Elsewhere]: the
    callbacks, the clock, other breakers). *)
Inductive WindowEvent : Type :=
  | Attempt
  | Complete (snapshot : State) (err : option error)
  | Elsewhere (f : Store -> Store).

(** The number of slots granted in each stretch between two transitions,
    oldest stretch first; [n] is the number granted so far in the current
    one. *)
Fixpoint windows (b : Breaker) (evs : list WindowEvent) (s : Store) (n : nat)
    : list nat :=
  match evs with
  | [] => [n]
  | Attempt :: evs =>
      let (o, s1) := canMakeHalfOpenRequest b s in
      windows b evs s1 (match o with Val true => S n | _ => n end)
  | Complete snapshot err :: evs =>
      let s1 := snd (handleError b snapshot err s) in
      if transitions b snapshot err s
      then n :: windows b evs s1 O
      else windows b evs s1 n
  | Elsewhere f :: evs => windows b evs (f s) n
  end.

(** What goes on elsewhere leaves the guarded fields of [b] alone. *)
Definition elsewhere (b : Breaker) (ev : WindowEvent) : Prop :=
  match ev with
  | Elsewhere f => forall s, guarded b (f s) = guarded b s
  | _ => True
  end.

(** "Returns a non-nil error whose message is [msg]". *)
Definition returns_error (msg : string) (o : Result (option error)) : Prop :=
  exists e : error, o = Val (Some e) /\ Error e = msg.

(** "[Daemon.Call] returns a non-nil error whose message is [msg]". *)
Definition ends_with_error (msg : string) (c : Completion (option error))
    : Prop :=
  exists e : error, c = Returns (Val (Some e)) /\ Error e = msg.

(** The composition of [Caller.Call] without the fallback. *)
Definition composed (race : Race) (c : Caller) (cb : CallFn)
    : M (option error) :=
  Timer_Run race (timer c)
    (Breaker_Run (breaker c) (Retrier_Run (retrier c) cb)).

(** [Caller.Call] as the specification words it: the fallback replaces the
    composed result when that result is a non-nil error and [UseFallback]
    accepts it. *)
Definition Caller_Call_spec (race : Race) (c : Caller) (cb : CallFn)
    : M (option error) :=
  err <- composed race c cb ;;
  if not_nil err && Fallback_UseFallback (fallback c) err
  then Fallback_Call (fallback c)
  else ret err.

(** The daemon after [RegisterCaller] has been called for each of [cs]. *)
Definition register_all (d : Daemon) (cs : list Caller) : Daemon :=
  fold_left
    (fun d c => default d (snd (Daemon_RegisterCaller (Some d) c))) cs d.

(** The values of type [uint]. *)
Definition is_uint (x : Z) : Prop := 0 <= x < 2 ^ 64.

(** The limits of a breaker made by [New]: positive values of type
    [uint]. *)
Definition Breaker_ok (b : Breaker) : Prop :=
  1 <= maxFailures b < 2 ^ 64 /\ 1 <= maxRequests b < 2 ^ 64.

(** What then holds of its guarded fields at all times: the in-flight
    counter is within the limit, [HalfOpen] is never stored, the failure
    count of a closed breaker is below [maxFailures], the success count of
    an open one below [maxRequests]. *)
Definition Guarded_ok (b : Breaker) (g : Guarded) : Prop :=
  0 <= requests g <= maxRequests b /\
  status (state g) <> HalfOpen /\
  (status (state g) = Closed -> 0 <= Failures (state g) < maxFailures b) /\
  (status (state g) = Open -> 0 <= Successes (state g) < maxRequests b).

(** The options that pass values of type [uint]. *)
Definition breaker_option_ok (opt : breaker_option) : Prop :=
  match opt with
  | WithMaxHalfOpenRequests n => is_uint n
  | WithMaxFailures n => is_uint n
  | _ => True
  end.

(** An outcome after which the retrier goes round again: a non-nil error
    that [isRetriable] accepts. *)
Definition retriable (r : Retrier) (o : Result (option error)) : bool :=
  match o with
  | Val (Some e) => isRetriable r (Some e)
  | _ => false
  end.

(** ** package breaker: the registry *)

(** A [Breaker] held by value, as the map of the registry holds it: the
    struct itself, guarded fields included, not a pointer to it. In the
    zero value the two function fields are nil. *)
Record BreakerValue : Type := mkBreakerValue {
  v_isFailure : option (option error -> bool);
  v_maxFailures : Z;
  v_maxRequests : Z;
  v_now : option (W -> Z);
  v_timeout : Z;
  v_requests : Z;
  v_state : State
}.

Definition BreakerValue_zero : BreakerValue :=
  mkBreakerValue None 0 0 None 0 0 State_zero.

Definition NewRegistry : gmap string BreakerValue := ∅.

(** [Register] returns the error, and the registry as it leaves it. *)
Definition Registry_Register (r : gmap string BreakerValue) (name : string)
    (b : BreakerValue) : option error * gmap string BreakerValue :=
  match r !! name with
  | Some _ =>
      (Some (errorString
               ("breaker already registered with the name of "
                +:+ Sprintf_q name)),
       r)
  | None => (None, <[name := b]> r)
  end.

Definition Registry_Get (r : gmap string BreakerValue) (name : string)
    : BreakerValue * bool :=
  match r !! name with
  | Some b => (b, true)
  | None => (BreakerValue_zero, false)
  end.

(** The registry after [Register] has been called for each entry of [l],
    in order, the errors being ignored. *)
Definition Registry_register_all (r : gmap string BreakerValue)
    (l : list (string * BreakerValue)) : gmap string BreakerValue :=
  fold_left (fun r e => snd (Registry_Register r (fst e) (snd e))) l r.

(** ** Observing more runs *)

(** What a callback may be known to do, as seen from the breaker [b]:
    leave the guarded fields of [b] alone, always or never end in what [b]
    counts as a failure, never turn the clock of [b] back. *)
Definition leaves_alone (b : Breaker) (cb : CallFn) : Prop :=
  forall s, guarded b (snd (cb s)) = guarded b s.

Definition always_fails (b : Breaker) (cb : CallFn) : Prop :=
  forall s, counts_as_failure b (outcome_err (fst (cb s))) = true.

Definition never_fails (b : Breaker) (cb : CallFn) : Prop :=
  forall s, counts_as_failure b (outcome_err (fst (cb s))) = false.

Definition clock_forward (b : Breaker) (cb : CallFn) : Prop :=
  forall s, now b (world s) <= now b (world (snd (cb s))).

(** Failures are kept only while closed, successes only while open. *)
Definition Counters_exclusive (g : Guarded) : Prop :=
  (status (state g) = Closed -> Successes (state g) = 0) /\
  (status (state g) = Open -> Failures (state g) = 0).

(** The breaker during recovery: stored open and expired, with as many
    slots taken as successes counted. *)
Definition recovering (b : Breaker) (c : Z) (s : Store) : Prop :=
  status (state (guarded b s)) = Open /\
  expiresAt (state (guarded b s)) <= now b (world s) /\
  requests (guarded b s) = c /\
  Successes (state (guarded b s)) = c.

(** The last value that a list of options gives for one setting. *)
Definition chosen {A O : Type} (sel : O -> option A) (opts : list O)
    : option A :=
  last (omap sel opts).

Definition sel_isFailure (opt : breaker_option)
    : option (option (option error -> bool)) :=
  match opt with WithIsFailure f => Some f | _ => None end.

Definition sel_maxRequests (opt : breaker_option) : option Z :=
  match opt with WithMaxHalfOpenRequests n => Some n | _ => None end.

Definition sel_maxFailures (opt : breaker_option) : option Z :=
  match opt with WithMaxFailures n => Some n | _ => None end.

Definition sel_now (opt : breaker_option) : option (option (W -> Z)) :=
  match opt with WithNow f => Some f | _ => None end.

Definition sel_timeout (opt : breaker_option) : option Z :=
  match opt with WithTimeout d => Some d | _ => None end.

(** A setting of type [uint] or [Duration]: zero stands for the default. *)
Definition or_default (d : Z) (o : option Z) : Z :=
  match o with
  | Some n => if n =? 0 then d else n
  | None => d
  end.

(** A setting that is a function: nil stands for the default. *)
Definition or_default_fn {A : Type} (d : A) (o : option (option A)) : A :=
  match o with
  | Some (Some f) => f
  | _ => d
  end.

(** The options of the retrier that pass values of type [uint]. *)
Definition retrier_option_ok (opt : retrier_option) : Prop :=
  match opt with
  | WithMaxAttempts n => is_uint n
  | WithIsRetriable _ => True
  end.

(** A timer that runs the callback in the calling goroutine. *)
Definition synchronous (t : option Timer) : bool :=
  match t with
  | None => true
  | Some t => duration t <=? 0
  end.

(** A string without a colon. *)
Definition colon : Ascii.ascii := Ascii.ascii_of_nat 58.

Fixpoint colon_free (s : string) : bool :=
  match s with
  | EmptyString => true
  | String a s' => negb (Ascii.eqb a colon) && colon_free s'
  end.

(** The records that the worker takes from the channel before it is
    cancelled. *)
Fixpoint taken (evs : list Event) : list Call :=
  match evs with
  | [] => []
  | Received c :: evs => c :: taken evs
  | Tick :: evs => taken evs
  | Cancelled :: _ => []
  end.

(** The batch that the worker still holds, and its daemon. *)
Definition held (w : Worker) : list Call :=
  match w with
  | Waiting _ calls => calls
  | Returned _ => []
  end.

Definition worker_daemon (w : Worker) : Daemon :=
  match w with
  | Waiting d _ => d
  | Returned d => d
  end.

(** The store after the requests [reqs] have gone out on the wire. *)
Definition transmitted (reqs : list pb_RecordCallsRequest) (s : Store)
    : Store :=
  mkStore (world s) (breakers s) (delivered s) (wire s ++ reqs).

(** A request as the worker of [d] makes them: the daemon's environment
    and service, and between one and [bufferSize] records. *)
Definition request_ok (d : Daemon) (q : pb_RecordCallsRequest) : Prop :=
  pb_Env q = env d /\ pb_Service q = service d /\
  (1 <= length (pb_Calls q) <= bufferSize)%nat.

Definition sel_client (opt : optionD) : option (option Client) :=
  match opt with WithClient c => Some c | _ => None end.

Definition sel_host (opt : optionD) : option string :=
  match opt with WithServerAddr h => Some h | _ => None end.

Definition sel_env (opt : optionD) : option string :=
  match opt with WithEnvironment e => Some e | _ => None end.

Definition sel_service (opt : optionD) : option string :=
  match opt with WithService sv => Some sv | _ => None end.

End Errcat.

Arguments Val {PanicValue A} a.
Arguments Panic {PanicValue A} v.
Arguments Returns {PanicValue A} r.
Arguments Blocks {PanicValue A}.

Notation "x <- m ;; k" := (bind m (fun x => k))
  (at level 100, m at next level, right associativity).
Notation "m ;;; k" := (bind m (fun _ => k))
  (at level 100, right associativity).

(** ** The worlds and callbacks of the repository's tests *)

(** The variables the test closures capture: the invocation counters and
    the clock that the tests move by hand. *)
Record TestWorld : Type := mkTestWorld {
  counts : nat;
  fallbacks : nat;
  clock_now : Z
}.

Definition TestStore : Type := Store (W := TestWorld).
Definition TestFn : Type := CallFn (W := TestWorld) (PanicValue := string).

Definition store0 : TestStore := mkStore (mkTestWorld 0 0 0) ∅ [] [].

(** [counts++] *)
Definition bump (s : TestStore) : TestStore :=
  mkStore
    (mkTestWorld (S (counts (world s))) (fallbacks (world s))
       (clock_now (world s)))
    (breakers s) (delivered s) (wire s).

(** [fallbacks++] *)
Definition bump_fallbacks (s : TestStore) : TestStore :=
  mkStore
    (mkTestWorld (counts (world s)) (S (fallbacks (world s)))
       (clock_now (world s)))
    (breakers s) (delivered s) (wire s).

(** [now = now.Add(d)] *)
Definition advance (d : Z) (s : TestStore) : TestStore :=
  mkStore
    (mkTestWorld (counts (world s)) (fallbacks (world s))
       (clock_now (world s) + d))
    (breakers s) (delivered s) (wire s).

(** [func() error { counts++; return nil }] *)
Definition cb_nil : TestFn := fun s => (Val None, bump s).

(** [func() error { counts++; return fmt.Errorf("oops") }] *)
Definition cb_oops : TestFn :=
  fun s => (Val (Some (errorString "oops")), bump s).

(** The callback of [TestWithOverrides] in the retrier's tests: the second
    invocation returns "perm err", the others "oops". *)
Definition cb_perm_second : TestFn :=
  fun s =>
    let s := bump s in
    if (counts (world s) =? 2)%nat
    then (Val (Some (errorString "perm err")), s)
    else (Val (Some (errorString "oops")), s).

(** [func() error { panic("oops") }] *)
Definition cb_panic : TestFn := fun s => (Panic "oops", s).

(** [func() error { fallbacks++; return nil }] *)
Definition fb_nil : TestFn := fun s => (Val None, bump_fallbacks s).

(** [func(err error) bool { return err == nil || err.Error() != "perm err" }] *)
Definition not_perm (err : option error) : bool :=
  match err with
  | None => true
  | Some e => negb (String.eqb (Error e) "perm err")
  end.

(** The retrier of [TestWithOverrides]: three attempts, "perm err" is final. *)
Definition retrier_overrides : Retrier :=
  retrier_New [WithIsRetriable (Some not_perm); WithMaxAttempts 3].

(** The breaker of [TestWithDefaults]: the default options and the test's
    clock. *)
Definition breaker_defaults : Breaker :=
  breaker_New clock_now 1 [WithNow (Some clock_now)].

Definition run_defaults (cb : TestFn) : TestFn :=
  Breaker_Run (fun v : string => v) (Some breaker_defaults) cb.

(** The store after one failure, after the five failures that open the
    breaker, and after the test has then moved its clock by the timeout. *)
Definition store_streak : TestStore := snd (run_defaults cb_oops store0).
Definition store_open : TestStore :=
  snd (invoke 5 (run_defaults cb_oops) store0).
Definition store_half_open : TestStore := advance (60 * Second) store_open.

(** The same with the one half-open slot taken by a call in flight. *)
Definition store_saturated : TestStore :=
  slot_taken breaker_defaults store_half_open.

(** The caller of [TestCallerWithOptions]: default breaker, a fallback that
    returns [nil], three attempts, a timeout of one second. *)
Definition caller_options : Caller :=
  Caller_WithTimeout
    (Caller_WithRetrier
       (Caller_WithFallback
          (Caller_WithBreaker (errcat_New "google" "clients.Google.Search")
             (Some (breaker_New clock_now 1 [])))
          (Some (fallback_New (Some fb_nil) [])))
       (Some (retrier_New [WithMaxAttempts 3])))
    (1 * Second).

(** A daemon with a collector address and that caller registered. *)
Definition daemon_options : Daemon :=
  register_all (fun x : string => x)
    (NewD [WithServerAddr "localhost:8000"; WithEnvironment "dev"])
    [caller_options].

(** The channel with the worker at its receive, and with no worker. *)
Definition worker_waiting : Traffic := mkTraffic 0 true.
Definition no_worker : Traffic := mkTraffic 0 false.

Definition daemon_call (t : Traffic) (d : option Daemon) (key : string)
    (cb : TestFn) : TestStore -> Completion (option error) * TestStore :=
  Daemon_Call (fun v : string => v) clock_now DoneFirst t d key cb.

(** A fallback whose predicate accepts every result, [nil] included, and
    whose operation fails. *)
Definition fallback_always : Fallback (W := TestWorld) (PanicValue := string) :=
  fallback_New (Some (ret (Some (errorString "fallback failed"))))
    [WithUseFallback (Some (fun _ => true))].

Definition caller_always : Caller :=
  Caller_WithFallback (errcat_New "mysql" "users.GetUser")
    (Some fallback_always).

(** A connection whose collector accepts everything, the client on it,
    and a daemon with that client. *)
Definition conn_ok : ClientConn (W := TestWorld) :=
  mkClientConn (fun _ _ => None).

Definition dial_ok (host : string) (w : TestWorld) : option ClientConn :=
  Some conn_ok.

Definition client_ok : Client (W := TestWorld) (PanicValue := string) :=
  client_Client
    (Some (mkClient (aPIClient_RecordCalls conn_ok) (Some conn_ok))).

Definition daemon_client : Daemon :=
  NewD [WithClient (Some client_ok); WithEnvironment "dev";
        WithService "orders"].

(** The record of a call of "google.Search" that failed with "oops". *)
Definition call_oops : Call :=
  mkCall "google" (375 * 1000000) (Some (errorString "oops")) "google.Search" 0.

(** A callback during which the breaker trips: five failing calls go
    through the same breaker, then the callback succeeds. *)
Definition cb_trip : TestFn :=
  fun s => (Val None, snd (invoke 5 (run_defaults cb_oops) s)).

(** A callback during which a failure is counted: one failing call goes
    through the same breaker, then the callback succeeds. *)
Definition cb_streak : TestFn :=
  fun s => (Val None, snd (run_defaults cb_oops s)).

(** A callback during which the breaker trips and its timeout passes. *)
Definition cb_trip_wait : TestFn :=
  fun s =>
    (Val None, advance (60 * Second) (snd (invoke 5 (run_defaults cb_oops) s))).

(** A caller with the default breaker and the retrier of three attempts. *)
Definition caller_retried : Caller (W := TestWorld) (PanicValue := string) :=
  Caller_WithRetrier
    (Caller_WithBreaker (errcat_New "google" "clients.Google.Search")
       (Some breaker_defaults))
    (Some retrier_overrides).

(** The same with a fallback that returns [nil]. *)
Definition caller_guarded : Caller (W := TestWorld) (PanicValue := string) :=
  Caller_WithFallback caller_retried (Some (fallback_New (Some fb_nil) [])).

(** A collector that cannot be reached, and a daemon that has its
    address. *)
Definition dial_fails (host : string) (w : TestWorld)
    : option (ClientConn (W := TestWorld)) :=
  None.

Definition daemon_unreachable
    : Daemon (W := TestWorld) (PanicValue := string) :=
  NewD [WithServerAddr "localhost:8000"].

(** Two breakers held by value, with different limits. *)
Definition breaker_value_five : BreakerValue (W := TestWorld) :=
  mkBreakerValue (Some not_nil) 5 1 (Some clock_now) (60 * Second) 0
    State_zero.

Definition breaker_value_two : BreakerValue (W := TestWorld) :=
  mkBreakerValue (Some not_nil) 2 1 (Some clock_now) (60 * Second) 0
    State_zero.

(** * Properties *)

(** ** The retrier *)

Section Retrier_properties.

Context {W : Type} {PanicValue : Type}.
Variable r : Retrier.
Variable cb : CallFn (W := W) (PanicValue := PanicValue).

Local Abbreviation outcome :=
  (Result (PanicValue := PanicValue) (option error)).

Lemma invoke_S (n : nat) (s : Store) :
  invoke (S n) cb s =
  (fst (cb s) :: fst (invoke n cb (snd (cb s))),
   snd (invoke n cb (snd (cb s)))).
Proof.
  simpl. destruct (cb s) as [o s1]. simpl.
  destruct (invoke n cb s1) as [os s2]. reflexivity.
Qed.

Lemma invoke_length (n : nat) (s : Store) : length (fst (invoke n cb s)) = n.
Proof.
  revert s. induction n as [|n IH]; intros s; [reflexivity|].
  rewrite invoke_S. simpl. by rewrite IH.
Qed.

Lemma last_cons_default (o d : outcome) (os : list outcome) :
  default d (last (o :: os)) = default o (last os).
Proof. rewrite last_cons. destruct (last os); reflexivity. Qed.

(** The loop stops at the first outcome that is not a retriable error. *)
Lemma Retrier_loop_stops (n k : nat) (s s' : Store) (err : option error)
    (os : list outcome) (o : outcome) :
  (k <= n)%nat ->
  invoke k cb s = (os ++ [o], s') ->
  Forall (fun o => retriable r o = true) os ->
  retriable r o = false ->
  Retrier_loop r n cb err s = (o, s').
Proof.
  revert n k s err.
  induction os as [|o1 os IH]; intros n k s err Hk Hinv Hall Ho.
  - destruct k as [|k]; [discriminate|].
    rewrite invoke_S in Hinv. simpl in Hinv.
    assert (k = 0%nat) as ->.
    { pose proof (invoke_length k (snd (cb s))) as Hl.
      injection Hinv as _ Hos _. rewrite Hos in Hl. simpl in Hl. lia. }
    simpl in Hinv. injection Hinv as Ho1 Hs'.
    destruct n as [|n]; [lia|].
    simpl. unfold bind. destruct (cb s) as [o' s1]. simpl in *. subst.
    destruct o as [[e|]|v]; simpl in *; try reflexivity.
    rewrite Ho. reflexivity.
  - destruct k as [|k]; [discriminate|].
    rewrite invoke_S in Hinv. simpl in Hinv. injection Hinv as Ho1 Hos Hs'.
    destruct n as [|n]; [lia|].
    inversion Hall as [|? ? Hr Hall']; subst.
    simpl. unfold bind. destruct (cb s) as [o' s1] eqn:Hcb. simpl in *.
    destruct o' as [[e|]|v]; simpl in Hr; try discriminate.
    simpl. rewrite Hr. simpl.
    apply (IH n k); [lia | | assumption | assumption].
    destruct (invoke k cb s1) as [os' s2]. simpl in *. by subst.
Qed.

(** When every outcome is a retriable error the loop uses up its budget
    and returns the last of them. *)
Lemma Retrier_loop_exhausts (n : nat) (s s' : Store) (err : option error)
    (os : list outcome) :
  invoke n cb s = (os, s') ->
  Forall (fun o => retriable r o = true) os ->
  Retrier_loop r n cb err s = (default (Val err) (last os), s').
Proof.
  revert s err os. induction n as [|n IH]; intros s err os Hinv Hall.
  - simpl in Hinv. injection Hinv as <- <-. reflexivity.
  - rewrite invoke_S in Hinv. injection Hinv as <- <-.
    inversion Hall as [|? ? Hr Hall']; subst.
    simpl. unfold bind. destruct (cb s) as [o' s1] eqn:Hcb. simpl in *.
    destruct o' as [[e|]|v]; simpl in Hr; try discriminate.
    simpl. rewrite Hr. simpl.
    rewrite last_cons_default.
    apply IH; [|assumption].
    by destruct (invoke n cb s1).
Qed.

Lemma retriable_continues (e : option error) :
  negb (not_nil e) || negb (isRetriable r e) = false ->
  retriable r (Val e : outcome) = true.
Proof.
  destruct e as [x|]; simpl; [|discriminate].
  by destruct (isRetriable r (Some x)).
Qed.

Lemma retriable_stops (e : option error) :
  negb (not_nil e) || negb (isRetriable r e) = true ->
  retriable r (Val e : outcome) = false.
Proof.
  destruct e as [x|]; simpl; [|reflexivity].
  by destruct (isRetriable r (Some x)).
Qed.

(** Whatever [cb] does, the loop is some number [k <= n] of invocations in
    a row and returns the outcome of the last one; all the outcomes before
    the last are retriable errors, and when the budget is not used up the
    last one is not. *)
Lemma Retrier_loop_bound (n : nat) (s : Store) (err : option error) :
  exists (k : nat) (os : list outcome),
    (k <= n)%nat /\
    invoke k cb s = (os, snd (Retrier_loop r n cb err s)) /\
    fst (Retrier_loop r n cb err s) = default (Val err) (last os) /\
    Forall (fun o => retriable r o = true) (take (k - 1) os) /\
    (n = 0%nat \/ (1 <= k)%nat) /\
    ((k < n)%nat -> exists o, last os = Some o /\ retriable r o = false).
Proof.
  revert s err. induction n as [|n IH]; intros s err.
  - exists 0%nat, []. simpl. split_and!; auto. lia.
  - simpl. unfold bind. destruct (cb s) as [o s1] eqn:Hcb.
    destruct o as [e|v].
    + destruct (negb (not_nil e) || negb (isRetriable r e)) eqn:Hstop.
      * exists 1%nat, [Val e]. simpl. rewrite Hcb.
        split_and!; auto; [lia|]. intros _. exists (Val e).
        split; [reflexivity|]. by apply retriable_stops.
      * destruct (IH s1 e) as (k & os & Hk & Hinv & Hfst & Hall & Hpos & Hlast).
        exists (S k), (Val e :: os). split; [lia|].
        rewrite invoke_S, Hcb. simpl. rewrite Hinv. simpl.
        split; [reflexivity|]. split; [by rewrite last_cons_default|].
        split; [|split; [right; lia|]].
        -- replace (S k - 1)%nat with k by lia.
           destruct k as [|k]; [constructor|].
           replace (S k - 1)%nat with k in Hall by lia.
           simpl. constructor; [by apply retriable_continues|assumption].
        -- intros Hlt. destruct (Hlast ltac:(lia)) as (o & Ho & Hr).
           exists o. split; [|assumption]. rewrite last_cons. by rewrite Ho.
    + exists 1%nat, [Panic v]. simpl. rewrite Hcb.
      split_and!; auto; [lia|]. intros _. by exists (Panic v).
Qed.

(** C7. The retrier's algorithm. For a retrier [r] with a non-nil handle and
    any callback, [Run] is at most [maxAttempts] invocations in a row and
    returns the outcome of the last one, every outcome before the last being
    a retriable error and the last one, if the budget is not used up, not
    being one; when the first [nil] result comes
    at attempt [k <= maxAttempts], [Run] returns [nil] after exactly [k]
    invocations; when the first error that [isRetriable] rejects comes at
    attempt [k], [Run] returns it after exactly [k] invocations; and when
    all [maxAttempts] invocations return retriable errors, [Run] returns the
    last error after exactly [maxAttempts] invocations. *)
Theorem C7_retrier_algorithm (s : Store) :
  let max := Z.to_nat (maxAttempts r) in
  (exists (k : nat) (os : list outcome),
      (k <= max)%nat /\
      invoke k cb s = (os, snd (Retrier_Run (Some r) cb s)) /\
      fst (Retrier_Run (Some r) cb s) = default (Val None) (last os) /\
      Forall (fun o => retriable r o = true) (take (k - 1) os) /\
      (max = 0%nat \/ (1 <= k)%nat) /\
      ((k < max)%nat ->
       exists o, last os = Some o /\ retriable r o = false)) /\
  (forall (k : nat) (os : list outcome) (s' : Store),
      (k <= max)%nat ->
      invoke k cb s = (os ++ [Val None], s') ->
      Forall (fun o => retriable r o = true) os ->
      Retrier_Run (Some r) cb s = (Val None, s')) /\
  (forall (k : nat) (os : list outcome) (e : error) (s' : Store),
      (k <= max)%nat ->
      invoke k cb s = (os ++ [Val (Some e)], s') ->
      Forall (fun o => retriable r o = true) os ->
      isRetriable r (Some e) = false ->
      Retrier_Run (Some r) cb s = (Val (Some e), s')) /\
  (forall (os : list outcome) (e : error) (s' : Store),
      invoke max cb s = (os ++ [Val (Some e)], s') ->
      Forall (fun o => retriable r o = true) (os ++ [Val (Some e)]) ->
      Retrier_Run (Some r) cb s = (Val (Some e), s')).
Proof.
  intros max. unfold Retrier_Run. fold max. repeat split.
  - apply Retrier_loop_bound.
  - intros k os s' Hk Hinv Hall.
    by apply (Retrier_loop_stops max k s s' None os (Val None)).
  - intros k os e s' Hk Hinv Hall He.
    by apply (Retrier_loop_stops max k s s' None os (Val (Some e))).
  - intros os e s' Hinv Hall.
    rewrite (Retrier_loop_exhausts max s s' None _ Hinv Hall).
    by rewrite last_snoc.
Qed.

End Retrier_properties.

(** C7 on the runs of the retrier's tests: success at the first attempt
    (one invocation), "perm err" at the second (two invocations), and
    "oops" three times (three invocations). *)
Lemma C7_retrier_algorithm_witness :
  Retrier_Run (Some retrier_overrides) cb_nil store0
    = (Val None, bump store0) /\
  Retrier_Run (Some retrier_overrides) cb_perm_second store0
    = (Val (Some (errorString "perm err")), bump (bump store0)) /\
  Retrier_Run (Some retrier_overrides) cb_oops store0
    = (Val (Some (errorString "oops")), bump (bump (bump store0))).
Proof.
  split; [|split].
  - destruct (C7_retrier_algorithm retrier_overrides cb_nil store0)
      as (_ & H & _ & _).
    apply (H 1%nat []); [vm_compute; lia | reflexivity | constructor].
  - destruct (C7_retrier_algorithm retrier_overrides cb_perm_second store0)
      as (_ & _ & H & _).
    apply (H 2%nat [Val (Some (errorString "oops"))]);
      [vm_compute; lia | reflexivity | repeat constructor | reflexivity].
  - destruct (C7_retrier_algorithm retrier_overrides cb_oops store0)
      as (_ & _ & _ & H).
    apply (H [Val (Some (errorString "oops"));
              Val (Some (errorString "oops"))]);
      [reflexivity | repeat constructor].
Defined.

(** ** The breaker *)

Section Breaker_properties.

Context {W : Type} {PanicValue : Type}.
Variable Sprint : PanicValue -> string.
Variable b : Breaker (W := W).

Local Abbreviation CB := (CallFn (W := W) (PanicValue := PanicValue)).
Local Abbreviation St := (Store (W := W)).

Lemma guarded_set_guarded (g : Guarded) (s : St) :
  guarded b (set_guarded b g s) = g.
Proof. unfold guarded, set_guarded. simpl. by rewrite lookup_insert_eq. Qed.

Lemma set_guarded_twice (g1 g2 : Guarded) (s : St) :
  set_guarded b g2 (set_guarded b g1 s) = set_guarded b g2 s.
Proof. unfold set_guarded. simpl. by rewrite insert_insert_eq. Qed.

Lemma observed_Closed (s : St) :
  observed b s = Closed <-> status (state (guarded b s)) = Closed.
Proof.
  unfold observed, State_Status.
  destruct (status (state (guarded b s))); simpl;
    try destruct (_ <=? _); split; congruence.
Qed.

Lemma observed_Open (s : St) :
  observed b s = Open <->
  status (state (guarded b s)) = Open /\
  now b (world s) < expiresAt (state (guarded b s)).
Proof.
  unfold observed, State_Status.
  destruct (status (state (guarded b s))); simpl;
    try (split; [congruence | intros [? _]; congruence]).
  destruct (Z.leb_spec (expiresAt (state (guarded b s))) (now b (world s)));
    split; try congruence; try (intros [_ ?]; lia); auto.
Qed.

(** A callback that leaves the state of the breaker alone leaves a closed
    breaker closed and, unless it turns the clock back, a half-open one
    half-open. *)
Lemma observed_Closed_kept (s s1 : St) :
  state (guarded b s1) = state (guarded b s) ->
  observed b s = Closed ->
  observed b s1 = Closed.
Proof. rewrite !observed_Closed. by intros ->. Qed.

Lemma observed_HalfOpen_kept (s s1 : St) :
  state (guarded b s1) = state (guarded b s) ->
  now b (world s) <= now b (world s1) ->
  observed b s = HalfOpen ->
  observed b s1 = HalfOpen.
Proof.
  unfold observed, State_Status. intros -> Hclock.
  destruct (status (state (guarded b s))); simpl; try done.
  destruct (Z.leb_spec (expiresAt (state (guarded b s))) (now b (world s)));
    [|done].
  destruct (Z.leb_spec (expiresAt (state (guarded b s))) (now b (world s1)));
    [done|lia].
Qed.

(** A call that finds the breaker open is turned away and leaves the store
    as it found it. *)
Lemma Breaker_Run_Open (cb : CB) (s : St) :
  observed b s = Open ->
  Breaker_Run Sprint (Some b) cb s = (Val (Some ErrBreakerOpen), s).
Proof.
  unfold observed. intros H.
  unfold Breaker_Run, Breaker_State, clock, bind, gets. simpl.
  rewrite H. reflexivity.
Qed.

(** So is a call that finds it half-open with every slot taken. *)
Lemma Breaker_Run_saturated (cb : CB) (s : St) :
  observed b s = HalfOpen ->
  maxRequests b <= requests (guarded b s) ->
  Breaker_Run Sprint (Some b) cb s = (Val (Some ErrBreakerOpen), s).
Proof.
  unfold observed. intros H Hsat.
  unfold Breaker_Run, Breaker_State, clock, canMakeHalfOpenRequest, bind, gets.
  simpl. rewrite H. simpl.
  destruct (Z.leb_spec (maxRequests b) (requests (guarded b s))); [|lia].
  reflexivity.
Qed.

(** C4. Rejection is atomic: a call made while the observed status is
    [Open], or [HalfOpen] with the in-flight counter at [maxRequests],
    returns [ErrBreakerOpen] and leaves the whole store, hence every field
    of the breaker, as it was, whatever the callback is: the callback is not
    invoked. *)
Theorem C4_rejection_is_atomic (cb : CB) (s : St) :
  observed b s = Open \/
  (observed b s = HalfOpen /\ maxRequests b <= requests (guarded b s)) ->
  Breaker_Run Sprint (Some b) cb s = (Val (Some ErrBreakerOpen), s).
Proof.
  intros [H | [H Hsat]].
  - by apply Breaker_Run_Open.
  - by apply Breaker_Run_saturated.
Qed.

(** A failure is a returned error that [isFailure] accepts: [nil] never
    is one, whatever the predicate says of it. *)
Lemma counts_as_failure_iff (err : option error) :
  counts_as_failure b err = true <->
  exists e : error, err = Some e /\ isFailure b (Some e) = true.
Proof.
  unfold counts_as_failure. destruct err as [e|]; simpl.
  - split; [eauto|]. by intros (e' & [= <-] & H).
  - split; [discriminate|]. by intros (e' & [=] & _).
Qed.

(** *** Admission *)


Lemma Breaker_Run_Closed (cb : CB) (s : St) :
  observed b s = Closed ->
  Breaker_Run Sprint (Some b) cb s
  = accounted Sprint b (state (guarded b s)) cb s.
Proof.
  unfold observed. intros H.
  unfold Breaker_Run, accounted, Breaker_State, clock, bind, gets, ret. simpl.
  rewrite H. reflexivity.
Qed.

Lemma Breaker_Run_slot (cb : CB) (s : St) :
  observed b s = HalfOpen ->
  requests (guarded b s) < maxRequests b ->
  Breaker_Run Sprint (Some b) cb s
  = accounted Sprint b (state (guarded b s)) cb (slot_taken b s).
Proof.
  unfold observed. intros H Hfree.
  unfold Breaker_Run, accounted, Breaker_State, clock, canMakeHalfOpenRequest,
    bind, gets, ret, modify, slot_taken. simpl.
  rewrite H. simpl.
  destruct (Z.leb_spec (maxRequests b) (requests (guarded b s))); [lia|].
  reflexivity.
Qed.

(** *** Outcome accounting *)

Lemma handleError_returns (snapshot : State) (err : option error) (s : St) :
  fst (handleError (PanicValue := PanicValue) b snapshot err s) = Val tt.
Proof.
  unfold handleError, update_state, shouldOpen, setState, clock, bind, gets,
    modify, ret.
  repeat (simpl; match goal with
          | |- context [if ?c then _ else _] => destruct c
          | |- context [match ?c with Closed => _ | _ => _ end] => destruct c
          end); reflexivity.
Qed.

Lemma accounted_eq (snapshot : State) (cb : CB) (s : St) :
  accounted Sprint b snapshot cb s
  = (Val (outcome_err Sprint (fst (cb s))),
     snd (handleError (PanicValue := PanicValue) b snapshot
            (outcome_err Sprint (fst (cb s))) (snd (cb s)))).
Proof.
  unfold accounted, safeRun, recover, bind, ret.
  destruct (cb s) as [[err|v] s1]; simpl.
  - pose proof (handleError_returns snapshot err s1) as Hr.
    destruct (handleError (PanicValue := PanicValue) b snapshot err s1)
      as [[[]|v] s2]; simpl in *; congruence.
  - pose proof (handleError_returns snapshot (Errorf_v Sprint v) s1) as Hr.
    destruct (handleError (PanicValue := PanicValue) b snapshot
                (Errorf_v Sprint v) s1) as [[[]|v'] s2];
      simpl in *; congruence.
Qed.

(** The early exit: a success after a streak-free snapshot of a closed
    breaker touches nothing. *)
Lemma handleError_early (snapshot : State) (err : option error) (s : St) :
  status snapshot = Closed ->
  counts_as_failure b err = false ->
  Failures snapshot = 0 ->
  handleError (PanicValue := PanicValue) b snapshot err s = (Val tt, s).
Proof.
  unfold counts_as_failure. intros Hst Hf Hz.
  unfold handleError. rewrite Hst, Hf, Hz. reflexivity.
Qed.

Lemma handleError_Closed_failure (snapshot : State) (err : option error)
    (s : St) :
  status (state (guarded b s)) = Closed ->
  counts_as_failure b err = true ->
  handleError (PanicValue := PanicValue) b snapshot err s
  = (Val tt,
     if maxFailures b <=? uint_incr (Failures (state (guarded b s)))
     then set_guarded b
            (mkGuarded 0 (mkState Open (now b (world s) + timeout b) 0 0)) s
     else set_guarded b
            (mkGuarded (requests (guarded b s))
               (State_failure (state (guarded b s)))) s).
Proof.
  unfold counts_as_failure. intros Hst Hf.
  unfold handleError. rewrite Hf. rewrite andb_false_r. simpl.
  unfold update_state, shouldOpen, setState, clock, bind, gets, modify, ret.
  simpl. unfold State_Status. rewrite Hst. simpl.
  rewrite guarded_set_guarded. simpl.
  destruct (maxFailures b <=? uint_incr (Failures (state (guarded b s))));
    [|reflexivity].
  by rewrite set_guarded_twice.
Qed.

Lemma handleError_Closed_reset (snapshot : State) (err : option error)
    (s : St) :
  status (state (guarded b s)) = Closed ->
  counts_as_failure b err = false ->
  status snapshot <> Closed \/ Failures snapshot <> 0 ->
  handleError (PanicValue := PanicValue) b snapshot err s
  = (Val tt,
     set_guarded b
       (mkGuarded (requests (guarded b s))
          (reset_Failures (state (guarded b s)))) s).
Proof.
  unfold counts_as_failure. intros Hst Hf Hsnap.
  unfold handleError. rewrite Hf. simpl.
  assert (bool_decide (status snapshot = Closed) && true
          && (Failures snapshot =? 0) = false) as ->.
  { destruct Hsnap as [Hs|Hs].
    - by rewrite bool_decide_eq_false_2.
    - rewrite andb_true_r. apply andb_false_iff. right. by apply Z.eqb_neq. }
  unfold update_state, clock, bind, gets, modify, ret.
  simpl. unfold State_Status. rewrite Hst. reflexivity.
Qed.

Lemma handleError_HalfOpen_failure (snapshot : State) (err : option error)
    (s : St) :
  observed b s = HalfOpen ->
  counts_as_failure b err = true ->
  handleError (PanicValue := PanicValue) b snapshot err s
  = (Val tt,
     set_guarded b
       (mkGuarded 0 (mkState Open (now b (world s) + timeout b) 0 0)) s).
Proof.
  unfold counts_as_failure, observed. intros Hst Hf.
  unfold handleError. rewrite Hf. rewrite andb_false_r. simpl.
  unfold setState, clock, bind, gets, modify, ret.
  simpl. rewrite Hst. reflexivity.
Qed.

Lemma handleError_HalfOpen_success (snapshot : State) (err : option error)
    (s : St) :
  observed b s = HalfOpen ->
  counts_as_failure b err = false ->
  status snapshot <> Closed \/ Failures snapshot <> 0 ->
  handleError (PanicValue := PanicValue) b snapshot err s
  = (Val tt,
     if uint_incr (Successes (state (guarded b s))) =? maxRequests b
     then set_guarded b (mkGuarded 0 (mkState Closed 0 0 0)) s
     else set_guarded b
            (mkGuarded (requests (guarded b s))
               (State_success (state (guarded b s)))) s).
Proof.
  unfold counts_as_failure, observed. intros Hst Hf Hsnap.
  unfold handleError. rewrite Hf. simpl.
  assert (bool_decide (status snapshot = Closed) && true
          && (Failures snapshot =? 0) = false) as ->.
  { destruct Hsnap as [Hs|Hs].
    - by rewrite bool_decide_eq_false_2.
    - rewrite andb_true_r. apply andb_false_iff. right. by apply Z.eqb_neq. }
  unfold update_state, setState, clock, bind, gets, modify, ret.
  simpl. rewrite Hst. simpl. rewrite guarded_set_guarded. simpl.
  destruct (uint_incr (Successes (state (guarded b s))) =? maxRequests b);
    [|reflexivity].
  by rewrite set_guarded_twice.
Qed.

(** *** A call on a closed breaker *)

Lemma Breaker_Run_Closed_accounting (cb : CB) (s : St) :
  let snapshot := state (guarded b s) in
  let err := outcome_err Sprint (fst (cb s)) in
  let s1 := snd (cb s) in
  let g1 := guarded b s1 in
  observed b s = Closed ->
  observed b s1 = Closed ->
  (counts_as_failure b err = true ->
   Breaker_Run Sprint (Some b) cb s
   = (Val err,
      if maxFailures b <=? uint_incr (Failures (state g1))
      then set_guarded b
             (mkGuarded 0 (mkState Open (now b (world s1) + timeout b) 0 0)) s1
      else set_guarded b
             (mkGuarded (requests g1)
                (mkState Closed (expiresAt (state g1))
                   (uint_incr (Failures (state g1))) 0)) s1)) /\
  (counts_as_failure b err = false ->
   Failures snapshot <> 0 ->
   Breaker_Run Sprint (Some b) cb s
   = (Val err,
      set_guarded b
        (mkGuarded (requests g1)
           (mkState Closed (expiresAt (state g1)) 0 (Successes (state g1))))
        s1)) /\
  (counts_as_failure b err = false ->
   Failures snapshot = 0 ->
   Breaker_Run Sprint (Some b) cb s = (Val err, s1)).
Proof.
  intros snapshot err s1 g1 H0 H1.
  rewrite (Breaker_Run_Closed cb s H0), accounted_eq.
  fold err s1 snapshot.
  apply observed_Closed in H0, H1. fold g1 in H1.
  split; [|split].
  - intros Hf.
    rewrite (handleError_Closed_failure snapshot err s1 H1 Hf). simpl.
    fold g1. unfold State_failure. by rewrite H1.
  - intros Hf Hstreak.
    rewrite (handleError_Closed_reset snapshot err s1 H1 Hf); [|by right].
    simpl. fold g1. unfold reset_Failures. by rewrite H1.
  - intros Hf Hz.
    by rewrite (handleError_early snapshot err s1 H0 Hf Hz).
Qed.

(** *** A call let in on a half-open breaker *)

Lemma Breaker_Run_HalfOpen_accounting (cb : CB) (s : St) :
  let err := outcome_err Sprint (fst (cb (slot_taken b s))) in
  let s1 := snd (cb (slot_taken b s)) in
  let g1 := guarded b s1 in
  observed b s = HalfOpen ->
  requests (guarded b s) < maxRequests b ->
  observed b s1 = HalfOpen ->
  (counts_as_failure b err = true ->
   Breaker_Run Sprint (Some b) cb s
   = (Val err,
      set_guarded b
        (mkGuarded 0 (mkState Open (now b (world s1) + timeout b) 0 0)) s1)) /\
  (counts_as_failure b err = false ->
   Breaker_Run Sprint (Some b) cb s
   = (Val err,
      if uint_incr (Successes (state g1)) =? maxRequests b
      then set_guarded b (mkGuarded 0 (mkState Closed 0 0 0)) s1
      else set_guarded b
             (mkGuarded (requests g1)
                (mkState (status (state g1)) (expiresAt (state g1)) 0
                   (uint_incr (Successes (state g1))))) s1)).
Proof.
  intros err s1 g1 H0 Hfree H1.
  rewrite (Breaker_Run_slot cb s H0 Hfree), accounted_eq.
  fold err s1.
  split.
  - intros Hf.
    by rewrite (handleError_HalfOpen_failure _ err s1 H1 Hf).
  - intros Hf.
    rewrite (handleError_HalfOpen_success _ err s1 H1 Hf); [reflexivity|].
    left. intros Hc. apply observed_Closed in Hc. congruence.
Qed.

(** *** The stored status *)

Lemma State_Status_cases (st : State) (t : Z) :
  (status st = Open /\ expiresAt st <= t -> State_Status st t = HalfOpen) /\
  (~ (status st = Open /\ expiresAt st <= t) ->
   State_Status st t = status st) /\
  (status st <> HalfOpen ->
   (State_Status st t = HalfOpen <-> status st = Open /\ expiresAt st <= t)).
Proof.
  unfold State_Status.
  destruct (status st) eqn:Hst; simpl;
    destruct (Z.leb_spec (expiresAt st) t); simpl;
    repeat split; try congruence; try tauto; try lia;
    try (intros [? ?]; congruence || lia).
Qed.

(** *** The half-open window *)

Lemma uint_incr_small (x : Z) : 0 <= x < 2 ^ 64 - 1 -> uint_incr x = x + 1.
Proof. intros H. unfold uint_incr, uint_wrap. apply Z.mod_small. lia. Qed.

Lemma canMakeHalfOpenRequest_full (s : St) :
  maxRequests b <= requests (guarded b s) ->
  canMakeHalfOpenRequest (PanicValue := PanicValue) b s = (Val false, s).
Proof.
  intros H. unfold canMakeHalfOpenRequest, bind, gets, ret. simpl.
  destruct (Z.leb_spec (maxRequests b) (requests (guarded b s))); [|lia].
  reflexivity.
Qed.

Lemma canMakeHalfOpenRequest_free (s : St) :
  requests (guarded b s) < maxRequests b ->
  canMakeHalfOpenRequest (PanicValue := PanicValue) b s
  = (Val true, slot_taken b s).
Proof.
  intros H. unfold canMakeHalfOpenRequest, bind, gets, ret, modify. simpl.
  destruct (Z.leb_spec (maxRequests b) (requests (guarded b s))); [lia|].
  reflexivity.
Qed.

Lemma requests_slot_taken (s : St) :
  is_uint (maxRequests b) ->
  0 <= requests (guarded b s) < maxRequests b ->
  requests (guarded b (slot_taken b s)) = requests (guarded b s) + 1.
Proof.
  unfold is_uint. intros Hmax Hr. unfold slot_taken.
  rewrite guarded_set_guarded. simpl. apply uint_incr_small. lia.
Qed.

(** *** The counters stay in range *)

Ltac solve_ok :=
  unfold Guarded_ok, State_failure, State_success, reset_Failures; simpl;
  rewrite ?uint_incr_small by lia;
  split_and!; try (intros; first [lia | congruence | auto]).

Lemma Guarded_zero_ok : Breaker_ok b -> Guarded_ok b Guarded_zero.
Proof. unfold Breaker_ok. intros [? ?]. solve_ok. Qed.

Lemma canMakeHalfOpenRequest_ok (s : St) :
  Breaker_ok b ->
  Guarded_ok b (guarded b s) ->
  Guarded_ok b
    (guarded b (snd (canMakeHalfOpenRequest (PanicValue := PanicValue) b s))).
Proof.
  intros [_ Hmax] Hok.
  destruct (Z.le_gt_cases (maxRequests b) (requests (guarded b s)))
    as [Hfull|Hfree].
  - by rewrite canMakeHalfOpenRequest_full.
  - rewrite canMakeHalfOpenRequest_free by assumption.
    destruct Hok as (Hr & Hst & Hf & Hs). cbn [snd].
    pose proof (requests_slot_taken s ltac:(unfold is_uint; lia) ltac:(lia))
      as Hinc.
    unfold Guarded_ok. rewrite Hinc.
    unfold slot_taken. rewrite guarded_set_guarded. simpl.
    split_and!; auto; lia.
Qed.

Lemma handleError_ok (snapshot : State) (err : option error) (s : St) :
  Breaker_ok b ->
  Guarded_ok b (guarded b s) ->
  Guarded_ok b
    (guarded b (snd (handleError (PanicValue := PanicValue) b snapshot err s))).
Proof.
  intros [HmaxF HmaxR] Hok. pose proof Hok as (Hr & Hst & Hf & Hs).
  unfold handleError.
  destruct (bool_decide (status snapshot = Closed)
            && negb (not_nil err && isFailure b err)
            && (Failures snapshot =? 0)); [exact Hok|].
  unfold update_state, shouldOpen, setState, clock, bind, gets, modify, ret.
  simpl. unfold State_Status.
  destruct (status (state (guarded b s))) eqn:Hstat; simpl; [|done|].
  - specialize (Hf eq_refl).
    destruct (not_nil err && isFailure b err); simpl.
    + rewrite guarded_set_guarded. simpl.
      rewrite uint_incr_small by lia.
      destruct (Z.leb_spec (maxFailures b)
                  (Failures (state (guarded b s)) + 1));
        simpl; rewrite guarded_set_guarded; rewrite ?Hstat; solve_ok.
    + rewrite guarded_set_guarded. rewrite ?Hstat. solve_ok.
  - specialize (Hs eq_refl).
    destruct (Z.leb_spec (expiresAt (state (guarded b s))) (now b (world s)));
      simpl; [|exact Hok].
    destruct (not_nil err && isFailure b err); simpl.
    + rewrite guarded_set_guarded. solve_ok.
    + rewrite guarded_set_guarded. simpl.
      rewrite uint_incr_small by lia.
      destruct (Z.eqb_spec (Successes (state (guarded b s)) + 1)
                  (maxRequests b));
        simpl; rewrite guarded_set_guarded; rewrite ?Hstat; solve_ok.
Qed.

(** A transition sets the in-flight counter to zero; accounting without a
    transition leaves it alone. *)
Lemma handleError_transition (snapshot : State) (err : option error) (s : St) :
  requests
    (guarded b
       (snd (handleError (PanicValue := PanicValue) b snapshot err s)))
  = if transitions b snapshot err s then 0 else requests (guarded b s).
Proof.
  unfold handleError, transitions, counts_as_failure, observed.
  destruct (bool_decide (status snapshot = Closed)
            && negb (not_nil err && isFailure b err)
            && (Failures snapshot =? 0)); [reflexivity|].
  unfold update_state, shouldOpen, setState, clock, bind, gets, modify, ret.
  simpl.
  destruct (State_Status (state (guarded b s)) (now b (world s))); simpl;
    [| |reflexivity];
    destruct (not_nil err && isFailure b err); simpl;
    rewrite ?guarded_set_guarded; simpl;
    try match goal with
        | |- context [if ?c then _ else _] => destruct c
        end;
    simpl; rewrite ?guarded_set_guarded; reflexivity.
Qed.

(** [transitions] says when [handleError] calls [setState]: then the
    guarded fields are those that [setState] writes, and otherwise the
    status, the expiry and the in-flight counter are as they were. *)
Lemma handleError_transitions (snapshot : State) (err : option error)
    (s : St) :
  let g := guarded b s in
  let g' :=
    guarded b (snd (handleError (PanicValue := PanicValue) b snapshot err s)) in
  if transitions b snapshot err s
  then g' = mkGuarded 0 (mkState Open (now b (world s) + timeout b) 0 0) \/
       g' = mkGuarded 0 (mkState Closed 0 0 0)
  else requests g' = requests g /\
       status (state g') = status (state g) /\
       expiresAt (state g') = expiresAt (state g).
Proof.
  unfold handleError, transitions, counts_as_failure, observed.
  destruct (bool_decide (status snapshot = Closed)
            && negb (not_nil err && isFailure b err)
            && (Failures snapshot =? 0)); [by simpl|].
  unfold update_state, shouldOpen, setState, clock, bind, gets, modify, ret.
  simpl.
  destruct (State_Status (state (guarded b s)) (now b (world s))); simpl;
    [| |done];
    destruct (not_nil err && isFailure b err); simpl;
    rewrite ?guarded_set_guarded; simpl;
    try match goal with
        | |- context [if ?c then _ else _] => destruct c
        end;
    simpl; rewrite ?guarded_set_guarded; simpl; auto.
Qed.

(** In every interleaving of calls, each stretch between two transitions
    grants at most [maxRequests] slots. *)
Lemma windows_capped (evs : list WindowEvent) (s : St) (n : nat) :
  Breaker_ok b ->
  Forall (elsewhere b) evs ->
  Guarded_ok b (guarded b s) ->
  Z.of_nat n <= requests (guarded b s) ->
  Forall (fun granted => Z.of_nat granted <= maxRequests b)
    (windows (PanicValue := PanicValue) b evs s n).
Proof.
  intros Hb Hev. revert s n.
  induction Hev as [|ev evs Hframe Hev IH]; intros s n Hok Hn; simpl.
  - constructor; [|constructor]. destruct Hok as (Hr & _). lia.
  - destruct ev as [|snapshot err|f].
    + pose proof (canMakeHalfOpenRequest_ok s Hb Hok) as Hok'.
      destruct (Z.le_gt_cases (maxRequests b) (requests (guarded b s)))
        as [Hfull|Hfree].
      * rewrite (canMakeHalfOpenRequest_full s Hfull) in *. by apply IH.
      * rewrite (canMakeHalfOpenRequest_free s Hfree) in *. apply IH; [done|].
        destruct Hb as [_ HmaxR]. destruct Hok as (Hr & _).
        rewrite requests_slot_taken by (unfold is_uint; lia). lia.
    + pose proof (handleError_ok snapshot err s Hb Hok) as Hok'.
      pose proof (handleError_transition snapshot err s) as Hreq.
      destruct (transitions b snapshot err s).
      * constructor; [destruct Hok as (Hr & _); lia|].
        apply IH; [done|]. rewrite Hreq. simpl. lia.
      * apply IH; [done|]. by rewrite Hreq.
    + simpl in Hframe. apply IH; by rewrite Hframe.
Qed.

(** [Run] keeps the counters in range when the callback does. *)
Lemma Breaker_Run_ok (cb : CB) (s : St) :
  Breaker_ok b ->
  (forall s', Guarded_ok b (guarded b s') ->
              Guarded_ok b (guarded b (snd (cb s')))) ->
  Guarded_ok b (guarded b s) ->
  Guarded_ok b (guarded b (snd (Breaker_Run Sprint (Some b) cb s))).
Proof.
  intros Hb Hcb Hok.
  destruct (observed b s) eqn:Hobs.
  - rewrite (Breaker_Run_Closed cb s Hobs), accounted_eq. simpl.
    apply handleError_ok; auto.
  - destruct (Z.le_gt_cases (maxRequests b) (requests (guarded b s)))
      as [Hfull|Hfree].
    + by rewrite (Breaker_Run_saturated cb s Hobs Hfull).
    + rewrite (Breaker_Run_slot cb s Hobs Hfree), accounted_eq. simpl.
      apply handleError_ok; [assumption|]. apply Hcb.
      pose proof (canMakeHalfOpenRequest_ok s Hb Hok) as H.
      by rewrite canMakeHalfOpenRequest_free in H.
  - by rewrite (Breaker_Run_Open cb s Hobs).
Qed.

(** C5. The half-open admission cap. A call that observes [HalfOpen] is let
    in only when the in-flight counter is below [maxRequests]: then the
    counter is one higher before the callback starts, and the call goes on
    to run the callback and account for its outcome; with the counter at
    [maxRequests] the call is rejected with [ErrBreakerOpen]. Outcome
    accounting leaves the counter alone, except that a transition sets it to
    zero. Hence, however the calls on a breaker made by [New] interleave, in
    every stretch between two transitions at most [maxRequests] of them are
    granted a slot. *)
Theorem C5_half_open_admission_cap (cb : CB) (s : St) :
  Breaker_ok b ->
  Guarded_ok b (guarded b s) ->
  observed b s = HalfOpen ->
  (requests (guarded b s) < maxRequests b ->
   requests (guarded b (slot_taken b s)) = requests (guarded b s) + 1 /\
   Breaker_Run Sprint (Some b) cb s
   = (Val (outcome_err Sprint (fst (cb (slot_taken b s)))),
      snd (handleError (PanicValue := PanicValue) b (state (guarded b s))
             (outcome_err Sprint (fst (cb (slot_taken b s))))
             (snd (cb (slot_taken b s)))))) /\
  (maxRequests b <= requests (guarded b s) ->
   Breaker_Run Sprint (Some b) cb s = (Val (Some ErrBreakerOpen), s)) /\
  (forall (snapshot : State) (err : option error) (s0 : St),
     let g := guarded b s0 in
     let g' :=
       guarded b
         (snd (handleError (PanicValue := PanicValue) b snapshot err s0)) in
     if transitions b snapshot err s0
     then g' = mkGuarded 0 (mkState Open (now b (world s0) + timeout b) 0 0) \/
          g' = mkGuarded 0 (mkState Closed 0 0 0)
     else requests g' = requests g /\
          status (state g') = status (state g) /\
          expiresAt (state g') = expiresAt (state g)) /\
  (forall (evs : list WindowEvent) (s0 : St),
     Forall (elsewhere b) evs ->
     Guarded_ok b (guarded b s0) ->
     Forall (fun granted => Z.of_nat granted <= maxRequests b)
       (windows (PanicValue := PanicValue) b evs s0 0)).
Proof.
  intros Hb Hok Hobs. split; [|split; [|split]].
  - intros Hfree. split.
    + destruct Hb as [_ HmaxR]. destruct Hok as (Hr & _).
      apply requests_slot_taken; [unfold is_uint|]; lia.
    + by rewrite (Breaker_Run_slot cb s Hobs Hfree), accounted_eq.
  - intros Hfull. by apply Breaker_Run_saturated.
  - apply handleError_transitions.
  - intros evs s0 Hev Hok0. apply windows_capped; try assumption.
    destruct Hok0 as (Hr & _). simpl. lia.
Qed.

(** C3, as the code has it. The observed status and the half-open
    accounting. [State.Status]
    is a function of the stored state and the time that the clock returns:
    it is [HalfOpen] when the stored status is [Open] and [expiresAt <= now],
    and the stored status otherwise (so, the breaker never storing
    [HalfOpen], it is [HalfOpen] exactly in the first case). Outcome
    accounting that finds the breaker half-open stores, on a failure (a
    non-nil error that [isFailure] accepts), [Open]
    with [expiresAt = now + timeout] and all counters zero; otherwise it
    counts one more success, and when the successes reach [maxRequests] it
    stores [Closed] with the counters zero. The one result it passes over
    is the result, not a failure, of a call that had read a closed state
    with no failure counted: [handleError] returns before it looks at the
    breaker and writes nothing. So a
    call let in while the observed status is [HalfOpen] and completing while
    it is [HalfOpen] returns the callback's error and does exactly that;
    and so does a call let in while the status was [Closed] and completing
    while it is [HalfOpen], except that its result, when it is not a
    failure and the call had found no failure counted, is not accounted
    for: no success is counted and the breaker is not closed.
    (For a breaker made by [New] the stored status is then [Open] and the
    success count below [maxRequests], so that going up by one never
    wraps. A call whose callback leaves the state of the breaker alone and
    does not turn the clock back completes while the breaker is half-open
    if it was let in while it was.) *)
Theorem C3_observed_status_half_open (cb : CB) (s : St) :
  let err := outcome_err Sprint (fst (cb (slot_taken b s))) in
  let s1 := snd (cb (slot_taken b s)) in
  let g1 := guarded b s1 in
  (forall (snapshot : State) (err' : option error) (s' : St),
     status snapshot = Closed ->
     counts_as_failure b err' = false ->
     Failures snapshot = 0 ->
     handleError (PanicValue := PanicValue) b snapshot err' s'
     = (Val tt, s')) /\
  (observed b s = Closed ->
   observed b (snd (cb s)) = HalfOpen ->
   let err0 := outcome_err Sprint (fst (cb s)) in
   let s0 := snd (cb s) in
   (counts_as_failure b err0 = true ->
    Breaker_Run Sprint (Some b) cb s
    = (Val err0,
       set_guarded b
         (mkGuarded 0 (mkState Open (now b (world s0) + timeout b) 0 0)) s0)) /\
   (counts_as_failure b err0 = false ->
    Failures (state (guarded b s)) <> 0 ->
    Breaker_Run Sprint (Some b) cb s
    = (Val err0,
       if uint_incr (Successes (state (guarded b s0))) =? maxRequests b
       then set_guarded b (mkGuarded 0 (mkState Closed 0 0 0)) s0
       else set_guarded b
              (mkGuarded (requests (guarded b s0))
                 (State_success (state (guarded b s0)))) s0)) /\
   (counts_as_failure b err0 = false ->
    Failures (state (guarded b s)) = 0 ->
    Breaker_Run Sprint (Some b) cb s = (Val err0, s0))) /\
  (forall (st : State) (t : Z),
     (status st = Open /\ expiresAt st <= t -> State_Status st t = HalfOpen) /\
     (~ (status st = Open /\ expiresAt st <= t) ->
      State_Status st t = status st) /\
     (status st <> HalfOpen ->
      (State_Status st t = HalfOpen <->
       status st = Open /\ expiresAt st <= t))) /\
  (forall s', observed b s' =
              State_Status (state (guarded b s')) (now b (world s'))) /\
  (forall (snapshot : State) (err' : option error) (s' : St),
     observed b s' = HalfOpen ->
     (counts_as_failure b err' = true ->
      handleError (PanicValue := PanicValue) b snapshot err' s'
      = (Val tt,
         set_guarded b
           (mkGuarded 0 (mkState Open (now b (world s') + timeout b) 0 0))
           s')) /\
     (counts_as_failure b err' = false ->
      status snapshot <> Closed \/ Failures snapshot <> 0 ->
      handleError (PanicValue := PanicValue) b snapshot err' s'
      = (Val tt,
         if uint_incr (Successes (state (guarded b s'))) =? maxRequests b
         then set_guarded b (mkGuarded 0 (mkState Closed 0 0 0)) s'
         else set_guarded b
                (mkGuarded (requests (guarded b s'))
                   (State_success (state (guarded b s')))) s'))) /\
  (observed b s = HalfOpen ->
   requests (guarded b s) < maxRequests b ->
   observed b s1 = HalfOpen ->
   (counts_as_failure b err = true ->
    Breaker_Run Sprint (Some b) cb s
    = (Val err,
       set_guarded b
         (mkGuarded 0 (mkState Open (now b (world s1) + timeout b) 0 0)) s1)) /\
   (counts_as_failure b err = false ->
    Breaker_Run Sprint (Some b) cb s
    = (Val err,
       if uint_incr (Successes (state g1)) =? maxRequests b
       then set_guarded b (mkGuarded 0 (mkState Closed 0 0 0)) s1
       else set_guarded b
              (mkGuarded (requests g1)
                 (mkState (status (state g1)) (expiresAt (state g1)) 0
                    (uint_incr (Successes (state g1))))) s1))) /\
  (Breaker_ok b ->
   Guarded_ok b g1 ->
   observed b s1 = HalfOpen ->
   status (state g1) = Open /\
   uint_incr (Successes (state g1)) = Successes (state g1) + 1) /\
  (counts_as_failure b err = true <->
   exists e : error, err = Some e /\ isFailure b (Some e) = true) /\
  (state g1 = state (guarded b s) ->
   now b (world s) <= now b (world s1) ->
   observed b s = HalfOpen ->
   observed b s1 = HalfOpen).
Proof.
  intros err s1 g1.
  split; [intros snapshot err' s'; apply handleError_early|].
  split.
  { intros H0 H1 err0 s0.
    rewrite (Breaker_Run_Closed cb s H0), accounted_eq. fold err0 s0.
    apply observed_Closed in H0. split_and!.
    - intros Hf. by rewrite (handleError_HalfOpen_failure _ err0 s0 H1 Hf).
    - intros Hf Hnz.
      rewrite (handleError_HalfOpen_success _ err0 s0 H1 Hf); [done|].
      by right.
    - intros Hf Hz. by rewrite (handleError_early _ err0 s0 H0 Hf Hz). }
  split; [|split; [|split; [|split; [|split; [|split]]]]];
    [| | | | | apply counts_as_failure_iff | apply observed_HalfOpen_kept];
    [| | | |
     intros [_ HmaxR] (_ & Hst & _ & Hrange) Hobs;
     destruct (State_Status_cases (state g1) (now b (world s1)))
       as (_ & _ & Hiff);
     apply (Hiff Hst) in Hobs as [Hopen _];
     split; [assumption|]; apply uint_incr_small;
     specialize (Hrange Hopen); lia].
  - apply State_Status_cases.
  - reflexivity.
  - intros snapshot err' s' Hobs. split.
    + by apply handleError_HalfOpen_failure.
    + by apply handleError_HalfOpen_success.
  - apply Breaker_Run_HalfOpen_accounting.
Qed.

End Breaker_properties.

Section Breaker_defaults.

Context {W : Type} {PanicValue : Type}.
Variable Sprint : PanicValue -> string.
Variable time_Now : W -> Z.
Variable p : positive.
Variable e : error.

Local Abbreviation CB := (CallFn (W := W) (PanicValue := PanicValue)).
Local Abbreviation St := (Store (W := W)).

Lemma breaker_apply_ok (opt : breaker_option) (b0 : Breaker) :
  breaker_option_ok opt ->
  Breaker_ok b0 ->
  Breaker_ok (breaker_apply time_Now opt b0).
Proof.
  unfold Breaker_ok.
  destruct opt as [f|n|n|f|d]; simpl; unfold is_uint; intros Hopt [HF HR];
    try done.
  - split; [done|]. destruct (Z.eqb_spec n 0); unfold defaultMaxRequests; lia.
  - split; [|done]. destruct (Z.eqb_spec n 0); unfold defaultMaxFailures; lia.
Qed.

(** [New] gives positive limits, whatever the options. *)
Lemma breaker_New_ok (q : positive) (opts : list breaker_option) :
  Forall breaker_option_ok opts ->
  Breaker_ok (breaker_New time_Now q opts).
Proof.
  unfold breaker_New.
  assert (H0 : Breaker_ok
                 (mkBreaker defaultIsFailure defaultMaxFailures
                    defaultMaxRequests time_Now defaultTimeout q)).
  { unfold Breaker_ok. simpl.
    unfold defaultMaxFailures, defaultMaxRequests. lia. }
  revert H0. generalize (mkBreaker defaultIsFailure defaultMaxFailures
                           defaultMaxRequests time_Now defaultTimeout q).
  intros b0 Hb0 Hall. revert b0 Hb0.
  induction Hall as [|opt opts Hopt Hall IH]; intros b0 Hb0; [done|].
  simpl. apply IH. by apply breaker_apply_ok.
Qed.

(** [breaker.New()] and a callback that always fails with [e]. *)
Let b : Breaker := breaker_New time_Now p [].
Let failing : CB := ret (Some e).

Lemma default_failure (f : Z) (s : St) :
  guarded b s = mkGuarded 0 (mkState Closed 0 f 0) ->
  Breaker_Run Sprint (Some b) failing s
  = (Val (Some e),
     if 5 <=? uint_incr f
     then set_guarded b
            (mkGuarded 0
               (mkState Open (time_Now (world s) + defaultTimeout) 0 0)) s
     else set_guarded b (mkGuarded 0 (mkState Closed 0 (uint_incr f) 0)) s).
Proof.
  intros Hg.
  assert (Hc : observed b s = Closed).
  { apply observed_Closed. by rewrite Hg. }
  destruct (Breaker_Run_Closed_accounting Sprint b failing s Hc Hc)
    as (Hfail & _ & _).
  rewrite Hfail; [|reflexivity].
  cbn [fst snd failing ret]. rewrite Hg. reflexivity.
Qed.

Lemma default_failure_counts (f f' : Z) (s : St) :
  0 <= f < 4 ->
  f' = f + 1 ->
  guarded b s = mkGuarded 0 (mkState Closed 0 f 0) ->
  Breaker_Run Sprint (Some b) failing s
  = (Val (Some e), set_guarded b (mkGuarded 0 (mkState Closed 0 f' 0)) s).
Proof.
  intros Hf -> Hg. rewrite (default_failure f s Hg).
  rewrite uint_incr_small by lia.
  destruct (Z.leb_spec 5 (f + 1)); [lia|reflexivity].
Qed.

Lemma default_failure_opens (s : St) :
  guarded b s = mkGuarded 0 (mkState Closed 0 4 0) ->
  Breaker_Run Sprint (Some b) failing s
  = (Val (Some e),
     set_guarded b
       (mkGuarded 0 (mkState Open (time_Now (world s) + defaultTimeout) 0 0))
       s).
Proof. intros Hg. rewrite (default_failure 4 s Hg). reflexivity. Qed.

Lemma invoke_step (n : nat) (m : CB) (s s1 : St)
    (o : Result (PanicValue := PanicValue) (option error)) :
  m s = (o, s1) ->
  invoke (S n) m s = (o :: fst (invoke n m s1), snd (invoke n m s1)).
Proof. intros H. rewrite invoke_S, H. reflexivity. Qed.

(** With the default options, four failures in a row leave the breaker
    closed with a count of four, and the fifth opens it. *)
Lemma default_five_failures (s : St) :
  guarded b s = Guarded_zero ->
  let run := Breaker_Run Sprint (Some b) failing in
  let s4 := snd (invoke 4 run s) in
  let s5 := snd (run s4) in
  fst (invoke 4 run s) = replicate 4 (Val (Some e)) /\
  observed b s4 = Closed /\
  Failures (state (guarded b s4)) = 4 /\
  fst (run s4) = Val (Some e) /\
  observed b s5 = Open /\
  guarded b s5
  = mkGuarded 0 (mkState Open (time_Now (world s) + defaultTimeout) 0 0).
Proof.
  intros Hz run s4 s5.
  assert (H4 : invoke 4 run s
               = (replicate 4 (Val (Some e)),
                  set_guarded b (mkGuarded 0 (mkState Closed 0 4 0)) s)).
  { unfold run.
    rewrite (invoke_step 3 _ s _ _
               (default_failure_counts 0 1 s ltac:(lia) eq_refl Hz)).
    rewrite (invoke_step 2 _ _ _ _
               (default_failure_counts 1 2 _ ltac:(lia) eq_refl
                  (guarded_set_guarded b _ s))).
    rewrite set_guarded_twice.
    rewrite (invoke_step 1 _ _ _ _
               (default_failure_counts 2 3 _ ltac:(lia) eq_refl
                  (guarded_set_guarded b _ s))).
    rewrite set_guarded_twice.
    rewrite (invoke_step 0 _ _ _ _
               (default_failure_counts 3 4 _ ltac:(lia) eq_refl
                  (guarded_set_guarded b _ s))).
    rewrite set_guarded_twice. reflexivity. }
  assert (H5 : run (set_guarded b (mkGuarded 0 (mkState Closed 0 4 0)) s)
               = (Val (Some e),
                  set_guarded b
                    (mkGuarded 0
                       (mkState Open (time_Now (world s) + defaultTimeout) 0 0))
                    s)).
  { unfold run.
    rewrite (default_failure_opens _ (guarded_set_guarded b _ s)).
    by rewrite set_guarded_twice. }
  unfold s5, s4. rewrite H4. cbn [fst snd]. rewrite H5. cbn [fst snd].
  rewrite !guarded_set_guarded. cbn [Failures state].
  repeat split; try reflexivity.
  - apply observed_Closed. by rewrite guarded_set_guarded.
  - apply observed_Open. rewrite guarded_set_guarded.
    cbn [status expiresAt state].
    split; [reflexivity|]. unfold b. cbn. unfold defaultTimeout, Second. lia.
Qed.

(** C1, as the code has it. Outcome accounting on a closed breaker. For a
    call let in while
    the observed status is [Closed] and completing while it is [Closed]:
    the call returns the callback's error (the underlying error also on the
    call that opens the breaker); on a failure, that is a non-nil error that
    [isFailure] accepts, the failure count goes up by
    one and the successes are reset, and when the count reaches
    [maxFailures] the breaker stores [Open] with [expiresAt = now + timeout];
    on a result that is not a failure, a streak that was not zero when the
    call was let in is reset to zero, and when it was zero nothing is
    written, so that failures counted while the call ran stay counted.
    (The count is
    a [uint]; for a breaker made by [New] it stays below [maxFailures] while
    the breaker is closed, so that going up by one never wraps. A call whose
    callback leaves the state of the breaker alone completes while the
    breaker is closed if it was let in while it was.) In particular,
    with the default options four failures in a row leave the breaker closed
    with a count of four, and the fifth opens it. *)
Theorem C1_closed_outcome_accounting :
  (forall (b : Breaker) (cb : CB) (s : St),
     let snapshot := state (guarded b s) in
     let err := outcome_err Sprint (fst (cb s)) in
     let s1 := snd (cb s) in
     let g1 := guarded b s1 in
     observed b s = Closed ->
     observed b s1 = Closed ->
     (counts_as_failure b err = true ->
      Breaker_Run Sprint (Some b) cb s
      = (Val err,
         if maxFailures b <=? uint_incr (Failures (state g1))
         then set_guarded b
                (mkGuarded 0 (mkState Open (now b (world s1) + timeout b) 0 0))
                s1
         else set_guarded b
                (mkGuarded (requests g1)
                   (mkState Closed (expiresAt (state g1))
                      (uint_incr (Failures (state g1))) 0)) s1)) /\
     (counts_as_failure b err = false ->
      Failures snapshot <> 0 ->
      Breaker_Run Sprint (Some b) cb s
      = (Val err,
         set_guarded b
           (mkGuarded (requests g1)
              (mkState Closed (expiresAt (state g1)) 0 (Successes (state g1))))
           s1)) /\
     (counts_as_failure b err = false ->
      Failures snapshot = 0 ->
      Breaker_Run Sprint (Some b) cb s = (Val err, s1)) /\
     (Breaker_ok b ->
      Guarded_ok b g1 ->
      uint_incr (Failures (state g1)) = Failures (state g1) + 1) /\
     (counts_as_failure b err = true <->
      exists e : error, err = Some e /\ isFailure b (Some e) = true)) /\
  (forall (s : St),
     guarded b s = Guarded_zero ->
     let run := Breaker_Run Sprint (Some b) failing in
     let s4 := snd (invoke 4 run s) in
     let s5 := snd (run s4) in
     fst (invoke 4 run s) = replicate 4 (Val (Some e)) /\
     observed b s4 = Closed /\
     Failures (state (guarded b s4)) = 4 /\
     fst (run s4) = Val (Some e) /\
     observed b s5 = Open /\
     guarded b s5
     = mkGuarded 0 (mkState Open (time_Now (world s) + defaultTimeout) 0 0)) /\
  (forall (b : Breaker) (cb : CB) (s : St),
     state (guarded b (snd (cb s))) = state (guarded b s) ->
     observed b s = Closed ->
     observed b (snd (cb s)) = Closed).
Proof.
  split; [|split]; [| |intros b0 cb s; apply observed_Closed_kept].
  - intros b0 cb s snapshot err s1 g1 H0 H1.
    destruct (Breaker_Run_Closed_accounting Sprint b0 cb s H0 H1)
      as (Hf & Hr & He).
    split_and!; try assumption; [|apply counts_as_failure_iff].
    intros [HmaxF _] (_ & _ & Hrange & _).
    apply observed_Closed in H1. apply uint_incr_small.
    specialize (Hrange H1). lia.
  - apply default_five_failures.
Qed.

End Breaker_defaults.

(** ** The breaker on the runs of its tests *)

(** C1 as worded is not what the code does: a call is let in on the fresh,
    closed breaker; while it runs a failure is counted; it completes, not
    with a failure, while the breaker is closed with a streak of one; and
    the streak is still one afterwards. *)
Lemma C1_counterexample :
  observed breaker_defaults store0 = Closed /\
  observed breaker_defaults (snd (cb_streak store0)) = Closed /\
  Failures (state (guarded breaker_defaults (snd (cb_streak store0)))) = 1 /\
  counts_as_failure breaker_defaults
    (outcome_err (fun v : string => v) (fst (cb_streak store0))) = false /\
  fst (run_defaults cb_streak store0) = Val None /\
  Failures
    (state (guarded breaker_defaults (snd (run_defaults cb_streak store0))))
  = 1.
Proof. vm_compute. repeat split; reflexivity. Qed.

(** C3 as worded is not what the code does: a call is let in on the fresh,
    closed breaker; while it runs the breaker trips and its timeout passes;
    it completes, not with a failure, while the breaker is half-open; with
    the one success that the default breaker asks for, no success is counted
    and the breaker is not closed. *)
Lemma C3_counterexample :
  observed breaker_defaults store0 = Closed /\
  observed breaker_defaults (snd (cb_trip_wait store0)) = HalfOpen /\
  counts_as_failure breaker_defaults
    (outcome_err (fun v : string => v) (fst (cb_trip_wait store0))) = false /\
  maxRequests breaker_defaults = 1 /\
  run_defaults cb_trip_wait store0 = (Val None, snd (cb_trip_wait store0)) /\
  Successes
    (state (guarded breaker_defaults (snd (run_defaults cb_trip_wait store0))))
  = 0 /\
  observed breaker_defaults (snd (run_defaults cb_trip_wait store0))
  = HalfOpen.
Proof. vm_compute. repeat split; reflexivity. Qed.


(** C4 on [TestWithDefaults]: once the breaker is open, and again when it
    is half-open with its one slot taken, the call returns [ErrBreakerOpen]
    and the store, invocation counter included, is untouched. *)
Lemma C4_rejection_is_atomic_witness :
  run_defaults cb_oops store_open = (Val (Some ErrBreakerOpen), store_open) /\
  run_defaults cb_nil store_saturated
  = (Val (Some ErrBreakerOpen), store_saturated).
Proof.
  split.
  - apply C4_rejection_is_atomic. left. vm_compute. reflexivity.
  - apply C4_rejection_is_atomic. right. split.
    + vm_compute. reflexivity.
    + vm_compute. discriminate.
Defined.

(** C1 on [TestWithDefaults]: the first failure is counted, a success after
    it resets the streak, a success on the fresh breaker writes nothing, and
    the fifth failure in a row opens the breaker. *)
Lemma C1_closed_outcome_accounting_witness :
  (run_defaults cb_oops store0
   = (Val (Some (errorString "oops")),
      set_guarded breaker_defaults (mkGuarded 0 (mkState Closed 0 1 0))
        (bump store0)) /\
   run_defaults cb_nil store_streak
   = (Val None,
      set_guarded breaker_defaults (mkGuarded 0 (mkState Closed 0 0 0))
        (bump store_streak)) /\
   run_defaults cb_nil store0 = (Val None, bump store0)) /\
  (Failures
     (state
        (guarded breaker_defaults
           (snd (invoke 4 (run_defaults (ret (Some (errorString "oops"))))
                   store0)))) = 4 /\
   observed breaker_defaults
     (snd (invoke 5 (run_defaults (ret (Some (errorString "oops")))) store0))
   = Open).
Proof.
  destruct (C1_closed_outcome_accounting (fun v : string => v) clock_now 1
              (errorString "oops")) as (Hgen & Hdef & _).
  split; [split; [|split]|].
  - destruct (Hgen breaker_defaults cb_oops store0) as (H & _ & _ & _ & _);
      [vm_compute; reflexivity | vm_compute; reflexivity |].
    unfold run_defaults. rewrite H by reflexivity. vm_compute. reflexivity.
  - destruct (Hgen breaker_defaults cb_nil store_streak) as (_ & H & _ & _ & _);
      [vm_compute; reflexivity | vm_compute; reflexivity |].
    unfold run_defaults. rewrite H; [| reflexivity | vm_compute; discriminate].
    vm_compute. reflexivity.
  - destruct (Hgen breaker_defaults cb_nil store0) as (_ & _ & H & _ & _);
      [vm_compute; reflexivity | vm_compute; reflexivity |].
    unfold run_defaults. rewrite H; reflexivity.
  - destruct (Hdef store0) as (_ & _ & H4 & _ & H5 & _); [reflexivity|].
    split; [exact H4|]. vm_compute. reflexivity.
Defined.

(** C3 on [TestWithDefaults]: with the clock moved by the timeout the
    breaker is observed half-open; a failing call then reopens it with a
    fresh expiry, and a succeeding call closes it. A call let in on the
    fresh breaker, during which the breaker trips and the timeout passes,
    returns its [nil] and writes nothing. *)
Lemma C3_observed_status_half_open_witness :
  (State_Status (mkState Open 60 0 0) 60 = HalfOpen /\
   State_Status (mkState Open 60 0 0) 59 = Open /\
   observed breaker_defaults store_half_open = HalfOpen) /\
  run_defaults cb_oops store_half_open
  = (Val (Some (errorString "oops")),
     set_guarded breaker_defaults
       (mkGuarded 0 (mkState Open (60 * Second + 60 * Second) 0 0))
       (bump store_half_open)) /\
  run_defaults cb_nil store_half_open
  = (Val None,
     set_guarded breaker_defaults (mkGuarded 0 (mkState Closed 0 0 0))
       (bump store_half_open)) /\
  run_defaults cb_trip_wait store0 = (Val None, store_half_open).
Proof.
  split; [|split; [|split]]; cycle 3.
  - destruct (C3_observed_status_half_open (fun v : string => v)
                breaker_defaults cb_trip_wait store0)
      as (_ & H & _).
    destruct H as (_ & _ & H);
      [vm_compute; reflexivity | vm_compute; reflexivity |].
    unfold run_defaults. rewrite H; reflexivity.
  - destruct (C3_observed_status_half_open (fun v : string => v)
                breaker_defaults cb_nil store_half_open)
      as (_ & _ & H & _ & _ & _ & _ & _ & _).
    destruct (H (mkState Open 60 0 0) 60) as (H1 & _ & _).
    destruct (H (mkState Open 60 0 0) 59) as (_ & H2 & _).
    split; [apply H1; split; [reflexivity | simpl; lia] |].
    split; [apply H2; intros [_ ?]; simpl in *; lia |].
    vm_compute. reflexivity.
  - destruct (C3_observed_status_half_open (fun v : string => v)
                breaker_defaults cb_oops store_half_open)
      as (_ & _ & _ & _ & _ & H & _ & _ & _).
    destruct H as (H & _);
      [vm_compute; reflexivity | vm_compute; reflexivity
      | vm_compute; reflexivity |].
    unfold run_defaults. rewrite H by reflexivity. vm_compute. reflexivity.
  - destruct (C3_observed_status_half_open (fun v : string => v)
                breaker_defaults cb_nil store_half_open)
      as (_ & _ & _ & _ & _ & H & _ & _ & _).
    destruct H as (_ & H);
      [vm_compute; reflexivity | vm_compute; reflexivity
      | vm_compute; reflexivity |].
    unfold run_defaults. rewrite H by reflexivity. vm_compute. reflexivity.
Defined.

(** C5 on [TestWithDefaults]: the first call on the half-open breaker takes
    the one slot and runs, the next is rejected, and of four calls asking
    for a slot, two before the first one closes the breaker and two after,
    no stretch grants more than one. *)
Lemma C5_half_open_admission_cap_witness :
  (requests (guarded breaker_defaults
               (slot_taken breaker_defaults store_half_open)) = 0 + 1 /\
   fst (run_defaults cb_nil store_half_open) = Val None /\
   counts (world (snd (run_defaults cb_nil store_half_open))) = 6%nat) /\
  run_defaults cb_nil store_saturated
  = (Val (Some ErrBreakerOpen), store_saturated) /\
  Forall (fun granted => Z.of_nat granted <= 1)
    (windows (PanicValue := string) breaker_defaults
       [Attempt; Elsewhere bump; Attempt;
        Complete (state (guarded breaker_defaults store_half_open)) None;
        Attempt; Attempt]
       store_half_open 0).
Proof.
  assert (Hb : Breaker_ok breaker_defaults).
  { vm_compute. repeat split; discriminate. }
  assert (Hok : Guarded_ok breaker_defaults
                  (guarded breaker_defaults store_half_open)).
  { vm_compute. repeat split; discriminate. }
  assert (Hsat : Guarded_ok breaker_defaults
                   (guarded breaker_defaults store_saturated)).
  { vm_compute. repeat split; discriminate. }
  split; [|split].
  - destruct (C5_half_open_admission_cap (fun v : string => v)
                breaker_defaults cb_nil store_half_open Hb Hok)
      as (H & _ & _ & _); [vm_compute; reflexivity|].
    destruct H as [H1 H2]; [vm_compute; reflexivity|].
    split; [exact H1|].
    unfold run_defaults. rewrite H2. split; reflexivity.
  - destruct (C5_half_open_admission_cap (fun v : string => v)
                breaker_defaults cb_nil store_saturated Hb Hsat)
      as (_ & H & _ & _); [vm_compute; reflexivity|].
    apply H. vm_compute. discriminate.
  - destruct (C5_half_open_admission_cap (fun v : string => v)
                breaker_defaults cb_nil store_half_open Hb Hok)
      as (_ & _ & _ & H); [vm_compute; reflexivity|].
    apply H; [|exact Hok]. repeat constructor.
Defined.


(** ** The caller *)

Section Caller_properties.

Context {W : Type} {PanicValue : Type}.
Variable Sprint : PanicValue -> string.

Local Abbreviation CB := (CallFn (W := W) (PanicValue := PanicValue)).
Local Abbreviation St := (Store (W := W)).

Lemma bind_ret_r {A : Type} (m : M (W := W) (PanicValue := PanicValue) A)
    (s : St) :
  bind m ret s = m s.
Proof. unfold bind, ret. by destruct (m s) as [[a|v] s1]. Qed.

Lemma Caller_Call_eq (race : Race) (c : Caller) (cb : CB) (s : St) :
  Caller_Call Sprint race c cb s
  = match composed Sprint race c cb s with
    | (Val err, s1) =>
        if Fallback_UseFallback (fallback c) err
        then Fallback_Call (fallback c) s1
        else (Val err, s1)
    | (Panic v, s1) => (Panic v, s1)
    end.
Proof.
  unfold Caller_Call, composed, bind, ret.
  destruct (Timer_Run _ _ _ _ s) as [[err|v] s1]; [|reflexivity].
  by destruct (Fallback_UseFallback (fallback c) err).
Qed.

(** When the predicate of the fallback rejects [nil], as the default does,
    the code and the specification's wording agree. *)
Lemma Caller_Call_spec_agree (race : Race) (c : Caller) (cb : CB) (s : St) :
  Fallback_UseFallback (fallback c) None = false ->
  Caller_Call Sprint race c cb s = Caller_Call_spec Sprint race c cb s.
Proof.
  intros Hnil. unfold Caller_Call, Caller_Call_spec, composed, bind.
  destruct (Timer_Run _ _ _ _ s) as [[[e|]|v] s1]; simpl; try reflexivity.
  by rewrite Hnil.
Qed.

(** C6, as the code has it. [Caller.Call] is the composition
    [Timer.Run(Breaker.Run(Retrier.Run(cb)))] with the fallback outermost:
    when [UseFallback] accepts the composed result the fallback operation's
    result is returned, otherwise the composed result is returned unchanged;
    [UseFallback] is asked about a [nil] result too, and with a predicate
    that rejects [nil], as the default one does, the fallback replaces
    exactly the non-nil errors that it accepts. Every absent primitive is
    the identity wrapper, so that a caller with only a retrier is that
    retrier. *)
Theorem C6_caller_composition (race : Race) (c : Caller) (cb : CB) (s : St) :
  composed Sprint race c cb
  = Timer_Run Sprint race (timer c)
      (Breaker_Run Sprint (breaker c) (Retrier_Run (retrier c) cb)) /\
  Caller_Call Sprint race c cb s
  = match composed Sprint race c cb s with
    | (Val err, s1) =>
        if Fallback_UseFallback (fallback c) err
        then Fallback_Call (fallback c) s1
        else (Val err, s1)
    | (Panic v, s1) => (Panic v, s1)
    end /\
  (Fallback_UseFallback (fallback c) None = false ->
   Caller_Call Sprint race c cb s = Caller_Call_spec Sprint race c cb s) /\
  (forall err,
     Fallback_UseFallback (W := W) (PanicValue := PanicValue)
       (Some (fallback_New None [])) err
     = not_nil err) /\
  Timer_Run Sprint race None cb = cb /\
  Breaker_Run Sprint None cb = cb /\
  Retrier_Run None cb = cb /\
  (forall err,
     Fallback_UseFallback (W := W) (PanicValue := PanicValue) None err
     = false) /\
  (forall (dep nm : string) (r : option Retrier),
     Caller_Call Sprint race (Caller_WithRetrier (errcat_New dep nm) r) cb s
     = Retrier_Run r cb s).
Proof.
  repeat split.
  - apply Caller_Call_eq.
  - apply Caller_Call_spec_agree.
  - intros dep nm r. unfold Caller_Call. simpl. apply bind_ret_r.
Qed.

End Caller_properties.

(** C6 as worded is not what the code does: with a predicate that accepts
    [nil], the fallback runs after a successful call, and its error
    replaces the [nil] that the wording keeps. *)
Lemma C6_counterexample :
  Caller_Call (fun v : string => v) DoneFirst caller_always cb_nil store0
  = (Val (Some (errorString "fallback failed")), bump store0) /\
  Caller_Call_spec (fun v : string => v) DoneFirst caller_always cb_nil store0
  = (Val None, bump store0) /\
  Caller_Call (fun v : string => v) DoneFirst caller_always cb_nil store0
  <> Caller_Call_spec (fun v : string => v) DoneFirst caller_always cb_nil
       store0.
Proof.
  split; [reflexivity|]. split; [reflexivity|]. discriminate.
Qed.

(** C6 on [TestCallerWithOptions]: three attempts, then the fallback, once,
    and [nil]; the breaker has counted one failure. *)
Lemma C6_caller_composition_witness :
  Caller_Call (fun v : string => v) DoneFirst caller_options cb_oops store0
  = Caller_Call_spec (fun v : string => v) DoneFirst caller_options cb_oops
      store0 /\
  fst (Caller_Call (fun v : string => v) DoneFirst caller_options cb_oops
         store0) = Val None /\
  world (snd (Caller_Call (fun v : string => v) DoneFirst caller_options
                cb_oops store0))
  = mkTestWorld 3 1 0.
Proof.
  destruct (C6_caller_composition (fun v : string => v) DoneFirst
              caller_options cb_oops store0) as (_ & Heq & Hspec & _).
  split; [apply Hspec; reflexivity|].
  rewrite Heq. split; vm_compute; reflexivity.
Defined.

(** ** The daemon *)

Section Daemon_properties.

Context {W : Type} {PanicValue : Type}.
Variable Sprint : PanicValue -> string.
Variable time_Now : W -> Z.
Variable grpc_Dial : string -> W -> option (ClientConn (W := W)).
Variable Sprintf_q : string -> string.

Local Abbreviation CB := (CallFn (W := W) (PanicValue := PanicValue)).
Local Abbreviation St := (Store (W := W)).
Local Abbreviation D := (Daemon (W := W) (PanicValue := PanicValue)).

(** *** The channel *)

Lemma applyD_callCh (opt : optionD) (d : D) :
  callCh (applyD opt d) = callCh d.
Proof. by destruct opt. Qed.

Lemma fold_applyD_callCh (opts : list optionD) (d : D) :
  callCh (fold_left (fun d opt => applyD opt d) opts d) = callCh d.
Proof.
  revert d. induction opts as [|opt opts IH]; intros d; [reflexivity|].
  simpl. by rewrite IH, applyD_callCh.
Qed.

Lemma Daemon_Call_eq (race : Race) (t : Traffic) (d : D) (k : string)
    (cb : CB) (s : St) :
  let caller := default Caller_zero (registry d !! k) in
  let inner := Caller_Call Sprint race caller cb s in
  let err := outcome_err Sprint (fst inner) in
  let record :=
    mkCall (dependency caller)
      (time_Now (world (snd inner)) - time_Now (world s)) err (name caller)
      (time_Now (world s)) in
  Daemon_Call Sprint time_Now race t (Some d) k cb s
  = if Daemon_enabled d then
      if Chan_send_ready (callCh d) (pending t) (worker_receives t)
      then (Returns (Val err), deliver record (snd inner))
      else (Blocks, snd inner)
    else (Returns (Val err), snd inner).
Proof.
  intros caller inner err record. unfold err, record, inner.
  unfold Daemon_Call. fold caller.
  unfold bind, gets, recover, ret. simpl.
  destruct (Caller_Call Sprint race caller cb s) as [[e|v] s1]; reflexivity.
Qed.

(** C8, as the code has it. [NewD] makes the telemetry channel without a
    buffer, whatever the options: its capacity is zero, so a send on it goes
    through exactly when the worker comes to receive, however few records
    are pending. So [Daemon.Call] on an enabled daemon made by [NewD], once
    the caller is done, waits at its send for ever when the worker does not
    receive, nothing being handed over, and returns the caller's error with
    the record handed over when the worker receives. One hundred
    ([bufferSize]) is the length at which the worker flushes its batch. *)
Theorem C8_channel_is_unbuffered (opts : list optionD) :
  let d : D := NewD opts in
  chan_cap (callCh d) = 0%nat /\
  (forall (buffered : nat) (receiver_waiting : bool),
     Chan_send_ready (callCh d) buffered receiver_waiting
     = receiver_waiting) /\
  bufferSize = 100%nat /\
  (Daemon_enabled d = true ->
   forall (race : Race) (t : Traffic) (k : string) (cb : CB) (s : St),
     let caller := default Caller_zero (registry d !! k) in
     let inner := Caller_Call Sprint race caller cb s in
     let out := Daemon_Call Sprint time_Now race t (Some d) k cb s in
     (worker_receives t = false ->
      fst out = Blocks /\ snd out = snd inner) /\
     (worker_receives t = true ->
      fst out = Returns (Val (outcome_err Sprint (fst inner))) /\
      exists record : Call,
        delivered (snd out) = delivered (snd inner) ++ [record])).
Proof.
  intros d.
  assert (H : callCh d = mkChan 0).
  { unfold d, NewD. by rewrite fold_applyD_callCh. }
  assert (Hready : forall (buffered : nat) (receiver_waiting : bool),
            Chan_send_ready (callCh d) buffered receiver_waiting
            = receiver_waiting).
  { intros buffered w. rewrite H. unfold Chan_send_ready. simpl.
    by rewrite orb_false_r. }
  split; [by rewrite H|]. split; [exact Hready|]. split; [reflexivity|].
  intros Hon race t k cb s caller inner out. unfold out.
  rewrite Daemon_Call_eq, Hon, Hready. fold caller inner. split.
  - intros ->. by split.
  - intros ->. split; [reflexivity|]. by eexists.
Qed.

(** *** The worker *)

Lemma Daemon_send_nil (d : D) (s : St) :
  Daemon_send grpc_Dial d [] s = (Val d, s).
Proof. reflexivity. Qed.

Lemma client_RecordCalls_nil (c : option client) (e sv : string) (s : St) :
  client_RecordCalls (PanicValue := PanicValue) c
    (mkRecordCallsRequest [] e sv) s
  = (Val None, s).
Proof. by destruct c. Qed.

(** With the repository's client, dispatching a batch that is not empty
    puts one request with that batch on the wire. *)
Lemma Daemon_send_transmits (d : D) (cc : ClientConn) (cn : option ClientConn)
    (calls : list Call) (s : St) :
  client_ d
  = Some (client_Client (Some (mkClient (aPIClient_RecordCalls cc) cn))) ->
  calls <> [] ->
  Daemon_send grpc_Dial d calls s
  = (Val d,
     transmit
       (RecordCallsRequest_toProto
          (mkRecordCallsRequest calls (env d) (service d))) s).
Proof.
  intros Hc Hne. unfold Daemon_send, Daemon_safeClient.
  destruct calls as [|c calls]; [done|].
  rewrite Hc. reflexivity.
Qed.

(** Below the threshold the worker only collects. *)
Lemma consume_loop_collects (cs : list Call) (evs : list Event) (d : D)
    (calls : list Call) (s : St) :
  (length calls + length cs < bufferSize)%nat ->
  consume_loop grpc_Dial (map Received cs ++ evs) d calls s
  = consume_loop grpc_Dial evs d (calls ++ cs) s.
Proof.
  revert calls. induction cs as [|c cs IH]; intros calls Hlen.
  - simpl. by rewrite app_nil_r.
  - simpl in *.
    destruct (Nat.eqb_spec (length (calls ++ [c])) bufferSize) as [Heq|_].
    { rewrite length_app in Heq. simpl in Heq. lia. }
    rewrite IH; [|rewrite length_app; simpl; lia].
    by rewrite <- app_assoc.
Qed.

(** The hundredth record makes the worker dispatch the batch and start an
    empty one. *)
Lemma consume_loop_flushes (cs : list Call) (evs : list Event) (d : D)
    (s : St) :
  length cs = bufferSize ->
  consume_loop grpc_Dial (map Received cs ++ evs) d [] s
  = (d' <- Daemon_send grpc_Dial d cs ;; consume_loop grpc_Dial evs d' []) s.
Proof.
  intros Hlen.
  destruct (decide (cs = [])) as [->|Hne]; [discriminate|].
  destruct (exists_last Hne) as (cs' & c & ->).
  rewrite length_app in Hlen. simpl in Hlen.
  rewrite map_app, <- app_assoc.
  rewrite consume_loop_collects by (simpl; lia).
  simpl.
  destruct (Nat.eqb_spec (length (cs' ++ [c])) bufferSize) as [_|Hn];
    [reflexivity|].
  rewrite length_app in Hn. simpl in Hn. lia.
Qed.

(** C9. The batching pipeline of the worker. A record taken from the
    channel is appended to the batch; when that makes the batch one hundred
    long the batch is dispatched and an empty one started, otherwise
    nothing is dispatched; on cancellation the batch is dispatched and the
    worker returns. So the first hundred records are dispatched as one
    batch. Dispatching an empty batch transmits nothing: [send] returns at
    once and so does the client's [RecordCalls]; a batch that is not empty
    goes out as one request. *)
Theorem C9_batching_pipeline (d : D) (evs : list Event) (calls : list Call)
    (s : St) :
  (forall c : Call,
     length (calls ++ [c]) = bufferSize ->
     consume_loop grpc_Dial (Received c :: evs) d calls s
     = (d' <- Daemon_send grpc_Dial d (calls ++ [c]) ;;
        consume_loop grpc_Dial evs d' []) s) /\
  (forall c : Call,
     length (calls ++ [c]) <> bufferSize ->
     consume_loop grpc_Dial (Received c :: evs) d calls s
     = consume_loop grpc_Dial evs d (calls ++ [c]) s) /\
  consume_loop grpc_Dial (Cancelled :: evs) d calls s
  = (d' <- Daemon_send grpc_Dial d calls ;; ret (Returned d')) s /\
  (forall cs : list Call,
     length cs = bufferSize ->
     consume_loop grpc_Dial (map Received cs ++ evs) d [] s
     = (d' <- Daemon_send grpc_Dial d cs ;;
        consume_loop grpc_Dial evs d' []) s) /\
  (forall cs : list Call,
     (length cs < bufferSize)%nat ->
     consume_loop grpc_Dial (map Received cs) d [] s
     = (Val (Waiting d cs), s)) /\
  bufferSize = 100%nat /\
  (Daemon_enabled d = true ->
   Daemon_consumeCalls grpc_Dial d evs s = consume_loop grpc_Dial evs d [] s) /\
  Daemon_send grpc_Dial d [] s = (Val d, s) /\
  (forall (c : option client) (e sv : string),
     client_RecordCalls (PanicValue := PanicValue) c
       (mkRecordCallsRequest [] e sv) s
     = (Val None, s)) /\
  (forall (cc : ClientConn) (cn : option ClientConn),
     client_ d
     = Some (client_Client (Some (mkClient (aPIClient_RecordCalls cc) cn))) ->
     calls <> [] ->
     Daemon_send grpc_Dial d calls s
     = (Val d,
        transmit
          (RecordCallsRequest_toProto
             (mkRecordCallsRequest calls (env d) (service d))) s)).
Proof.
  split_and!.
  - intros c Hlen. simpl. by rewrite Hlen.
  - intros c Hlen. simpl.
    by destruct (Nat.eqb_spec (length (calls ++ [c])) bufferSize).
  - reflexivity.
  - intros cs Hlen. by apply consume_loop_flushes.
  - intros cs Hlen.
    rewrite <- (app_nil_r (map Received cs)).
    by rewrite consume_loop_collects.
  - reflexivity.
  - intros He. unfold Daemon_consumeCalls. by rewrite He.
  - apply Daemon_send_nil.
  - intros c e sv. apply client_RecordCalls_nil.
  - intros cc cn. apply Daemon_send_transmits.
Qed.

(** *** Calls on a key without a caller *)



Lemma fold_applyD_registry (opts : list optionD) (d : D) :
  registry (fold_left (fun d opt => applyD opt d) opts d) = registry d.
Proof.
  revert d. induction opts as [|opt opts IH]; intros d; [reflexivity|].
  simpl. rewrite IH. by destruct opt.
Qed.




End Daemon_properties.

(** C8 as worded is not what the code does: the channel that [NewD] makes
    has no room at all, a send with nothing pending and no receiver waiting
    blocks, and so does [Daemon.Call] on an enabled daemon without a worker,
    with nothing pending. *)
Lemma C8_counterexample :
  chan_cap (callCh (NewD (W := TestWorld) (PanicValue := string) []))
  <> 100%nat /\
  Chan_send_ready (callCh (NewD (W := TestWorld) (PanicValue := string) []))
    0 false = false /\
  (pending no_worker < 100)%nat /\
  daemon_call no_worker (Some daemon_options) "mysql:users.GetUser" cb_nil
    store0
  = (Blocks, bump store0).
Proof.
  split; [discriminate|]. split; [reflexivity|]. split; [simpl; lia|].
  reflexivity.
Qed.

(** C8 as amended, on a daemon with a collector address: without a worker
    [Call] waits at the send, with nothing pending; with the worker at its
    receive it returns and the record is handed over. *)
Lemma C8_channel_is_unbuffered_witness :
  fst (daemon_call no_worker (Some daemon_unreachable) "mysql:users.GetUser"
         cb_nil store0) = Blocks /\
  fst (daemon_call worker_waiting (Some daemon_unreachable)
         "mysql:users.GetUser" cb_nil store0) = Returns (Val None).
Proof.
  destruct (C8_channel_is_unbuffered (fun v : string => v) clock_now
              [WithServerAddr "localhost:8000"]) as (_ & _ & _ & H).
  split.
  - destruct (H eq_refl DoneFirst no_worker "mysql:users.GetUser" cb_nil
                store0) as [[H1 _] _]; [reflexivity|].
    exact H1.
  - destruct (H eq_refl DoneFirst worker_waiting "mysql:users.GetUser" cb_nil
                store0) as [_ [H1 _]]; [reflexivity|].
    exact H1.
Defined.

(** C9 on a daemon with a client: ninety-nine records stay in the batch,
    the hundredth sends all of them in one request, and a cancellation
    sends what is left. *)
Lemma C9_batching_pipeline_witness :
  consume_loop dial_ok (map Received (replicate 99 call_oops)) daemon_client []
    store0
  = (Val (Waiting daemon_client (replicate 99 call_oops)), store0) /\
  consume_loop dial_ok (map Received (replicate 100 call_oops)) daemon_client
    [] store0
  = (Val (Waiting daemon_client []),
     transmit
       (RecordCallsRequest_toProto
          (mkRecordCallsRequest (replicate 100 call_oops) "dev" "orders"))
       store0) /\
  consume_loop dial_ok [Received call_oops; Cancelled; Received call_oops]
    daemon_client [] store0
  = (Val (Returned daemon_client),
     transmit
       (RecordCallsRequest_toProto
          (mkRecordCallsRequest [call_oops] "dev" "orders")) store0) /\
  Daemon_consumeCalls dial_ok daemon_client [Cancelled] store0
  = (Val (Returned daemon_client), store0).
Proof.
  split; [|split; [|split]].
  - destruct (C9_batching_pipeline dial_ok daemon_client [] [] store0)
      as (_ & _ & _ & _ & H & _).
    apply H. vm_compute. lia.
  - destruct (C9_batching_pipeline dial_ok daemon_client [] [] store0)
      as (_ & _ & _ & H & _).
    rewrite <- (app_nil_r (map Received (replicate 100 call_oops))).
    rewrite H by reflexivity.
    destruct (C9_batching_pipeline dial_ok daemon_client []
                (replicate 100 call_oops) store0)
      as (_ & _ & _ & _ & _ & _ & _ & _ & _ & Hs).
    unfold bind. rewrite (Hs conn_ok (Some conn_ok)); [reflexivity..|].
    discriminate.
  - destruct (C9_batching_pipeline dial_ok daemon_client
                [Cancelled; Received call_oops] [] store0)
      as (_ & Hr & _).
    rewrite (Hr call_oops) by (vm_compute; lia).
    destruct (C9_batching_pipeline dial_ok daemon_client
                [Received call_oops] [call_oops] store0)
      as (_ & _ & Hc & _ & _ & _ & _ & _ & _ & Hs).
    simpl app. rewrite Hc. unfold bind.
    rewrite (Hs conn_ok (Some conn_ok)); [reflexivity..|]. discriminate.
  - destruct (C9_batching_pipeline dial_ok daemon_client [Cancelled] []
                store0) as (_ & _ & _ & _ & _ & _ & He & _).
    destruct (C9_batching_pipeline dial_ok daemon_client [] [] store0)
      as (_ & _ & Hc & _ & _ & _ & _ & Hn & _).
    rewrite He by reflexivity. rewrite Hc. unfold bind. rewrite Hn. reflexivity.
Defined.


(** ** Panics *)

Section Panic_properties.

Context {W : Type} {PanicValue : Type}.
Variable Sprint : PanicValue -> string.
Variable time_Now : W -> Z.

Local Abbreviation CB := (CallFn (W := W) (PanicValue := PanicValue)).
Local Abbreviation St := (Store (W := W)).

(** The barrier of the breaker. *)
Lemma Breaker_Run_panic (b : Breaker) (cb : CB) (s : St) (v : PanicValue) :
  (observed b s = Closed /\ fst (cb s) = Panic v) \/
  (observed b s = HalfOpen /\ requests (guarded b s) < maxRequests b /\
   fst (cb (slot_taken b s)) = Panic v) ->
  fst (Breaker_Run Sprint (Some b) cb s) = Val (Some (errorString (Sprint v))).
Proof.
  intros [[Hobs Hp] | (Hobs & Hfree & Hp)].
  - rewrite (Breaker_Run_Closed Sprint b cb s Hobs), accounted_eq.
    simpl. by rewrite Hp.
  - rewrite (Breaker_Run_slot Sprint b cb s Hobs Hfree), accounted_eq.
    simpl. by rewrite Hp.
Qed.

(** The barrier of the timer's worker. *)
Lemma Timer_Run_panic (t : Timer) (cb : CB) (s : St) (v : PanicValue) :
  0 < duration t ->
  fst (cb s) = Panic v ->
  Timer_Run Sprint DoneFirst (Some t) cb s
  = (Val (Some (errorString (Sprint v))), snd (cb s)).
Proof.
  intros Hd Hp. unfold Timer_Run.
  destruct (Z.leb_spec (duration t) 0); [lia|].
  unfold recover. destruct (cb s) as [o s1]. simpl in *. by subst.
Qed.

(** The timer's synchronous path has none. *)
Lemma Timer_Run_synchronous (race : Race) (t : option Timer) (cb : CB) :
  t = None \/ (exists t', t = Some t' /\ duration t' <= 0) ->
  Timer_Run Sprint race t cb = cb.
Proof.
  intros [-> | (t' & -> & Hd)]; [reflexivity|].
  unfold Timer_Run. by destruct (Z.leb_spec (duration t') 0); [|lia].
Qed.

(** Nor has the retrier: the first attempt's panic unwinds through it. *)
Lemma Retrier_Run_panic (r : option Retrier) (cb : CB) (s : St)
    (v : PanicValue) :
  r = None \/ (exists r', r = Some r' /\ 1 <= maxAttempts r') ->
  fst (cb s) = Panic v ->
  Retrier_Run r cb s = (Panic v, snd (cb s)).
Proof.
  intros [-> | (r' & -> & Hm)] Hp; simpl.
  - destruct (cb s); simpl in *; by subst.
  - destruct (Z.to_nat (maxAttempts r')) as [|n] eqn:Hn; [lia|].
    simpl. unfold bind. destruct (cb s); simpl in *; by subst.
Qed.

(** When its send goes through the daemon returns what the caller returns,
    or the error made of the caller's panic; when it does not the daemon
    waits. It never panics. *)
Lemma Daemon_Call_result (race : Race) (t : Traffic) (d : Daemon)
    (key : string) (cb : CB) (s : St) :
  let caller := default Caller_zero (registry d !! key) in
  fst (Daemon_Call Sprint time_Now race t (Some d) key cb s)
  = if send_completes d t
    then Returns (Val (outcome_err Sprint
                         (fst (Caller_Call Sprint race caller cb s))))
    else Blocks.
Proof.
  intros caller. rewrite Daemon_Call_eq. fold caller. unfold send_completes.
  destruct (Daemon_enabled d); simpl; [|reflexivity].
  by destruct (Chan_send_ready (callCh d) (pending t) (worker_receives t)).
Qed.

(** C2, as the code has it. A panic with value [v] in the operation becomes
    a non-nil error whose message is the string form of [v] in
    [Breaker.Run] on a non-nil breaker that lets the call in, in [Timer.Run]
    on a non-nil timer of positive duration when the worker delivers before
    the deadline, and in [Daemon.Call] on a non-nil daemon whenever the
    caller panics, as it does when it has neither timer nor breaker, and
    [Call] returns: it returns, with the caller's error or the error made of
    the caller's panic, when its send goes through, that is when the daemon
    is not enabled or the channel takes the record, and waits for ever when
    it does not; it never panics itself. [Retrier.Run],
    [Fallback.Call], [Timer.Run] on its synchronous path and the absent
    breaker and daemon have no barrier: the panic unwinds through them. *)
Theorem C2_panic_barriers (cb : CB) (s : St) (v : PanicValue) :
  (forall b : Breaker,
     (observed b s = Closed /\ fst (cb s) = Panic v) \/
     (observed b s = HalfOpen /\ requests (guarded b s) < maxRequests b /\
      fst (cb (slot_taken b s)) = Panic v) ->
     returns_error (Sprint v) (fst (Breaker_Run Sprint (Some b) cb s))) /\
  (forall t : Timer,
     0 < duration t ->
     fst (cb s) = Panic v ->
     returns_error (Sprint v)
       (fst (Timer_Run Sprint DoneFirst (Some t) cb s))) /\
  (forall (race : Race) (t : Traffic) (d : Daemon) (key : string),
     let caller := default Caller_zero (registry d !! key) in
     let out := fst (Daemon_Call Sprint time_Now race t (Some d) key cb s) in
     (send_completes d t = true ->
      out = Returns (Val (outcome_err Sprint
                            (fst (Caller_Call Sprint race caller cb s))))) /\
     (send_completes d t = false -> out = Blocks) /\
     (forall v' : PanicValue, out <> Returns (Panic v')) /\
     (send_completes d t = true ->
      fst (Caller_Call Sprint race caller cb s) = Panic v ->
      ends_with_error (Sprint v) out) /\
     (send_completes d t = true ->
      timer caller = None ->
      breaker caller = None ->
      retrier caller = None \/
      (exists r', retrier caller = Some r' /\ 1 <= maxAttempts r') ->
      fst (cb s) = Panic v ->
      ends_with_error (Sprint v) out)) /\
  (fst (cb s) = Panic v ->
   (forall r : option Retrier,
      r = None \/ (exists r', r = Some r' /\ 1 <= maxAttempts r') ->
      Retrier_Run r cb s = (Panic v, snd (cb s))) /\
   (forall (race : Race) (t : option Timer),
      t = None \/ (exists t', t = Some t' /\ duration t' <= 0) ->
      Timer_Run Sprint race t cb s = (Panic v, snd (cb s))) /\
   (forall p : option error -> bool,
      Fallback_Call (Some (mkFallback p cb)) s = (Panic v, snd (cb s))) /\
   Breaker_Run Sprint None cb s = (Panic v, snd (cb s)) /\
   (forall (race : Race) (t : Traffic) (key : string),
      Daemon_Call Sprint time_Now race t None key cb s
      = (Returns (Panic v), snd (cb s)))).
Proof.
  assert (Hcb : fst (cb s) = Panic v -> cb s = (Panic v, snd (cb s))).
  { destruct (cb s); simpl; by intros ->. }
  split; [|split; [|split]].
  - intros b H. exists (errorString (Sprint v)).
    by rewrite (Breaker_Run_panic b cb s v H).
  - intros t Hd Hp. exists (errorString (Sprint v)).
    by rewrite (Timer_Run_panic t cb s v Hd Hp).
  - intros race t d key caller out.
    assert (Hout : out = if send_completes d t
                         then Returns
                                (Val (outcome_err Sprint
                                        (fst (Caller_Call Sprint race caller
                                                cb s))))
                         else Blocks)
      by apply Daemon_Call_result.
    assert (Hbarrier : send_completes d t = true ->
                       fst (Caller_Call Sprint race caller cb s) = Panic v ->
                       ends_with_error (Sprint v) out).
    { intros Hsend Hp. exists (errorString (Sprint v)).
      by rewrite Hout, Hsend, Hp. }
    split; [by intros Hsend; rewrite Hout, Hsend|].
    split; [by intros Hsend; rewrite Hout, Hsend|].
    split; [intros v'; rewrite Hout; by destruct (send_completes d t)|].
    split; [exact Hbarrier|].
    intros Hsend Ht Hb Hr Hp. apply Hbarrier; [exact Hsend|].
    unfold Caller_Call. rewrite Ht, Hb. simpl. unfold bind.
    by rewrite (Retrier_Run_panic (retrier caller) cb s v Hr Hp).
  - intros Hp. repeat split.
    + intros r Hr. by apply Retrier_Run_panic.
    + intros race t Ht. rewrite (Timer_Run_synchronous race t cb Ht). auto.
    + intros p. simpl. auto.
    + simpl. auto.
    + intros race t key. simpl. by rewrite Hp.
Qed.

End Panic_properties.

(** C2 is not what the code does: a panic goes straight through the
    retrier, through the timer when it is absent or has no positive
    duration, and through the fallback; the daemon, for a caller with a
    breaker and a fallback, returns the fallback's [nil]; and an enabled
    daemon without a worker returns nothing at all. *)
Lemma C2_counterexample :
  ~ returns_error "oops"
      (fst (Retrier_Run (Some (retrier_New [])) cb_panic store0)) /\
  ~ returns_error "oops"
      (fst (Timer_Run (fun v : string => v) DoneFirst None cb_panic store0)) /\
  ~ returns_error "oops"
      (fst (Timer_Run (fun v : string => v) DoneFirst (Some (timer_New 0))
              cb_panic store0)) /\
  ~ returns_error "oops"
      (fst (Fallback_Call (Some (fallback_New (Some cb_panic) [])) store0)) /\
  ~ ends_with_error "oops"
      (fst (daemon_call worker_waiting (Some daemon_options)
              "google:clients.Google.Search" cb_panic store0)) /\
  ~ ends_with_error "oops"
      (fst (daemon_call no_worker (Some daemon_options) "mysql:users.GetUser"
              cb_panic store0)).
Proof.
  repeat split; intros [e [H _]]; vm_compute in H; discriminate.
Qed.

(** C2 as amended, on the panicking callback of the tests: the breaker, the
    timer's worker and the daemon (here for a key with no caller, with the
    worker at its receive) return the error "oops"; the retrier, the timer
    without a duration and the fallback let the panic through. *)
Lemma C2_panic_barriers_witness :
  returns_error "oops" (fst (run_defaults cb_panic store0)) /\
  returns_error "oops" (fst (run_defaults cb_panic store_half_open)) /\
  returns_error "oops"
    (fst (Timer_Run (fun v : string => v) DoneFirst
            (Some (timer_New (50 * 1000000))) cb_panic store0)) /\
  ends_with_error "oops"
    (fst (daemon_call worker_waiting (Some daemon_options)
            "mysql:users.GetUser" cb_panic store0)) /\
  Retrier_Run (Some (retrier_New [])) cb_panic store0
  = (Panic "oops", store0) /\
  Timer_Run (fun v : string => v) DoneFirst (Some (timer_New 0)) cb_panic store0
  = (Panic "oops", store0) /\
  Fallback_Call (Some (mkFallback not_nil cb_panic)) store0
  = (Panic "oops", store0).
Proof.
  destruct (C2_panic_barriers (fun v : string => v) clock_now cb_panic store0
              "oops") as (Hb & Ht & Hd & Hp).
  destruct (C2_panic_barriers (fun v : string => v) clock_now cb_panic
              store_half_open "oops") as (Hb' & _).
  split; [|split; [|split; [|split; [|split; [|split]]]]].
  - apply Hb. left. split; reflexivity.
  - apply Hb'. right.
    split; [vm_compute; reflexivity|].
    split; [vm_compute; reflexivity | reflexivity].
  - apply Ht; [vm_compute; reflexivity | reflexivity].
  - destruct (Hd DoneFirst worker_waiting daemon_options
                "mysql:users.GetUser") as (_ & _ & _ & _ & Hplain).
    apply Hplain;
      [reflexivity | reflexivity | reflexivity | by left | reflexivity].
  - destruct (Hp eq_refl) as (Hr & _).
    apply Hr. right. exists (retrier_New []). split; [reflexivity|].
    vm_compute. discriminate.
  - destruct (Hp eq_refl) as (_ & Hs & _).
    apply Hs. right. exists (timer_New 0). split; [reflexivity|].
    vm_compute. discriminate.
  - destruct (Hp eq_refl) as (_ & _ & Hf & _). apply Hf.
Defined.

(** * Further properties *)

(** ** The breaker's options *)

Section Breaker_options.

Context {W : Type}.
Variable time_Now : W -> Z.

Lemma chosen_snoc {A O : Type} (sel : O -> option A) (opts : list O) (o : O) :
  chosen sel (opts ++ [o])
  = match sel o with Some a => Some a | None => chosen sel opts end.
Proof.
  unfold chosen. rewrite omap_app. simpl.
  destruct (sel o); simpl; [by rewrite last_snoc | by rewrite app_nil_r].
Qed.

(** X3. What [New] makes of its options. Each setting of the breaker is
    decided by the last option in the list that names it, the others
    leaving it alone; a zero count or duration and a nil function there stand
    for the default, so that a later zero undoes an earlier value; with no
    such option the setting is the default. *)
Theorem X3_breaker_New_settings (p : positive) (opts : list breaker_option) :
  let b := breaker_New time_Now p opts in
  isFailure b = or_default_fn defaultIsFailure (chosen sel_isFailure opts) /\
  maxFailures b = or_default defaultMaxFailures (chosen sel_maxFailures opts) /\
  maxRequests b = or_default defaultMaxRequests (chosen sel_maxRequests opts) /\
  now b = or_default_fn time_Now (chosen sel_now opts) /\
  timeout b = or_default defaultTimeout (chosen sel_timeout opts) /\
  ptr b = p.
Proof.
  unfold breaker_New. induction opts as [|opt opts IH] using rev_ind.
  - by simpl.
  - rewrite fold_left_app. simpl. rewrite !chosen_snoc.
    destruct IH as (H1 & H2 & H3 & H4 & H5 & H6).
    destruct opt as [f|n|n|f|d]; simpl; split_and!; try assumption;
      try reflexivity; by destruct f.
Qed.

End Breaker_options.

(** ** The breaker over many calls *)

Section Breaker_runs.

Context {W : Type} {PanicValue : Type}.
Variable Sprint : PanicValue -> string.
Variable b : Breaker (W := W).

Local Abbreviation CB := (CallFn (W := W) (PanicValue := PanicValue)).
Local Abbreviation St := (Store (W := W)).

(** The store after [j + 1] calls is the store after one more call. *)
Lemma invoke_snoc (j : nat) (m : CB) (s : St) :
  snd (invoke (S j) m s) = snd (m (snd (invoke j m s))).
Proof.
  revert s. induction j as [|j IH]; intros s.
  - rewrite invoke_S. reflexivity.
  - rewrite invoke_S. cbn [snd]. rewrite IH.
    by rewrite (invoke_S m j s).
Qed.

Lemma handleError_Open (snapshot : State) (err : option error) (s : St) :
  observed b s = Open ->
  handleError (PanicValue := PanicValue) b snapshot err s = (Val tt, s).
Proof.
  unfold observed. intros Hobs. unfold handleError.
  destruct (bool_decide (status snapshot = Closed)
            && negb (not_nil err && isFailure b err)
            && (Failures snapshot =? 0)); [reflexivity|].
  unfold clock, bind, gets, ret. simpl. by rewrite Hobs.
Qed.

(** *** What every call keeps *)

Lemma slot_taken_exclusive (s : St) :
  Counters_exclusive (guarded b s) ->
  Counters_exclusive (guarded b (slot_taken b s)).
Proof. unfold slot_taken. by rewrite guarded_set_guarded. Qed.

Lemma handleError_exclusive (snapshot : State) (err : option error) (s : St) :
  Counters_exclusive (guarded b s) ->
  Counters_exclusive
    (guarded b (snd (handleError (PanicValue := PanicValue) b snapshot err s))).
Proof.
  intros Hex. pose proof Hex as [Hc Ho]. unfold handleError.
  destruct (bool_decide (status snapshot = Closed)
            && negb (not_nil err && isFailure b err)
            && (Failures snapshot =? 0)); [exact Hex|].
  unfold update_state, shouldOpen, setState, clock, bind, gets, modify, ret.
  simpl. unfold State_Status.
  destruct (status (state (guarded b s))) eqn:Hstat; simpl.
  - destruct (not_nil err && isFailure b err); simpl;
      rewrite ?guarded_set_guarded; simpl;
      try destruct (maxFailures b <=? _); simpl;
      rewrite ?guarded_set_guarded; unfold Counters_exclusive; simpl;
      rewrite ?Hstat; split; intros; auto; congruence.
  - destruct (not_nil err && isFailure b err); simpl;
      rewrite ?guarded_set_guarded; simpl;
      try destruct (uint_incr _ =? maxRequests b); simpl;
      rewrite ?guarded_set_guarded; unfold Counters_exclusive; simpl;
      rewrite ?Hstat; split; intros; auto; congruence.
  - destruct (expiresAt (state (guarded b s)) <=? now b (world s)); simpl;
      [|exact Hex].
    destruct (not_nil err && isFailure b err); simpl;
      rewrite ?guarded_set_guarded; simpl;
      try destruct (uint_incr _ =? maxRequests b); simpl;
      rewrite ?guarded_set_guarded; unfold Counters_exclusive; simpl;
      rewrite ?Hstat; split; intros; auto; congruence.
Qed.

(** [Run] keeps whatever the slot counter, the accounting and the callback
    keep. *)
Lemma Breaker_Run_preserves (P : Guarded -> Prop) (cb : CB) (s : St) :
  (forall s', P (guarded b s') ->
              requests (guarded b s') < maxRequests b ->
              P (guarded b (slot_taken b s'))) ->
  (forall snapshot err s',
     P (guarded b s') ->
     P (guarded b
          (snd (handleError (PanicValue := PanicValue) b snapshot err s')))) ->
  (forall s', P (guarded b s') -> P (guarded b (snd (cb s')))) ->
  P (guarded b s) ->
  P (guarded b (snd (Breaker_Run Sprint (Some b) cb s))).
Proof.
  intros Hslot Hacc Hcb HP.
  destruct (observed b s) eqn:Hobs.
  - rewrite (Breaker_Run_Closed Sprint b cb s Hobs), accounted_eq. simpl. auto.
  - destruct (Z.le_gt_cases (maxRequests b) (requests (guarded b s)))
      as [Hfull|Hfree].
    + by rewrite (Breaker_Run_saturated Sprint b cb s Hobs Hfull).
    + rewrite (Breaker_Run_slot Sprint b cb s Hobs Hfree), accounted_eq.
      simpl. auto.
  - by rewrite (Breaker_Run_Open Sprint b cb s Hobs).
Qed.

(** X4. The invariants of the guarded fields. For a breaker with positive
    limits, as [New] makes them, and a callback that leaves the breaker
    alone, any number of calls in a row from the state in which [New] leaves
    the breaker keep: the in-flight counter within [maxRequests]; the stored
    status [Closed] or [Open], never [HalfOpen]; the failure count below
    [maxFailures] while closed and zero while open; the success count below
    [maxRequests] while open and zero while closed. *)
Theorem X4_breaker_invariants (cb : CB) (n : nat) (s : St) :
  Breaker_ok b ->
  leaves_alone b cb ->
  guarded b s = Guarded_zero ->
  let g := guarded b (snd (invoke n (Breaker_Run Sprint (Some b) cb) s)) in
  Guarded_ok b g /\ Counters_exclusive g.
Proof.
  intros Hb Hcb Hz.
  set (P := fun g => Guarded_ok b g /\ Counters_exclusive g).
  assert (H0 : P (guarded b s)).
  { rewrite Hz. split; [by apply Guarded_zero_ok | by split]. }
  clear Hz. revert H0. generalize s. clear s.
  induction n as [|n IH]; intros s HP; [exact HP|].
  rewrite invoke_S. cbn [snd]. apply IH.
  apply (Breaker_Run_preserves P); try assumption.
  - intros s' [Hok Hex] Hfree. split; [|by apply slot_taken_exclusive].
    pose proof (canMakeHalfOpenRequest_ok (PanicValue := PanicValue)
                  b s' Hb Hok) as H.
    by rewrite canMakeHalfOpenRequest_free in H.
  - intros snapshot err s' [Hok Hex]. split;
      [by apply handleError_ok | by apply handleError_exclusive].
  - intros s' HP'. by rewrite Hcb.
Qed.

(** *** Calls that are turned away *)

(** X7. While the breaker turns calls away, it turns all of them away:
    with the observed status [Open], or [HalfOpen] with every slot taken,
    any number of calls in a row all return [ErrBreakerOpen], and the store
    after them is the store before them, so that no callback has run and
    the breaker would still turn the next call away. *)
Theorem X7_rejections_repeat (cb : CB) (n : nat) (s : St) :
  observed b s = Open \/
  (observed b s = HalfOpen /\ maxRequests b <= requests (guarded b s)) ->
  invoke n (Breaker_Run Sprint (Some b) cb) s
  = (replicate n (Val (Some ErrBreakerOpen)), s).
Proof.
  intros H. induction n as [|n IH]; [reflexivity|].
  rewrite invoke_S.
  assert (Hrun : Breaker_Run Sprint (Some b) cb s
                 = (Val (Some ErrBreakerOpen), s)).
  { destruct H as [H | [H Hsat]];
      [by apply Breaker_Run_Open | by apply Breaker_Run_saturated]. }
  rewrite Hrun. cbn [fst snd]. rewrite IH. reflexivity.
Qed.

(** *** Outcomes that arrive late *)

(** X8. An outcome that arrives while the breaker is open is returned but
    not accounted for: when a call was let in, on a closed breaker or with a
    half-open slot, and the breaker is observed [Open] when its callback
    is done, [Run] returns the callback's error and writes nothing, failure
    or not. *)
Theorem X8_late_outcome_ignored (cb : CB) (s : St) :
  (observed b s = Closed ->
   observed b (snd (cb s)) = Open ->
   Breaker_Run Sprint (Some b) cb s
   = (Val (outcome_err Sprint (fst (cb s))), snd (cb s))) /\
  (observed b s = HalfOpen ->
   requests (guarded b s) < maxRequests b ->
   observed b (snd (cb (slot_taken b s))) = Open ->
   Breaker_Run Sprint (Some b) cb s
   = (Val (outcome_err Sprint (fst (cb (slot_taken b s)))),
      snd (cb (slot_taken b s)))).
Proof.
  split.
  - intros H0 H1.
    rewrite (Breaker_Run_Closed Sprint b cb s H0), accounted_eq.
    by rewrite handleError_Open.
  - intros H0 Hfree H1.
    rewrite (Breaker_Run_slot Sprint b cb s H0 Hfree), accounted_eq.
    by rewrite handleError_Open.
Qed.

End Breaker_runs.

(** ** Tripping and recovering *)

Section Breaker_trips.

Context {W : Type} {PanicValue : Type}.
Variable Sprint : PanicValue -> string.
Variable b : Breaker (W := W).
Variable cb : CallFn (W := W) (PanicValue := PanicValue).
Hypothesis Hb : Breaker_ok b.
Hypothesis Halone : leaves_alone b cb.

Local Abbreviation St := (Store (W := W)).
Local Abbreviation run := (Breaker_Run Sprint (Some b) cb).

(** One failure on a closed breaker. *)
Lemma closed_failure_step (s : St) :
  always_fails Sprint b cb ->
  status (state (guarded b s)) = Closed ->
  snd (run s)
  = if maxFailures b <=? uint_incr (Failures (state (guarded b s)))
    then set_guarded b
           (mkGuarded 0
              (mkState Open (now b (world (snd (cb s))) + timeout b) 0 0))
           (snd (cb s))
    else set_guarded b
           (mkGuarded (requests (guarded b s))
              (mkState Closed (expiresAt (state (guarded b s)))
                 (uint_incr (Failures (state (guarded b s)))) 0))
           (snd (cb s)).
Proof.
  intros Hfail Hst.
  assert (H0 : observed b s = Closed) by by apply observed_Closed.
  assert (H1 : observed b (snd (cb s)) = Closed).
  { apply observed_Closed. by rewrite Halone. }
  destruct (Breaker_Run_Closed_accounting Sprint b cb s H0 H1) as [Hrun _].
  rewrite (Hrun (Hfail s)). cbn [snd]. by rewrite !Halone.
Qed.

Lemma failures_accumulate (j : nat) (s : St) :
  always_fails Sprint b cb ->
  status (state (guarded b s)) = Closed ->
  0 <= Failures (state (guarded b s)) ->
  Failures (state (guarded b s)) + Z.of_nat j < maxFailures b ->
  let s' := snd (invoke j run s) in
  status (state (guarded b s')) = Closed /\
  Failures (state (guarded b s'))
  = Failures (state (guarded b s)) + Z.of_nat j.
Proof.
  intros Hfail. revert s. induction j as [|j IH]; intros s Hst H0 Hlt.
  - simpl. split; [done | lia].
  - rewrite invoke_S. cbn [snd].
    pose proof (closed_failure_step s Hfail Hst) as Hstep.
    destruct Hb as [[_ Hmax] _].
    rewrite uint_incr_small in Hstep by lia.
    destruct (Z.leb_spec (maxFailures b)
                (Failures (state (guarded b s)) + 1)); [lia|].
    assert (Hg : guarded b (snd (run s))
                 = mkGuarded (requests (guarded b s))
                     (mkState Closed (expiresAt (state (guarded b s)))
                        (Failures (state (guarded b s)) + 1) 0)).
    { rewrite Hstep. by rewrite guarded_set_guarded. }
    destruct (IH (snd (run s))) as [IH1 IH2].
    + by rewrite Hg.
    + rewrite Hg. simpl. lia.
    + rewrite Hg. simpl. lia.
    + split; [exact IH1|]. rewrite IH2, Hg. simpl. lia.
Qed.

(** Tripping, for the breaker and the callback of this section. *)
Lemma failures_trip (s : St) :
  always_fails Sprint b cb ->
  status (state (guarded b s)) = Closed ->
  Failures (state (guarded b s)) = 0 ->
  (forall j : nat,
     Z.of_nat j < maxFailures b ->
     let s' := snd (invoke j run s) in
     observed b s' = Closed /\
     Failures (state (guarded b s')) = Z.of_nat j) /\
  (let s' := snd (invoke (Z.to_nat (maxFailures b)) run s) in
   guarded b s'
   = mkGuarded 0 (mkState Open (now b (world s') + timeout b) 0 0) /\
   (0 < timeout b -> observed b s' = Open)).
Proof.
  intros Hfail Hst HF.
  assert (Hacc : forall j : nat,
            Z.of_nat j < maxFailures b ->
            status (state (guarded b (snd (invoke j run s)))) = Closed /\
            Failures (state (guarded b (snd (invoke j run s)))) = Z.of_nat j).
  { intros j Hj.
    destruct (failures_accumulate j s Hfail Hst) as [H1 H2]; [lia | lia |].
    split; [exact H1 | rewrite H2; lia]. }
  split.
  - intros j Hj. destruct (Hacc j Hj) as [H1 H2].
    split; [by apply observed_Closed | exact H2].
  - destruct Hb as [[Hone Hmax] _].
    destruct (Z.to_nat (maxFailures b)) as [|m] eqn:Hn; [lia|].
    destruct (Hacc m) as [H1 H2]; [lia|].
    cbv zeta. rewrite invoke_snoc.
    set (sm := snd (invoke m run s)) in *.
    pose proof (closed_failure_step sm Hfail H1) as Hstep.
    rewrite H2 in Hstep. rewrite uint_incr_small in Hstep by lia.
    destruct (Z.leb_spec (maxFailures b) (Z.of_nat m + 1)); [|lia].
    rewrite Hstep.
    assert (Hg : guarded b
                   (set_guarded b
                      (mkGuarded 0
                         (mkState Open
                            (now b (world (snd (cb sm))) + timeout b) 0 0))
                      (snd (cb sm)))
                 = mkGuarded 0
                     (mkState Open
                        (now b (world (snd (cb sm))) + timeout b) 0 0))
      by by rewrite guarded_set_guarded.
    split; [exact Hg|].
    intros Hpos. apply observed_Open. rewrite Hg. simpl. split; [done | lia].
Qed.

(** One success in the half-open window. *)
Lemma half_open_success_step (s : St) :
  never_fails Sprint b cb ->
  clock_forward b cb ->
  observed b s = HalfOpen ->
  requests (guarded b s) < maxRequests b ->
  let s1 := snd (cb (slot_taken b s)) in
  snd (run s)
  = if uint_incr (Successes (state (guarded b s))) =? maxRequests b
    then set_guarded b (mkGuarded 0 (mkState Closed 0 0 0)) s1
    else set_guarded b
           (mkGuarded (uint_incr (requests (guarded b s)))
              (mkState (status (state (guarded b s)))
                 (expiresAt (state (guarded b s))) 0
                 (uint_incr (Successes (state (guarded b s)))))) s1.
Proof.
  intros Hnever Hclock H0 Hfree s1.
  assert (Hg1 : guarded b s1
                = mkGuarded (uint_incr (requests (guarded b s)))
                    (state (guarded b s))).
  { unfold s1. rewrite Halone. unfold slot_taken.
    by rewrite guarded_set_guarded. }
  assert (H1 : observed b s1 = HalfOpen).
  { apply (observed_HalfOpen_kept b s s1); [by rewrite Hg1 | | exact H0].
    exact (Hclock (slot_taken b s)). }
  destruct (Breaker_Run_HalfOpen_accounting Sprint b cb s H0 Hfree H1)
    as [_ Hrun].
  rewrite (Hrun (Hnever _)). cbn [snd]. fold s1. by rewrite !Hg1.
Qed.

Lemma recovering_observed (c : Z) (s : St) :
  recovering b c s -> observed b s = HalfOpen.
Proof.
  intros (Hst & Hexp & _). unfold observed, State_Status. rewrite Hst. simpl.
  by destruct (Z.leb_spec (expiresAt (state (guarded b s)))
                 (now b (world s))); [|lia].
Qed.

Lemma successes_accumulate (j : nat) (c : Z) (s : St) :
  never_fails Sprint b cb ->
  clock_forward b cb ->
  recovering b c s ->
  0 <= c ->
  c + Z.of_nat j < maxRequests b ->
  recovering b (c + Z.of_nat j) (snd (invoke j run s)).
Proof.
  intros Hnever Hclock. revert c s.
  induction j as [|j IH]; intros c s Hrec H0 Hlt.
  - simpl. by rewrite Z.add_0_r.
  - rewrite invoke_S. cbn [snd].
    pose proof Hrec as (Hst & Hexp & Hreq & Hsucc).
    destruct Hb as [_ [_ Hmax]].
    assert (Hfree : requests (guarded b s) < maxRequests b) by lia.
    pose proof (half_open_success_step s Hnever Hclock
                  (recovering_observed c s Hrec) Hfree) as Hstep.
    cbv zeta in Hstep. rewrite Hreq, Hsucc, Hst in Hstep.
    rewrite uint_incr_small in Hstep by lia.
    destruct (Z.eqb_spec (c + 1) (maxRequests b)); [lia|].
    replace (c + Z.of_nat (S j)) with ((c + 1) + Z.of_nat j) by lia.
    apply IH; [|lia|lia].
    rewrite Hstep. unfold recovering. rewrite guarded_set_guarded. simpl.
    split_and!; try done.
    pose proof (Hclock (slot_taken b s)) as Hc. simpl in Hc. lia.
Qed.

(** Recovering, for the breaker and the callback of this section. *)
Lemma successes_close (s : St) :
  never_fails Sprint b cb ->
  clock_forward b cb ->
  status (state (guarded b s)) = Open ->
  expiresAt (state (guarded b s)) <= now b (world s) ->
  requests (guarded b s) = 0 ->
  Successes (state (guarded b s)) = 0 ->
  (forall j : nat,
     Z.of_nat j < maxRequests b ->
     let s' := snd (invoke j run s) in
     observed b s' = HalfOpen /\
     requests (guarded b s') = Z.of_nat j /\
     Successes (state (guarded b s')) = Z.of_nat j) /\
  guarded b (snd (invoke (Z.to_nat (maxRequests b)) run s))
  = mkGuarded 0 (mkState Closed 0 0 0).
Proof.
  intros Hnever Hclock Hst Hexp Hreq Hsucc.
  assert (Hacc : forall j : nat,
            Z.of_nat j < maxRequests b ->
            recovering b (Z.of_nat j) (snd (invoke j run s))).
  { intros j Hj.
    apply (successes_accumulate j 0 s Hnever Hclock); [|lia|lia].
    by split_and!. }
  split.
  - intros j Hj. pose proof (Hacc j Hj) as Hrec.
    split; [by apply (recovering_observed (Z.of_nat j))|].
    by destruct Hrec as (_ & _ & ? & ?).
  - destruct Hb as [_ [Hone Hmax]].
    destruct (Z.to_nat (maxRequests b)) as [|m] eqn:Hn; [lia|].
    pose proof (Hacc m ltac:(lia)) as Hrec.
    rewrite invoke_snoc.
    set (sm := snd (invoke m run s)) in *.
    pose proof Hrec as (Hst' & Hexp' & Hreq' & Hsucc').
    assert (Hfree : requests (guarded b sm) < maxRequests b) by lia.
    pose proof (half_open_success_step sm Hnever Hclock
                  (recovering_observed _ sm Hrec) Hfree) as Hstep.
    cbv zeta in Hstep. rewrite Hsucc' in Hstep.
    rewrite uint_incr_small in Hstep by lia.
    destruct (Z.eqb_spec (Z.of_nat m + 1) (maxRequests b)); [|lia].
    rewrite Hstep. by rewrite guarded_set_guarded.
Qed.

End Breaker_trips.

Section Breaker_trips_stated.

Context {W : Type} {PanicValue : Type}.
Variable Sprint : PanicValue -> string.

Local Abbreviation CB := (CallFn (W := W) (PanicValue := PanicValue)).
Local Abbreviation St := (Store (W := W)).

(** X5. Tripping. For a breaker with positive limits, as [New] makes them,
    that is closed with no failure counted, and a callback that leaves the
    breaker alone and whose every outcome counts as a failure: the first
    calls [j < maxFailures] leave the breaker closed with [j] failures
    counted, and the call that makes them [maxFailures] opens it: the
    in-flight counter and both counts are zero, and the breaker expires
    [timeout] after the time of that last accounting, so that with a
    positive timeout the next call is turned away. *)
Theorem X5_failures_trip (b : Breaker) (cb : CB) (s : St) :
  Breaker_ok b ->
  leaves_alone b cb ->
  always_fails Sprint b cb ->
  status (state (guarded b s)) = Closed ->
  Failures (state (guarded b s)) = 0 ->
  let run := Breaker_Run Sprint (Some b) cb in
  (forall j : nat,
     Z.of_nat j < maxFailures b ->
     let s' := snd (invoke j run s) in
     observed b s' = Closed /\
     Failures (state (guarded b s')) = Z.of_nat j) /\
  (let s' := snd (invoke (Z.to_nat (maxFailures b)) run s) in
   guarded b s'
   = mkGuarded 0 (mkState Open (now b (world s') + timeout b) 0 0) /\
   (0 < timeout b -> observed b s' = Open)).
Proof.
  intros Hb Halone Hfail Hst HF run.
  exact (failures_trip Sprint b cb Hb Halone s Hfail Hst HF).
Qed.

(** X6. Recovering. For a breaker with positive limits, as [New] makes
    them, whose timeout has passed, with no slot taken and no success
    counted, and a callback that leaves the breaker alone, never fails and
    does not set the clock back: the first calls [j < maxRequests] leave
    the breaker half-open with [j] slots taken and [j] successes counted: a
    slot is taken on the way in and never given back on the way out. The
    call that makes the successes [maxRequests] closes the breaker, with
    the in-flight counter and both counts at zero. *)
Theorem X6_successes_close (b : Breaker) (cb : CB) (s : St) :
  Breaker_ok b ->
  leaves_alone b cb ->
  never_fails Sprint b cb ->
  clock_forward b cb ->
  status (state (guarded b s)) = Open ->
  expiresAt (state (guarded b s)) <= now b (world s) ->
  requests (guarded b s) = 0 ->
  Successes (state (guarded b s)) = 0 ->
  let run := Breaker_Run Sprint (Some b) cb in
  (forall j : nat,
     Z.of_nat j < maxRequests b ->
     let s' := snd (invoke j run s) in
     observed b s' = HalfOpen /\
     requests (guarded b s') = Z.of_nat j /\
     Successes (state (guarded b s')) = Z.of_nat j) /\
  guarded b (snd (invoke (Z.to_nat (maxRequests b)) run s))
  = mkGuarded 0 (mkState Closed 0 0 0).
Proof.
  intros Hb Halone Hnever Hclock Hst Hexp Hreq Hsucc run.
  exact (successes_close Sprint b cb Hb Halone s Hnever Hclock Hst Hexp Hreq
           Hsucc).
Qed.

End Breaker_trips_stated.

(** ** The registry of breakers *)

Section Registry_properties.

Context {W : Type}.
Variable Sprintf_q : string -> string.

Local Abbreviation Reg := (gmap string (BreakerValue (W := W))).

Lemma Registry_Get_register_all (l : list (string * BreakerValue (W := W)))
    (r : Reg) (name : string) :
  Registry_Get (Registry_register_all Sprintf_q r l) name
  = match r !! name with
    | Some b => (b, true)
    | None =>
        match List.find (fun e => bool_decide (fst e = name)) l with
        | Some e => (snd e, true)
        | None => (BreakerValue_zero, false)
        end
    end.
Proof.
  revert r. induction l as [|e l IH]; intros r.
  - unfold Registry_Get. simpl. by destruct (r !! name).
  - unfold Registry_register_all in *. simpl. rewrite IH.
    unfold Registry_Register.
    destruct (r !! fst e) eqn:He; simpl.
    + destruct (r !! name) eqn:Hn; [reflexivity|].
      rewrite bool_decide_eq_false_2; [reflexivity|]. congruence.
    + destruct (decide (fst e = name)) as [Heq|Hne].
      * rewrite Heq, lookup_insert_eq. rewrite Heq in He. rewrite He.
        by rewrite bool_decide_eq_true_2.
      * rewrite lookup_insert_ne by done.
        by rewrite bool_decide_eq_false_2.
Qed.

(** X9. The registry of breakers. [Register] on a name that [Get] does not
    find returns nil, after which [Get] finds the breaker registered; on a
    name that [Get] finds it returns an error and leaves the registry as it
    is; either way the other names are untouched. So of several
    registrations on an empty registry the first under a name wins: [Get]
    returns the breaker of the first one, and the zero [Breaker] with
    [false] when there is none. *)
Theorem X9_registry_first_wins (r : Reg) (name : string)
    (b : BreakerValue (W := W))
    (l : list (string * BreakerValue (W := W))) :
  (snd (Registry_Get r name) = false ->
   fst (Registry_Register Sprintf_q r name b) = None /\
   Registry_Get (snd (Registry_Register Sprintf_q r name b)) name
   = (b, true)) /\
  (snd (Registry_Get r name) = true ->
   fst (Registry_Register Sprintf_q r name b) <> None /\
   snd (Registry_Register Sprintf_q r name b) = r) /\
  (forall other : string,
     other <> name ->
     Registry_Get (snd (Registry_Register Sprintf_q r name b)) other
     = Registry_Get r other) /\
  Registry_Get (Registry_register_all Sprintf_q NewRegistry l) name
  = match List.find (fun e => bool_decide (fst e = name)) l with
    | Some e => (snd e, true)
    | None => (BreakerValue_zero, false)
    end.
Proof.
  split_and!.
  - unfold Registry_Get, Registry_Register.
    destruct (r !! name) eqn:Hn; simpl; [discriminate|]. intros _.
    by rewrite lookup_insert_eq.
  - unfold Registry_Get, Registry_Register.
    destruct (r !! name) eqn:Hn; simpl; [|discriminate]. by intros _.
  - intros other Hne. unfold Registry_Get, Registry_Register.
    destruct (r !! name) eqn:Hn; simpl; [reflexivity|].
    by rewrite lookup_insert_ne.
  - rewrite Registry_Get_register_all. unfold NewRegistry.
    by rewrite lookup_empty.
Qed.

End Registry_properties.

(** ** The retrier's settings *)

Section Retrier_settings.

Context {W : Type} {PanicValue : Type}.

Local Abbreviation CB := (CallFn (W := W) (PanicValue := PanicValue)).
Local Abbreviation St := (Store (W := W)).

Lemma retrier_New_attempts (opts : list retrier_option) :
  Forall retrier_option_ok opts ->
  1 <= maxAttempts (retrier_New opts) < 2 ^ 64.
Proof.
  intros Hall. unfold retrier_New.
  assert (H0 : 1 <= maxAttempts (mkRetrier defaultIsRetriable
                                   defaultMaxAttempts) < 2 ^ 64)
    by (simpl; unfold defaultMaxAttempts; lia).
  revert H0. generalize (mkRetrier defaultIsRetriable defaultMaxAttempts).
  induction Hall as [|opt opts Hopt Hall IH]; intros r Hr; [exact Hr|].
  simpl. apply IH. destruct opt as [f|n]; simpl; [exact Hr|].
  simpl in Hopt. unfold is_uint in Hopt.
  destruct (Z.eqb_spec n 0); unfold defaultMaxAttempts; lia.
Qed.

(** X1. A retrier made by [New] runs the callback. Whatever options [New]
    is given, their numbers being of type [uint], the retrier allows at
    least one attempt, so that [Run] is at least one invocation of the
    callback, at most [maxAttempts], and returns the outcome of the last
    one: the callback is never skipped and the result is never the nil
    with which the loop starts. *)
Theorem X1_retrier_New_runs (opts : list retrier_option) (cb : CB) (s : St) :
  Forall retrier_option_ok opts ->
  let r := retrier_New opts in
  1 <= maxAttempts r < 2 ^ 64 /\
  exists (k : nat) (os : list (Result (option error))),
    (1 <= k <= Z.to_nat (maxAttempts r))%nat /\
    invoke k cb s = (os, snd (Retrier_Run (Some r) cb s)) /\
    last os = Some (fst (Retrier_Run (Some r) cb s)).
Proof.
  intros Hall r. pose proof (retrier_New_attempts opts Hall) as Hmax.
  fold r in Hmax. split; [exact Hmax|].
  unfold Retrier_Run.
  destruct (Retrier_loop_bound r cb (Z.to_nat (maxAttempts r)) s None)
    as (k & os & Hk & Hinv & Hfst & _ & Hpos & _).
  exists k, os. destruct Hpos as [H0|Hpos]; [lia|].
  split; [lia|]. split; [exact Hinv|].
  rewrite Hfst.
  pose proof (invoke_length cb k s) as Hlen. rewrite Hinv in Hlen.
  simpl in Hlen.
  destruct (last os) as [o|] eqn:Hlast; [reflexivity|].
  apply last_None in Hlast. subst os. simpl in Hlen. lia.
Qed.

(** X2. The two smallest budgets. A retrier with one attempt, which is
    what [New] makes without options, is the callback itself, panics
    included. A retrier with no attempt, which only a literal [Retrier{}]
    has, returns nil without invoking the callback. *)
Theorem X2_retrier_small_budgets (r : Retrier) (cb : CB) (s : St) :
  (maxAttempts r = 1 -> Retrier_Run (Some r) cb s = cb s) /\
  (maxAttempts r = 0 -> Retrier_Run (Some r) cb s = (Val None, s)) /\
  Retrier_Run (Some (retrier_New [])) cb s = cb s.
Proof.
  assert (H1 : forall r' : Retrier,
            maxAttempts r' = 1 -> Retrier_Run (Some r') cb s = cb s).
  { intros r' Hr. unfold Retrier_Run. rewrite Hr. simpl. unfold bind, ret.
    destruct (cb s) as [[err|v] s1]; [|reflexivity].
    by destruct (negb (not_nil err) || negb (isRetriable r' err)). }
  split_and!.
  - apply H1.
  - intros Hr. unfold Retrier_Run. by rewrite Hr.
  - by apply H1.
Qed.

End Retrier_settings.

(** ** The caller *)

Section Caller_more.

Context {W : Type} {PanicValue : Type}.
Variable Sprint : PanicValue -> string.

Local Abbreviation CB := (CallFn (W := W) (PanicValue := PanicValue)).
Local Abbreviation St := (Store (W := W)).
Local Abbreviation C := (Caller (W := W) (PanicValue := PanicValue)).

(** *** Keys *)

Lemma append_nil (b : string) : "" +:+ b = b.
Proof. reflexivity. Qed.

Lemma append_cons (x : Ascii.ascii) (a b : string) :
  String x a +:+ b = String x (a +:+ b).
Proof. reflexivity. Qed.

Lemma append_assoc3 (a b c : string) : (a +:+ b) +:+ c = a +:+ (b +:+ c).
Proof.
  induction a as [|x a IH]; [reflexivity|].
  by rewrite !append_cons, IH.
Qed.

Lemma colon_free_head (d : string) :
  colon_free (String colon d) = false.
Proof. reflexivity. Qed.

Lemma key_injective (d1 n1 d2 n2 : string) :
  colon_free d1 = true ->
  colon_free d2 = true ->
  d1 +:+ ":" +:+ n1 = d2 +:+ ":" +:+ n2 ->
  d1 = d2 /\ n1 = n2.
Proof.
  change ":"%string with (String colon "").
  revert d2. induction d1 as [|a d1 IH]; intros d2 H1 H2 Heq.
  - destruct d2 as [|c d2];
      repeat (rewrite append_cons in Heq || rewrite append_nil in Heq).
    + injection Heq as ->. by split.
    + injection Heq as <- _. by rewrite colon_free_head in H2.
  - destruct d2 as [|c d2];
      repeat (rewrite append_cons in Heq || rewrite append_nil in Heq).
    + injection Heq as -> _. by rewrite colon_free_head in H1.
    + injection Heq as -> Heq. simpl in H1, H2.
      apply andb_true_iff in H1 as [_ H1]. apply andb_true_iff in H2 as [_ H2].
      destruct (IH d2 H1 H2 Heq) as [-> ->]. by split.
Qed.

(** X10. The key of a caller. [New] makes the key of the dependency, a
    colon and the name. Among callers whose dependency has no colon the key
    tells the callers apart: equal keys mean equal dependency and equal
    name. With a colon in the dependency it does not: the caller of
    dependency [a] and name [b:c] has the key of the caller of dependency
    [a:b] and name [c], so that once the daemon has registered the first it
    rejects the second as already registered. *)
Theorem X10_caller_key (d1 n1 d2 n2 : string) :
  (colon_free d1 = true ->
   colon_free d2 = true ->
   key (errcat_New d1 n1 : C) = key (errcat_New d2 n2 : C) ->
   d1 = d2 /\ n1 = n2) /\
  (forall a b c : string,
     key (errcat_New a (b +:+ ":" +:+ c) : C)
     = key (errcat_New (a +:+ ":" +:+ b) c : C)) /\
  (forall (Sprintf_q : string -> string) (d : Daemon) (a b c : string),
     registry d !! key (errcat_New a (b +:+ ":" +:+ c) : C) = None ->
     let first := errcat_New a (b +:+ ":" +:+ c) : C in
     let second := errcat_New (a +:+ ":" +:+ b) c : C in
     let d' := snd (Daemon_RegisterCaller Sprintf_q (Some d) first) in
     fst (fst (Daemon_RegisterCaller Sprintf_q (Some d) first))
     = key first /\
     snd (fst (Daemon_RegisterCaller Sprintf_q (Some d) first)) = None /\
     snd (fst (Daemon_RegisterCaller Sprintf_q d' second)) <> None /\
     snd (Daemon_RegisterCaller Sprintf_q d' second) = d').
Proof.
  assert (Hcol : forall a b c : string,
            key (errcat_New a (b +:+ ":" +:+ c) : C)
            = key (errcat_New (a +:+ ":" +:+ b) c : C)).
  { intros a b c. simpl. by rewrite !append_assoc3. }
  split_and!.
  - simpl. apply key_injective.
  - exact Hcol.
  - intros Sprintf_q d a b c Hfree first second d'.
    unfold d', Daemon_RegisterCaller. fold first. fold first in Hfree.
    rewrite Hfree. cbn [fst snd].
    assert (Hk : key second = key first) by (symmetry; apply Hcol).
    rewrite Hk. cbn [registry]. rewrite lookup_insert_eq. cbn [fst snd].
    by split_and!.
Qed.

(** *** A caller whose breaker turns the call away *)

(** X11. When the breaker of a caller turns the call away, being open or
    half-open with every slot taken, and the timer does not fire first, the
    callback is not invoked and no attempt of the retrier is made: the
    fallback is asked about [ErrBreakerOpen] and, if it takes it, runs from
    the store in which [Call] was entered; otherwise [ErrBreakerOpen] is
    returned and the store is as it was. *)
Theorem X11_caller_open_breaker (race : Race) (c : C) (b : Breaker) (cb : CB)
    (s : St) :
  breaker c = Some b ->
  observed b s = Open \/
  (observed b s = HalfOpen /\ maxRequests b <= requests (guarded b s)) ->
  race = DoneFirst \/ synchronous (timer c) = true ->
  Caller_Call Sprint race c cb s
  = if Fallback_UseFallback (fallback c) (Some ErrBreakerOpen)
    then Fallback_Call (fallback c) s
    else (Val (Some ErrBreakerOpen), s).
Proof.
  intros Hbr Hobs Hrace.
  assert (Hrun : forall m : CB,
            Breaker_Run Sprint (Some b) m s = (Val (Some ErrBreakerOpen), s)).
  { intros m. destruct Hobs as [H | [H Hsat]];
      [by apply Breaker_Run_Open | by apply Breaker_Run_saturated]. }
  unfold Caller_Call. rewrite Hbr.
  assert (Ht : Timer_Run Sprint race (timer c)
                 (Breaker_Run Sprint (Some b) (Retrier_Run (retrier c) cb)) s
               = (Val (Some ErrBreakerOpen), s)).
  { unfold Timer_Run. destruct (timer c) as [t|]; [|apply Hrun].
    simpl in Hrace. destruct (duration t <=? 0); [apply Hrun|].
    destruct Hrace as [-> | Hsync]; [|discriminate].
    unfold recover. by rewrite Hrun. }
  unfold bind. rewrite Ht.
  by destruct (Fallback_UseFallback (fallback c) (Some ErrBreakerOpen)).
Qed.

(** *** Retries under a breaker *)

Lemma Retrier_loop_leaves_alone (b : Breaker) (r : Retrier) (cb : CB)
    (n : nat) (err : option error) (s : St) :
  leaves_alone b cb ->
  guarded b (snd (Retrier_loop r n cb err s)) = guarded b s.
Proof.
  intros Hcb. revert err s. induction n as [|n IH]; intros err s;
    [reflexivity|].
  simpl. unfold bind. pose proof (Hcb s) as Hs.
  destruct (cb s) as [[e|v] s1]; simpl in *; [|exact Hs].
  destruct (negb (not_nil e) || negb (isRetriable r e)); [exact Hs|].
  by rewrite IH.
Qed.

Lemma Retrier_Run_leaves_alone (b : Breaker) (r : option Retrier) (cb : CB) :
  leaves_alone b cb -> leaves_alone b (Retrier_Run r cb).
Proof.
  intros Hcb s. destruct r as [r|]; simpl; [|apply Hcb].
  by apply Retrier_loop_leaves_alone.
Qed.

(** X12. Retries are counted once. For a caller with a breaker that is
    closed, a retrier, no timer and no fallback, and a callback that leaves
    the breaker alone: however many attempts the retrier makes, the breaker
    accounts for the one outcome that the retrier returns. The caller
    returns that outcome; when it counts as a failure, short of the limit,
    the count of failures goes up by one, and when it does not the count is
    zero afterwards. *)
Theorem X12_retries_count_once (race : Race) (c : C) (b : Breaker) (cb : CB)
    (s : St) :
  breaker c = Some b ->
  timer c = None ->
  fallback c = None ->
  leaves_alone b cb ->
  Breaker_ok b ->
  status (state (guarded b s)) = Closed ->
  let attempts := Retrier_Run (retrier c) cb in
  let err := outcome_err Sprint (fst (attempts s)) in
  let s' := snd (Caller_Call Sprint race c cb s) in
  fst (Caller_Call Sprint race c cb s) = Val err /\
  world s' = world (snd (attempts s)) /\
  (counts_as_failure b err = true ->
   0 <= Failures (state (guarded b s)) ->
   Failures (state (guarded b s)) + 1 < maxFailures b ->
   status (state (guarded b s')) = Closed /\
   Failures (state (guarded b s')) = Failures (state (guarded b s)) + 1) /\
  (counts_as_failure b err = false ->
   status (state (guarded b s')) = Closed /\
   Failures (state (guarded b s')) = 0).
Proof.
  intros Hbr Ht Hfb Hcb Hb Hst attempts err s'.
  assert (Hm : leaves_alone b attempts) by by apply Retrier_Run_leaves_alone.
  assert (H0 : observed b s = Closed) by by apply observed_Closed.
  assert (Hcall : Caller_Call Sprint race c cb s
                  = Breaker_Run Sprint (Some b) attempts s).
  { rewrite Caller_Call_eq. unfold composed. rewrite Hbr, Ht, Hfb.
    rewrite (Timer_Run_synchronous Sprint race None _ (or_introl eq_refl)).
    fold attempts.
    destruct (Breaker_Run Sprint (Some b) attempts s) as [[e|v] s1] eqn:Hrun;
      [reflexivity|].
    rewrite (Breaker_Run_Closed Sprint b attempts s H0), accounted_eq in Hrun.
    discriminate. }
  unfold s'. rewrite Hcall.
  assert (H1 : observed b (snd (attempts s)) = Closed).
  { apply observed_Closed. by rewrite Hm. }
  destruct (Breaker_Run_Closed_accounting Sprint b attempts s H0 H1)
    as (Hfail & Hreset & Hearly).
  fold err in Hfail, Hreset, Hearly.
  destruct (counts_as_failure b err) eqn:Hf.
  - rewrite (Hfail eq_refl). cbn [fst snd]. rewrite !Hm.
    split; [reflexivity|].
    split;
      [by destruct (maxFailures b
                    <=? uint_incr (Failures (state (guarded b s))))|].
    split; [|discriminate]. intros _ Hpos Hlt.
    destruct Hb as [[_ Hmax] _].
    rewrite uint_incr_small by lia.
    destruct (Z.leb_spec (maxFailures b)
                (Failures (state (guarded b s)) + 1)); [lia|].
    by rewrite guarded_set_guarded.
  - destruct (Z.eq_dec (Failures (state (guarded b s))) 0) as [Hz|Hnz].
    + rewrite (Hearly eq_refl Hz). cbn [fst snd]. rewrite Hm.
      split; [reflexivity|]. split; [reflexivity|].
      split; [discriminate|]. by intros _.
    + rewrite (Hreset eq_refl Hnz). cbn [fst snd].
      split; [reflexivity|]. split; [reflexivity|].
      split; [discriminate|]. intros _.
      by rewrite guarded_set_guarded.
Qed.

End Caller_more.

(** ** The daemon *)

Section Daemon_more.

Context {W : Type} {PanicValue : Type}.
Variable Sprint : PanicValue -> string.
Variable time_Now : W -> Z.
Variable grpc_Dial : string -> W -> option (ClientConn (W := W)).
Variable Sprintf_q : string -> string.

Local Abbreviation CB := (CallFn (W := W) (PanicValue := PanicValue)).
Local Abbreviation St := (Store (W := W)).
Local Abbreviation D := (Daemon (W := W) (PanicValue := PanicValue)).
Local Abbreviation C := (Caller (W := W) (PanicValue := PanicValue)).

(** *** Calls *)

(** X14. What [Daemon.Call] records. On a daemon that is not nil the call
    is the call of the caller found under the key, with its panic made an
    error. When the send goes through, that is when the daemon is not
    enabled or the channel takes the record, [Call] returns the caller's
    error; on an enabled daemon exactly one record has been handed to the
    channel, after the caller is done: it has the caller's dependency and
    name, the error that [Call] returns, the time at which [Call] was
    entered and the time the caller took; on a daemon that is not enabled
    nothing is handed over. When the send does not go through, [Call] does
    not return and nothing is handed over. Telemetry changes nothing else:
    two daemons with the same registry leave the same world and breakers,
    and return the same error when both return. *)
Theorem X14_daemon_call_record (race : Race) (t : Traffic) (d : D)
    (k : string) (cb : CB) (s : St) :
  let caller := default Caller_zero (registry d !! k) in
  let inner := Caller_Call Sprint race caller cb s in
  let err := outcome_err Sprint (fst inner) in
  let record :=
    mkCall (dependency caller)
      (time_Now (world (snd inner)) - time_Now (world s)) err (name caller)
      (time_Now (world s)) in
  let out := Daemon_Call Sprint time_Now race t (Some d) k cb s in
  (send_completes d t = true ->
   fst out = Returns (Val err) /\
   delivered (snd out)
   = delivered (snd inner) ++ (if Daemon_enabled d then [record] else [])) /\
  (send_completes d t = false ->
   fst out = Blocks /\ delivered (snd out) = delivered (snd inner)) /\
  world (snd out) = world (snd inner) /\
  breakers (snd out) = breakers (snd inner) /\
  wire (snd out) = wire (snd inner) /\
  (forall (d2 : D) (t2 : Traffic),
     registry d2 = registry d ->
     let out2 := Daemon_Call Sprint time_Now race t2 (Some d2) k cb s in
     world (snd out2) = world (snd out) /\
     breakers (snd out2) = breakers (snd out) /\
     (send_completes d t = true ->
      send_completes d2 t2 = true ->
      fst out2 = fst out)).
Proof.
  intros caller inner err record out.
  assert (Hout : forall (d' : D) (t' : Traffic),
            registry d' = registry d ->
            Daemon_Call Sprint time_Now race t' (Some d') k cb s
            = if Daemon_enabled d' then
                if Chan_send_ready (callCh d') (pending t')
                     (worker_receives t')
                then (Returns (Val err), deliver record (snd inner))
                else (Blocks, snd inner)
              else (Returns (Val err), snd inner)).
  { intros d' t' Hreg. rewrite Daemon_Call_eq, Hreg. reflexivity. }
  unfold out. rewrite (Hout d t eq_refl). unfold send_completes.
  split_and!.
  - destruct (Daemon_enabled d); simpl.
    + intros ->. by split.
    + intros _. split; [reflexivity | by rewrite app_nil_r].
  - destruct (Daemon_enabled d); simpl; [|discriminate].
    intros ->. by split.
  - destruct (Daemon_enabled d);
      [destruct (Chan_send_ready (callCh d) (pending t) (worker_receives t))|];
      reflexivity.
  - destruct (Daemon_enabled d);
      [destruct (Chan_send_ready (callCh d) (pending t) (worker_receives t))|];
      reflexivity.
  - destruct (Daemon_enabled d);
      [destruct (Chan_send_ready (callCh d) (pending t) (worker_receives t))|];
      reflexivity.
  - intros d2 t2 Hreg. rewrite (Hout d2 t2 Hreg).
    destruct (Daemon_enabled d), (Daemon_enabled d2); simpl;
      destruct (Chan_send_ready (callCh d) (pending t) (worker_receives t));
      destruct (Chan_send_ready (callCh d2) (pending t2)
                  (worker_receives t2));
      split_and!; try reflexivity; intros; try discriminate; reflexivity.
Qed.

(** *** Registering callers *)

(** X13. Registering a caller. On a nil daemon [RegisterCaller] returns
    the empty key and nil. Otherwise it returns the key of the caller; when
    the key is free it returns nil and the registry holds the caller under
    that key, the other keys and the rest of the daemon being as before, so
    that [Daemon.Call] with the returned key, when its send goes through
    (the daemon is not enabled, or the channel takes the record), returns
    what the registered caller returns; when the key is taken it returns an
    error and the daemon is as it was, so that the caller registered first
    stays. *)
Theorem X13_register_caller (d : D) (c : C) :
  Daemon_RegisterCaller Sprintf_q None c = (("", None), None) /\
  fst (fst (Daemon_RegisterCaller Sprintf_q (Some d) c)) = key c /\
  (registry d !! key c = None ->
   snd (fst (Daemon_RegisterCaller Sprintf_q (Some d) c)) = None /\
   exists d' : D,
     snd (Daemon_RegisterCaller Sprintf_q (Some d) c) = Some d' /\
     registry d' !! key c = Some c /\
     (forall k : string, k <> key c -> registry d' !! k = registry d !! k) /\
     addr_Host d' = addr_Host d /\ env d' = env d /\
     service d' = service d /\ callCh d' = callCh d /\
     client_ d' = client_ d /\
     (forall (race : Race) (t : Traffic) (cb : CB) (s : St),
        send_completes d' t = true ->
        fst (Daemon_Call Sprint time_Now race t (Some d') (key c) cb s)
        = Returns
            (Val (outcome_err Sprint (fst (Caller_Call Sprint race c cb s)))))) /\
  (registry d !! key c <> None ->
   snd (fst (Daemon_RegisterCaller Sprintf_q (Some d) c)) <> None /\
   snd (Daemon_RegisterCaller Sprintf_q (Some d) c) = Some d).
Proof.
  split; [reflexivity|].
  split; [unfold Daemon_RegisterCaller; by destruct (registry d !! key c)|].
  split.
  - intros Hfree. unfold Daemon_RegisterCaller. rewrite Hfree. cbn [fst snd].
    split; [reflexivity|].
    eexists. split; [reflexivity|]. cbn [registry addr_Host env service
                                         callCh client_].
    split; [by rewrite lookup_insert_eq|].
    split; [intros k Hk; by rewrite lookup_insert_ne|].
    split_and!; try reflexivity.
    intros race t cb s Hsend.
    pose proof (Daemon_Call_result Sprint time_Now race t
                  (mkDaemon (addr_Host d) (env d) (service d) (callCh d)
                     (client_ d) (<[key c := c]> (registry d)))
                  (key c) cb s) as Hres.
    cbv zeta in Hres. rewrite Hsend in Hres. rewrite Hres. cbn [registry].
    by rewrite lookup_insert_eq.
  - intros Htaken. unfold Daemon_RegisterCaller.
    destruct (registry d !! key c); [|done]. by cbn [fst snd].
Qed.

(** *** The daemon's settings *)

Lemma applyD_fields (opts : list optionD) (d0 : D) :
  let d := fold_left (fun d opt => applyD opt d) opts d0 in
  client_ d = default (client_ d0) (chosen sel_client opts) /\
  addr_Host d = default (addr_Host d0) (chosen sel_host opts) /\
  env d = default (env d0) (chosen sel_env opts) /\
  service d = default (service d0) (chosen sel_service opts).
Proof.
  induction opts as [|opt opts IH] using rev_ind.
  - by simpl.
  - rewrite fold_left_app. simpl. rewrite !chosen_snoc.
    destruct IH as (H1 & H2 & H3 & H4).
    destruct opt; simpl; by split_and!.
Qed.

(** X17. What [NewD] makes of its options, and the disabled daemon. Each
    setting is the value of the last option that sets it, or empty; the
    registry is empty. The daemon is enabled exactly when it has a client
    or a host. A daemon that is not enabled has no worker, as
    [consumeCalls] returns at once, and its [Call] hands nothing to the
    channel that nobody reads. *)
Theorem X17_daemon_settings (opts : list optionD) :
  let d : D := NewD opts in
  client_ d = default None (chosen sel_client opts) /\
  addr_Host d = default "" (chosen sel_host opts) /\
  env d = default "" (chosen sel_env opts) /\
  service d = default "" (chosen sel_service opts) /\
  registry d = ∅ /\
  (Daemon_enabled d = false <->
   default None (chosen sel_client opts) = None /\
   default "" (chosen sel_host opts) = "") /\
  (Daemon_enabled d = false ->
   forall (evs : list Event) (race : Race) (t : Traffic) (k : string)
          (cb : CB) (s : St),
     Daemon_consumeCalls grpc_Dial d evs s = (Val (Returned d), s) /\
     delivered (snd (Daemon_Call Sprint time_Now race t (Some d) k cb s))
     = delivered (snd (cb s))).
Proof.
  intros d.
  destruct (applyD_fields opts (mkDaemon "" "" "" (mkChan 0) None ∅))
    as (H1 & H2 & H3 & H4).
  fold (NewD opts : D) in H1, H2, H3, H4. fold d in H1, H2, H3, H4.
  simpl in H1, H2, H3, H4.
  assert (Hreg : registry d = ∅) by apply fold_applyD_registry.
  split_and!; try assumption.
  - unfold Daemon_enabled. rewrite <- H1, <- H2.
    rewrite orb_false_iff, !bool_decide_eq_false. split.
    + intros [Hc Hh]. split.
      * destruct (client_ d); [by destruct Hc | done].
      * destruct (decide (addr_Host d = "")); [done|]. by destruct Hh.
    + intros [Hc Hh]. split; intros Hne; by apply Hne.
  - intros Hoff evs race t k cb s. split.
    + unfold Daemon_consumeCalls. by rewrite Hoff.
    + rewrite Daemon_Call_eq, Hoff, Hreg, lookup_empty. cbn [snd default].
      unfold Caller_Call. simpl. unfold bind, ret.
      by destruct (cb s) as [[e|v] s1].
Qed.

(** *** The worker *)

Lemma transmitted_nil (s : St) : transmitted [] s = s.
Proof. destruct s. unfold transmitted. simpl. by rewrite app_nil_r. Qed.

Lemma transmitted_app (r1 r2 : list pb_RecordCallsRequest) (s : St) :
  transmitted r2 (transmitted r1 s) = transmitted (r1 ++ r2) s.
Proof. unfold transmitted. simpl. by rewrite app_assoc. Qed.

Section With_client.

Variable d : D.
Variable cc : ClientConn (W := W).
Variable cn : option (ClientConn (W := W)).
Hypothesis Hclient :
  client_ d
  = Some (client_Client (Some (mkClient (aPIClient_RecordCalls cc) cn))).

(** Dispatching a batch of at most [bufferSize] records puts all of them
    on the wire, in at most one request. *)
Lemma Daemon_send_wire (calls : list Call) (s : St) :
  (length calls <= bufferSize)%nat ->
  exists reqs : list pb_RecordCallsRequest,
    Daemon_send grpc_Dial d calls s = (Val d, transmitted reqs s) /\
    Forall (request_ok d) reqs /\
    concat (map pb_Calls reqs) = map Call_toProto calls.
Proof.
  intros Hlen. destruct calls as [|c calls].
  - exists []. rewrite Daemon_send_nil, transmitted_nil. by split_and!.
  - exists [RecordCallsRequest_toProto
              (mkRecordCallsRequest (c :: calls) (env d) (service d))].
    rewrite (Daemon_send_transmits grpc_Dial d cc cn (c :: calls) s Hclient)
      by done.
    split; [reflexivity|]. split.
    + constructor; [|constructor]. unfold request_ok. simpl.
      rewrite length_map. simpl in Hlen. split_and!; try done. lia.
    + simpl. by rewrite app_nil_r.
Qed.

Lemma consume_loop_conserves (evs : list Event) (calls : list Call) (s : St) :
  (length calls < bufferSize)%nat ->
  exists (w : Worker) (reqs : list pb_RecordCallsRequest),
    consume_loop grpc_Dial evs d calls s = (Val w, transmitted reqs s) /\
    worker_daemon w = d /\
    Forall (request_ok d) reqs /\
    concat (map pb_Calls reqs) ++ map Call_toProto (held w)
    = map Call_toProto (calls ++ taken evs) /\
    (length (held w) < bufferSize)%nat /\
    (In Cancelled evs -> w = Returned d).
Proof.
  revert calls s. induction evs as [|ev evs IH]; intros calls s Hlen.
  - exists (Waiting d calls), []. simpl. rewrite transmitted_nil.
    rewrite app_nil_r. by split_and!.
  - destruct ev as [c| |].
    + simpl.
      destruct (Nat.eqb_spec (length (calls ++ [c])) bufferSize) as [Heq|Hne].
      * destruct (Daemon_send_wire (calls ++ [c]) s ltac:(lia))
          as (r1 & Hsend & Hok1 & Hc1).
        unfold bind at 1. rewrite Hsend.
        destruct (IH [] (transmitted r1 s) ltac:(unfold bufferSize; simpl; lia))
          as (w & r2 & Hloop & Hd & Hok2 & Hc2 & Hh & Hcan).
        exists w, (r1 ++ r2). rewrite Hloop, transmitted_app.
        split_and!; try done.
        -- by apply Forall_app.
        -- rewrite map_app, concat_app, <- app_assoc, Hc2, Hc1.
           simpl. rewrite !map_app. simpl. by rewrite <- app_assoc.
        -- intros [Hin|Hin]; [discriminate | by apply Hcan].
      * assert (Hlen' : (length (calls ++ [c]) < bufferSize)%nat).
        { rewrite length_app in *. simpl in *. lia. }
        destruct (IH (calls ++ [c]) s Hlen')
          as (w & r2 & Hloop & Hd & Hok2 & Hc2 & Hh & Hcan).
        exists w, r2. rewrite Hloop. split_and!; try done.
        -- rewrite Hc2. by rewrite <- app_assoc.
        -- intros [Hin|Hin]; [discriminate | by apply Hcan].
    + simpl.
      destruct (Daemon_send_wire calls s ltac:(lia))
        as (r1 & Hsend & Hok1 & Hc1).
      unfold bind at 1. rewrite Hsend.
      destruct (IH [] (transmitted r1 s) ltac:(unfold bufferSize; simpl; lia))
        as (w & r2 & Hloop & Hd & Hok2 & Hc2 & Hh & Hcan).
      exists w, (r1 ++ r2). rewrite Hloop, transmitted_app.
      split_and!; try done.
      * by apply Forall_app.
      * rewrite map_app, concat_app, <- app_assoc, Hc2, Hc1.
        simpl. by rewrite map_app.
      * intros [Hin|Hin]; [discriminate | by apply Hcan].
    + simpl.
      destruct (Daemon_send_wire calls s ltac:(lia))
        as (r1 & Hsend & Hok1 & Hc1).
      unfold bind. rewrite Hsend. unfold ret.
      exists (Returned d), r1. simpl. rewrite !app_nil_r.
      split_and!; try done. unfold bufferSize. lia.
Qed.

(** X15. The worker loses and invents nothing. With the repository's
    client, whatever the order of records, ticks and cancellation: all the
    worker does to the store is put requests on the wire; each has the
    daemon's environment and service and between one and a hundred records;
    the records on the wire followed by the batch that the worker still
    holds are the records taken from the channel before cancellation, in
    the order in which they were taken, each once. The batch held is
    shorter than a hundred, and once cancelled the worker has returned with
    nothing held, every record taken having gone out. *)
Theorem X15_worker_conserves (evs : list Event) (s : St) :
  exists (w : Worker) (reqs : list pb_RecordCallsRequest),
    Daemon_consumeCalls grpc_Dial d evs s = (Val w, transmitted reqs s) /\
    worker_daemon w = d /\
    Forall (request_ok d) reqs /\
    concat (map pb_Calls reqs) ++ map Call_toProto (held w)
    = map Call_toProto (taken evs) /\
    (length (held w) < bufferSize)%nat /\
    (In Cancelled evs -> w = Returned d).
Proof.
  unfold Daemon_consumeCalls, Daemon_enabled. rewrite Hclient.
  rewrite bool_decide_eq_true_2 by done. simpl negb. cbv iota.
  apply (consume_loop_conserves evs [] s).
  unfold bufferSize. simpl. lia.
Qed.

End With_client.

Section Without_collector.

Variable d : D.
Hypothesis Hnone : client_ d = None.
Hypothesis Hdial : forall w : W, grpc_Dial (addr_Host d) w = None.

Lemma Daemon_send_fails (calls : list Call) (s : St) :
  Daemon_send grpc_Dial d calls s = (Val d, s).
Proof.
  unfold Daemon_send. destruct (length calls =? 0)%nat; [reflexivity|].
  unfold Daemon_safeClient. rewrite Hnone.
  unfold NewClient, bind, gets, ret. simpl. rewrite Hdial. simpl.
  destruct d. simpl in *. by subst.
Qed.

Lemma consume_loop_unreachable (evs : list Event) (calls : list Call)
    (s : St) :
  exists w : Worker,
    consume_loop grpc_Dial evs d calls s = (Val w, s) /\ worker_daemon w = d.
Proof.
  revert calls. induction evs as [|ev evs IH]; intros calls.
  - by exists (Waiting d calls).
  - destruct ev as [c| |]; simpl.
    + destruct (length (calls ++ [c]) =? bufferSize)%nat; [|apply IH].
      unfold bind at 1. rewrite Daemon_send_fails. apply IH.
    + unfold bind at 1. rewrite Daemon_send_fails. apply IH.
    + unfold bind. rewrite Daemon_send_fails. by exists (Returned d).
Qed.

(** X16. A collector that cannot be reached. When the daemon has no
    client and dialling its host fails, whatever happens the worker leaves
    the store as it is, nothing being put on the wire, and keeps its daemon
    without a client, so that it dials again at the next dispatch. A batch
    that cannot be sent is dropped, not kept for later: after a hundred
    records, after a tick and after cancellation the worker goes on, or
    returns, with an empty batch. *)
Theorem X16_unreachable_collector (evs : list Event) (calls : list Call)
    (s : St) :
  (exists w : Worker,
     consume_loop grpc_Dial evs d calls s = (Val w, s) /\
     worker_daemon w = d) /\
  (forall cs : list Call,
     length cs = bufferSize ->
     consume_loop grpc_Dial (map Received cs ++ evs) d [] s
     = consume_loop grpc_Dial evs d [] s) /\
  consume_loop grpc_Dial (Tick :: evs) d calls s
  = consume_loop grpc_Dial evs d [] s /\
  consume_loop grpc_Dial (Cancelled :: evs) d calls s = (Val (Returned d), s).
Proof.
  split_and!.
  - apply consume_loop_unreachable.
  - intros cs Hlen. rewrite consume_loop_flushes by done.
    unfold bind at 1. by rewrite Daemon_send_fails.
  - simpl. unfold bind at 1. by rewrite Daemon_send_fails.
  - simpl. unfold bind. by rewrite Daemon_send_fails.
Qed.

End Without_collector.

End Daemon_more.

(** ** The further properties on the runs of the tests *)

(** X1 on the retrier of [TestWithOverrides]: it allows three attempts. *)
Lemma X1_retrier_New_runs_witness :
  1 <= maxAttempts retrier_overrides < 2 ^ 64.
Proof.
  assert (Hopts : Forall retrier_option_ok
                    [WithIsRetriable (Some not_perm); WithMaxAttempts 3]).
  { repeat constructor; simpl; unfold is_uint; lia. }
  destruct (X1_retrier_New_runs
              [WithIsRetriable (Some not_perm); WithMaxAttempts 3]
              cb_oops store0 Hopts) as [H _].
  exact H.
Defined.

(** X2 on the default retrier of [TestWithDefaults]: a panic of the
    callback comes out as it is. *)
Lemma X2_retrier_small_budgets_witness :
  Retrier_Run (Some (retrier_New [])) cb_panic store0 = (Panic "oops", store0).
Proof.
  destruct (X2_retrier_small_budgets (retrier_New []) cb_panic store0)
    as (H & _ & _).
  rewrite H; reflexivity.
Defined.

(** X4 on [TestWithDefaults]: seven failing calls in a row. *)
Lemma X4_breaker_invariants_witness :
  Guarded_ok breaker_defaults
    (guarded breaker_defaults (snd (invoke 7 (run_defaults cb_oops) store0))) /\
  Counters_exclusive
    (guarded breaker_defaults (snd (invoke 7 (run_defaults cb_oops) store0))).
Proof.
  assert (Hb : Breaker_ok breaker_defaults).
  { vm_compute. repeat split; discriminate. }
  apply (X4_breaker_invariants (fun v : string => v) breaker_defaults cb_oops
           7 store0 Hb); [intros s|]; reflexivity.
Defined.

(** X5 on [TestWithDefaults]: the fifth failure opens the breaker for
    sixty seconds. *)
Lemma X5_failures_trip_witness :
  guarded breaker_defaults store_open
  = mkGuarded 0
      (mkState Open (clock_now (world store_open) + 60 * Second) 0 0) /\
  observed breaker_defaults store_open = Open.
Proof.
  assert (Hb : Breaker_ok breaker_defaults).
  { vm_compute. repeat split; discriminate. }
  destruct (X5_failures_trip (fun v : string => v) breaker_defaults cb_oops
              store0 Hb (fun s => eq_refl) (fun s => eq_refl) eq_refl eq_refl)
    as [_ [H1 H2]].
  split; [exact H1|]. apply H2. vm_compute. reflexivity.
Defined.

(** X6 on [TestWithDefaults]: with the one slot of the default breaker, the
    first success after the timeout closes it. *)
Lemma X6_successes_close_witness :
  guarded breaker_defaults (snd (run_defaults cb_nil store_half_open))
  = mkGuarded 0 (mkState Closed 0 0 0).
Proof.
  assert (Hb : Breaker_ok breaker_defaults).
  { vm_compute. repeat split; discriminate. }
  assert (Hclock : clock_forward breaker_defaults cb_nil).
  { intros s. simpl. lia. }
  assert (Hexp : expiresAt (state (guarded breaker_defaults store_half_open))
                 <= now breaker_defaults (world store_half_open)).
  { vm_compute. discriminate. }
  assert (Hst : status (state (guarded breaker_defaults store_half_open))
                = Open).
  { vm_compute. reflexivity. }
  assert (Hreq : requests (guarded breaker_defaults store_half_open) = 0).
  { vm_compute. reflexivity. }
  assert (Hsucc : Successes (state (guarded breaker_defaults store_half_open))
                  = 0).
  { vm_compute. reflexivity. }
  destruct (X6_successes_close (fun v : string => v) breaker_defaults cb_nil
              store_half_open Hb (fun s => eq_refl) (fun s => eq_refl) Hclock
              Hst Hexp Hreq Hsucc)
    as [_ H].
  exact H.
Defined.

(** X7 on [TestWithDefaults]: three calls on the open breaker. *)
Lemma X7_rejections_repeat_witness :
  invoke 3 (run_defaults cb_oops) store_open
  = (replicate 3 (Val (Some ErrBreakerOpen)), store_open).
Proof.
  apply (X7_rejections_repeat (fun v : string => v) breaker_defaults cb_oops
           3 store_open).
  left. vm_compute. reflexivity.
Defined.

(** X8 on a callback during which the breaker trips: its success is
    returned, and the breaker stays open. *)
Lemma X8_late_outcome_ignored_witness :
  run_defaults cb_trip store0 = (Val None, store_open).
Proof.
  destruct (X8_late_outcome_ignored (fun v : string => v) breaker_defaults
              cb_trip store0) as [H _].
  apply H; vm_compute; reflexivity.
Defined.

(** X9 on two registrations under one name. *)
Lemma X9_registry_first_wins_witness :
  fst (Registry_Register (fun x : string => x) NewRegistry "db"
         breaker_value_five) = None /\
  fst (Registry_Register (fun x : string => x)
         (snd (Registry_Register (fun x : string => x) NewRegistry "db"
                 breaker_value_five))
         "db" breaker_value_two) <> None.
Proof.
  split.
  - destruct (X9_registry_first_wins (fun x : string => x) NewRegistry "db"
                breaker_value_five []) as ([H _] & _); [reflexivity|].
    exact H.
  - destruct (X9_registry_first_wins (fun x : string => x)
                (snd (Registry_Register (fun x : string => x) NewRegistry
                        "db" breaker_value_five))
                "db" breaker_value_two []) as (_ & [H _] & _);
      [reflexivity|].
    exact H.
Defined.

(** X10 on the caller of the tests. *)
Lemma X10_caller_key_witness :
  "google"%string = "google"%string /\
  "clients.Google.Search"%string = "clients.Google.Search"%string.
Proof.
  destruct (X10_caller_key (W := TestWorld) (PanicValue := string)
              "google" "clients.Google.Search"
              "google" "clients.Google.Search") as (H & _).
  apply H; reflexivity.
Defined.

(** X11 on the open breaker of [TestWithDefaults] under a caller with a
    fallback: the fallback runs, the callback does not. *)
Lemma X11_caller_open_breaker_witness :
  Caller_Call (fun v : string => v) DoneFirst caller_guarded cb_oops store_open
  = (Val None, bump_fallbacks store_open).
Proof.
  rewrite (X11_caller_open_breaker (fun v : string => v) DoneFirst
             caller_guarded breaker_defaults cb_oops store_open).
  - reflexivity.
  - reflexivity.
  - left. vm_compute. reflexivity.
  - by left.
Defined.

(** X12 on three failing attempts under the default breaker: three
    invocations, one failure counted. *)
Lemma X12_retries_count_once_witness :
  counts (world (snd (Caller_Call (fun v : string => v) DoneFirst
                        caller_retried cb_oops store0))) = 3%nat /\
  Failures
    (state
       (guarded breaker_defaults
          (snd (Caller_Call (fun v : string => v) DoneFirst caller_retried
                  cb_oops store0)))) = 0 + 1.
Proof.
  assert (Hb : Breaker_ok breaker_defaults).
  { vm_compute. repeat split; discriminate. }
  destruct (X12_retries_count_once (fun v : string => v) DoneFirst
              caller_retried breaker_defaults cb_oops store0
              eq_refl eq_refl eq_refl (fun s => eq_refl) Hb eq_refl)
    as (_ & Hw & Hf & _).
  split.
  - rewrite Hw. reflexivity.
  - apply Hf; [reflexivity | vm_compute; discriminate | vm_compute; reflexivity].
Defined.

(** X13 on a daemon without callers. *)
Lemma X13_register_caller_witness :
  snd (fst (Daemon_RegisterCaller (fun x : string => x) (Some daemon_client)
              caller_always)) = None.
Proof.
  destruct (X13_register_caller (fun v : string => v) clock_now
              (fun x : string => x) daemon_client caller_always)
    as (_ & _ & H & _).
  destruct H as [H _]; [reflexivity|]. exact H.
Defined.

(** X14 on the caller of the tests, registered with a daemon that has a
    collector address and a worker at its receive, and with one that has
    none. *)
Lemma X14_daemon_call_record_witness :
  fst (daemon_call no_worker
         (Some (register_all (fun x : string => x) (NewD []) [caller_options]))
         "google:clients.Google.Search" cb_nil store0)
  = fst (daemon_call worker_waiting (Some daemon_options)
           "google:clients.Google.Search" cb_nil store0).
Proof.
  destruct (X14_daemon_call_record (fun v : string => v) clock_now DoneFirst
              worker_waiting daemon_options "google:clients.Google.Search"
              cb_nil store0)
    as (_ & _ & _ & _ & _ & H).
  destruct (H (register_all (fun x : string => x) (NewD []) [caller_options])
              no_worker)
    as (_ & _ & H1); [reflexivity|].
  apply H1; reflexivity.
Defined.

(** X15 on a record, a tick, a record and cancellation. *)
Lemma X15_worker_conserves_witness :
  exists (w : Worker) (reqs : list pb_RecordCallsRequest),
    Daemon_consumeCalls dial_ok daemon_client
      [Received call_oops; Tick; Received call_oops; Cancelled] store0
    = (Val w, transmitted reqs store0) /\
    concat (map pb_Calls reqs) ++ map Call_toProto (held w)
    = [Call_toProto call_oops; Call_toProto call_oops] /\
    w = Returned daemon_client.
Proof.
  destruct (X15_worker_conserves dial_ok daemon_client conn_ok (Some conn_ok)
              eq_refl
              [Received call_oops; Tick; Received call_oops; Cancelled]
              store0)
    as (w & reqs & H1 & _ & _ & H2 & _ & H3).
  exists w, reqs. split; [exact H1|]. split; [exact H2|].
  apply H3. simpl. tauto.
Defined.

(** X16 on a daemon whose collector cannot be reached. *)
Lemma X16_unreachable_collector_witness :
  consume_loop dial_fails [Cancelled] daemon_unreachable [call_oops] store0
  = (Val (Returned daemon_unreachable), store0).
Proof.
  destruct (X16_unreachable_collector dial_fails daemon_unreachable
              eq_refl (fun w => eq_refl) [] [call_oops] store0)
    as (_ & _ & _ & H).
  exact H.
Defined.

(** X17 on the daemon without options. *)
Lemma X17_daemon_settings_witness :
  Daemon_consumeCalls dial_ok
    (NewD [] : Daemon (W := TestWorld) (PanicValue := string))
    [Received call_oops] store0
  = (Val (Returned (NewD [])), store0).
Proof.
  destruct (X17_daemon_settings (fun v : string => v) clock_now dial_ok [])
    as (_ & _ & _ & _ & _ & _ & H).
  destruct (H eq_refl [Received call_oops] DoneFirst no_worker "" cb_nil
              store0)
    as [H1 _].
  exact H1.
Defined.
